(** * Platform integration and webhook reconciliation layer: a shallow embedding

    The Python sources embedded here are
      - [backend/main.py]                  (OAuth callbacks, HeyGen webhook,
                                            auto-campaign endpoint),
      - [backend/social_media_service.py]  (retry engine),
      - [backend/twitter_integration.py]   (PKCE pair, Twitter platform),
      - [backend/reddit_integration.py]    (Reddit platform),
      - [backend/twitter_oauth1_integration.py],
      - [backend/storage_service.py], [backend/auto_campaign_service*.py].

    Stateful code is written with explicit state passing; calls that leave
    the process (HTTP, object storage, AI text generation) are scripted by
    an oracle argument, and every such call is recorded in the state so that
    "was it called, and how often" is a statement about the final state. *)

From Stdlib Require Import ZArith List Bool Ascii String Lia.
From stdpp Require Import base option list strings gmap.

Local Open Scope string_scope.
Local Open Scope Z_scope.

(** ** Common vocabulary *)

(** What a Python call does: it returns a value or raises. *)
Inductive outcome (E A : Type) : Type :=
| Returns (a : A)
| Raises (e : E).
Arguments Returns {E A} a.
Arguments Raises {E A} e.

(** [fastapi.HTTPException(status_code, detail)]. *)
Record HTTPException : Type := mkHTTPException {
  status_code : Z;
  detail : string
}.

(** ** OAuth session stores and callbacks ([main.py]) *)
Module OAuth.

(** [twitter_integration.TwitterAuthState]; [created_at] is a timestamp. *)
Record TwitterAuthState : Type := mkTwitterAuthState {
  code_verifier : string;
  code_challenge : string;
  state : string;
  created_at : Z
}.

(** [twitter_oauth1_integration.TwitterOAuth1State]. *)
Record TwitterOAuth1State : Type := mkTwitterOAuth1State {
  oauth_token : string;
  request_token_secret : string;
  created_at1 : Z
}.

(** The row returned by the account upsert at the end of a callback. *)
Record AccountRow : Type := mkAccountRow {
  account_id : Z;
  platform : string;
  account_name : string
}.

(** [TwitterCallbackResponse]. *)
Record TwitterCallbackResponse : Type := mkTwitterCallbackResponse {
  message : string;
  resp_account_id : Z;
  resp_platform : string;
  resp_account_name : string
}.

(** Calls that leave the process, in the order the callbacks make them. *)
Inductive ExternalCall : Type :=
| ExchangeCodeForToken (code verifier : string)
| ExchangeVerifierForAccessToken (token verifier secret : string)
| FetchUserInfo
| PersistAccount.

(** The collaborators of one callback run.  Each answers with a value or
    with the message of the exception it raises. *)
Record Collaborators : Type := mkCollaborators {
  (* demo_flags.DEMO_MODE *)
  DEMO_MODE : bool;
  (* load_platform_config_from_env("twitter", prefix="TWITTER") *)
  load_platform_config_from_env : outcome string unit;
  (* TwitterPlatform.exchange_code_for_token(code, code_verifier, redirect) *)
  exchange_code_for_token : string -> string -> outcome string unit;
  (* requests.get(".../2/users/me"): status code and body text, or raises *)
  users_me : outcome string (Z * string);
  (* resp.json().get("data", {}) and the reads of "name" and "username", for
     a body text: raises when the body is not JSON or not an object *)
  read_user_info : string -> outcome string unit;
  (* the account upsert *)
  persist_account : outcome string AccountRow
}.

(** Process-wide state: the two module-level dictionaries
    [_twitter_oauth_sessions] and [_twitter_oauth1_sessions], and the log of
    external calls made so far (most recent first). *)
Record World : Type := mkWorld {
  _twitter_oauth_sessions : gmap string TwitterAuthState;
  _twitter_oauth1_sessions : gmap string TwitterOAuth1State;
  calls : list ExternalCall
}.

Definition log (c : ExternalCall) (w : World) : World :=
  mkWorld (_twitter_oauth_sessions w) (_twitter_oauth1_sessions w) (c :: calls w).

(** [_twitter_oauth_sessions[auth_state.state] = auth_state], the store done
    by [get_twitter_authorization_url]. *)
Definition store_session (a : TwitterAuthState) (w : World) : World :=
  mkWorld (<[state a := a]> (_twitter_oauth_sessions w))
          (_twitter_oauth1_sessions w) (calls w).

(** [_twitter_oauth1_sessions[auth_state.oauth_token] = auth_state]. *)
Definition store_session1 (a : TwitterOAuth1State) (w : World) : World :=
  mkWorld (_twitter_oauth_sessions w)
          (<[oauth_token a := a]> (_twitter_oauth1_sessions w)) (calls w).

(** [except Exception as e: raise HTTPException(status_code=500, detail=str(e))] *)
Definition internal_error (msg : string) : HTTPException :=
  mkHTTPException 500 msg.

(** [twitter_oauth_callback(code, state)].

    [if state not in _twitter_oauth_sessions: raise HTTPException(400, ...)]
    [auth_state = _twitter_oauth_sessions.pop(state)], then the configuration
    load, the token exchange, the user-info request, the reading of its
    body and the upsert. *)
Definition twitter_oauth_callback (ext : Collaborators) (code st : string)
    (w : World) : outcome HTTPException TwitterCallbackResponse * World :=
  match _twitter_oauth_sessions w !! st with
  | None => (Raises (mkHTTPException 400 "Invalid or expired state"), w)
  | Some auth_state =>
    let w1 := mkWorld (delete st (_twitter_oauth_sessions w))
                      (_twitter_oauth1_sessions w) (calls w) in
    match load_platform_config_from_env ext with
    | Raises e => (Raises (internal_error e), w1)
    | Returns _ =>
      let w2 := log (ExchangeCodeForToken code (code_verifier auth_state)) w1 in
      match exchange_code_for_token ext code (code_verifier auth_state) with
      | Raises e => (Raises (internal_error e), w2)
      | Returns _ =>
        let w3 := log FetchUserInfo w2 in
        match users_me ext with
        | Raises e => (Raises (internal_error e), w3)
        | Returns (sc, text) =>
          if negb (sc =? 200)
          then (Raises (mkHTTPException 500
                          ("Failed to fetch user info: " +:+ text)), w3)
          else
            match read_user_info ext text with
            | Raises e => (Raises (internal_error e), w3)
            | Returns _ =>
              let w4 := log PersistAccount w3 in
              match persist_account ext with
              | Raises e => (Raises (internal_error e), w4)
              | Returns row =>
                (Returns (mkTwitterCallbackResponse
                            "Twitter account connected successfully"
                            (account_id row) (platform row) (account_name row)),
                 w4)
              end
            end
        end
      end
    end
  end.

(** [TwitterOAuth1Platform.exchange_verifier_for_access_token]: the legacy
    flow is a stub that raises in both modes. *)
Definition exchange_verifier_for_access_token (ext : Collaborators)
    (token verifier secret : string) : outcome string unit :=
  if DEMO_MODE ext then Raises "External auth disabled in demo."
  else Raises "OAuth 1.0a not fully implemented".

(** [TwitterOAuth1Platform.get_user_info]: raises in demo mode, otherwise
    returns the empty dictionary. *)
Definition get_user_info (ext : Collaborators) : outcome string unit :=
  if DEMO_MODE ext then Raises "External auth disabled in demo."
  else Returns ().

(** [twitter_oauth1_callback(oauth_token, oauth_verifier)]. *)
Definition twitter_oauth1_callback (ext : Collaborators)
    (token verifier : string) (w : World)
    : outcome HTTPException TwitterCallbackResponse * World :=
  match _twitter_oauth1_sessions w !! token with
  | None => (Raises (mkHTTPException 400 "Invalid or expired oauth_token"), w)
  | Some auth_state =>
    let w1 := mkWorld (_twitter_oauth_sessions w)
                      (delete token (_twitter_oauth1_sessions w)) (calls w) in
    match load_platform_config_from_env ext with
    | Raises e => (Raises (internal_error e), w1)
    | Returns _ =>
      let w2 := log (ExchangeVerifierForAccessToken token verifier
                       (request_token_secret auth_state)) w1 in
      match exchange_verifier_for_access_token ext token verifier
              (request_token_secret auth_state) with
      | Raises e => (Raises (internal_error e), w2)
      | Returns _ =>
        let w3 := log FetchUserInfo w2 in
        match get_user_info ext with
        | Raises e => (Raises (internal_error e), w3)
        | Returns _ =>
          let w4 := log PersistAccount w3 in
          match persist_account ext with
          | Raises e => (Raises (internal_error e), w4)
          | Returns row =>
            (Returns (mkTwitterCallbackResponse
                        "Twitter account connected successfully via OAuth 1.0a"
                        (account_id row) (platform row) (account_name row)),
             w4)
          end
        end
      end
    end
  end.

(** Whatever happens after the lookup, a callback that found its session has
    removed it. *)
Lemma callback_pops ext code st w a :
  _twitter_oauth_sessions w !! st = Some a ->
  _twitter_oauth_sessions (twitter_oauth_callback ext code st w).2
  = delete st (_twitter_oauth_sessions w).
Proof.
  intros Hin. unfold twitter_oauth_callback. rewrite Hin.
  destruct (load_platform_config_from_env ext); [|reflexivity].
  destruct (exchange_code_for_token ext code (code_verifier a)); [|reflexivity].
  destruct (users_me ext) as [[sc text]|]; [|reflexivity].
  destruct (negb (sc =? 200)); [reflexivity|].
  destruct (read_user_info ext text); [|reflexivity].
  destruct (persist_account ext); reflexivity.
Qed.

Lemma callback1_pops ext token verifier w a :
  _twitter_oauth1_sessions w !! token = Some a ->
  _twitter_oauth1_sessions (twitter_oauth1_callback ext token verifier w).2
  = delete token (_twitter_oauth1_sessions w).
Proof.
  intros Hin. unfold twitter_oauth1_callback. rewrite Hin.
  destruct (load_platform_config_from_env ext); [|reflexivity].
  destruct (exchange_verifier_for_access_token ext token verifier
              (request_token_secret a)); [|reflexivity].
  destruct (get_user_info ext); [|reflexivity].
  destruct (persist_account ext); reflexivity.
Qed.

(** The legacy callback cannot get past its token exchange. *)
Lemma callback1_raises ext token verifier w a :
  _twitter_oauth1_sessions w !! token = Some a ->
  exists e, (twitter_oauth1_callback ext token verifier w).1 = Raises e
            /\ status_code e = 500.
Proof.
  intros Hin. unfold twitter_oauth1_callback. rewrite Hin.
  destruct (load_platform_config_from_env ext); [|by eexists].
  unfold exchange_verifier_for_access_token.
  destruct (DEMO_MODE ext); by eexists.
Qed.

(** A callback that does not find its session raises 400 and touches nothing. *)
Lemma callback_absent ext code st w :
  _twitter_oauth_sessions w !! st = None ->
  twitter_oauth_callback ext code st w
  = (Raises (mkHTTPException 400 "Invalid or expired state"), w).
Proof. intros Hout. unfold twitter_oauth_callback. by rewrite Hout. Qed.

Lemma callback1_absent ext token verifier w :
  _twitter_oauth1_sessions w !! token = None ->
  twitter_oauth1_callback ext token verifier w
  = (Raises (mkHTTPException 400 "Invalid or expired oauth_token"), w).
Proof. intros Hout. unfold twitter_oauth1_callback. by rewrite Hout. Qed.

(** A run to test with: one pending PKCE session and one pending legacy
    session; the provider rejects the authorization code. *)
Definition pending : TwitterAuthState :=
  mkTwitterAuthState "verifier-1" "challenge-1" "state-1" 1000.

Definition pending1 : TwitterOAuth1State :=
  mkTwitterOAuth1State "token-1" "secret-1" 1000.

Definition world0 : World :=
  store_session1 pending1 (store_session pending (mkWorld ∅ ∅ [])).

Definition rejecting : Collaborators :=
  mkCollaborators false (Returns ())
    (fun _ _ => Raises "Token exchange failed (HTTP 400): invalid_request")
    (Returns (200, "{}"))
    (fun _ => Returns ())
    (Returns (mkAccountRow 1 "twitter" "Twitter Account")).

(** The token exchange or the user-info request of a PKCE callback fails:
    the exchange raises, or the request raises, or it answers with a status
    other than 200, or with a body that cannot be read. *)
Definition exchange_or_user_info_fails (ext : Collaborators)
    (code verifier : string) : Prop :=
  (exists e, exchange_code_for_token ext code verifier = Raises e)
  \/ (exists e, users_me ext = Raises e)
  \/ (exists sc text, users_me ext = Returns (sc, text) /\ sc <> 200)
  \/ (exists sc text e, users_me ext = Returns (sc, text)
                        /\ read_user_info ext text = Raises e).

Lemma callback_failure_raises ext code st w a :
  _twitter_oauth_sessions w !! st = Some a ->
  exchange_or_user_info_fails ext code (code_verifier a) ->
  exists e, (twitter_oauth_callback ext code st w).1 = Raises e
            /\ status_code e = 500.
Proof.
  intros Hin Hfail. unfold twitter_oauth_callback. rewrite Hin.
  destruct (load_platform_config_from_env ext); [|by eexists].
  destruct Hfail as [[e He]|[[e He]|[(sc & text & He & Hsc)|(sc & text & e & He & Hr)]]].
  - rewrite He. by eexists.
  - destruct (exchange_code_for_token ext code (code_verifier a)); [|by eexists].
    rewrite He. by eexists.
  - destruct (exchange_code_for_token ext code (code_verifier a)); [|by eexists].
    rewrite He. apply Z.eqb_neq in Hsc. rewrite Hsc. by eexists.
  - destruct (exchange_code_for_token ext code (code_verifier a)); [|by eexists].
    rewrite He. destruct (negb (sc =? 200)); [by eexists|].
    rewrite Hr. by eexists.
Qed.

(** Once the configuration is loaded, the callback attempts the exchange
    with the verifier of the session it popped. *)
Lemma callback_exchanges ext code st w a :
  _twitter_oauth_sessions w !! st = Some a ->
  load_platform_config_from_env ext = Returns () ->
  In (ExchangeCodeForToken code (code_verifier a))
     (calls (twitter_oauth_callback ext code st w).2).
Proof.
  intros Hin Hcfg. unfold twitter_oauth_callback. rewrite Hin, Hcfg.
  destruct (exchange_code_for_token ext code (code_verifier a)); [|by left].
  destruct (users_me ext) as [[sc text]|]; [|by right; left].
  destruct (negb (sc =? 200)); [by right; left|].
  destruct (read_user_info ext text); [|by right; left].
  destruct (persist_account ext); by right; right; left.
Qed.

(** C6. A PKCE session state token is single-use.  The first callback that
    presents a stored state token removes it from the session store,
    whatever the collaborators answer; any later callback presenting the
    same token raises HTTP 400 "Invalid or expired state", leaves the world
    as it found it and so performs no token exchange. *)
Theorem state_token_single_use
    (ext1 ext2 : Collaborators) (code1 code2 st : string) (w : World)
    (a : TwitterAuthState) :
  _twitter_oauth_sessions w !! st = Some a ->
  let w' := (twitter_oauth_callback ext1 code1 st w).2 in
  _twitter_oauth_sessions w' = delete st (_twitter_oauth_sessions w)
  /\ _twitter_oauth_sessions w' !! st = None
  /\ twitter_oauth_callback ext2 code2 st w'
     = (Raises (mkHTTPException 400 "Invalid or expired state"), w').
Proof.
  intros Hin w'.
  assert (Hpop : _twitter_oauth_sessions w' = delete st (_twitter_oauth_sessions w))
    by (subst w'; eapply callback_pops; eassumption).
  assert (Hgone : _twitter_oauth_sessions w' !! st = None)
    by (rewrite Hpop; apply lookup_delete_eq).
  split; [exact Hpop|]. split; [exact Hgone|].
  by apply callback_absent.
Qed.

Lemma state_token_single_use_witness :
  _twitter_oauth_sessions world0 !! "state-1" = Some pending
  /\ twitter_oauth_callback rejecting "code-2" "state-1"
       (twitter_oauth_callback rejecting "code-1" "state-1" world0).2
     = (Raises (mkHTTPException 400 "Invalid or expired state"),
        (twitter_oauth_callback rejecting "code-1" "state-1" world0).2).
Proof.
  assert (H : _twitter_oauth_sessions world0 !! "state-1" = Some pending)
    by (vm_compute; reflexivity).
  split; [exact H|].
  exact (proj2 (proj2 (state_token_single_use rejecting rejecting
                         "code-1" "code-2" "state-1" world0 pending H))).
Defined.

(** C10. The PKCE callback pops the session before it attempts the
    exchange.  For every session that the URL endpoint stored and every
    callback on it whose token exchange or user-info request fails (the
    exchange raises, the request raises, it answers with a status other
    than 200, or its body cannot be read), the callback raises HTTP 500,
    the exchange was attempted with the verifier of the session, the state
    token is gone from the store all the same while every other session is
    kept, and a retry with that token, whatever code it brings and whatever
    the collaborators would answer, raises HTTP 400 "Invalid or expired
    state" and leaves the world as it is: no further exchange. *)
Theorem state_consumed_when_exchange_fails
    (ext ext' : Collaborators) (code code' st : string)
    (w : World) (a : TwitterAuthState) :
  _twitter_oauth_sessions w !! st = Some a ->
  load_platform_config_from_env ext = Returns () ->
  exchange_or_user_info_fails ext code (code_verifier a) ->
  let r := twitter_oauth_callback ext code st w in
  (exists e, r.1 = Raises e /\ status_code e = 500)
  /\ In (ExchangeCodeForToken code (code_verifier a)) (calls r.2)
  /\ _twitter_oauth_sessions r.2 = delete st (_twitter_oauth_sessions w)
  /\ _twitter_oauth_sessions r.2 !! st = None
  /\ twitter_oauth_callback ext' code' st r.2
     = (Raises (mkHTTPException 400 "Invalid or expired state"), r.2).
Proof.
  intros Hin Hcfg Hfail r.
  assert (Hpop : _twitter_oauth_sessions r.2
                 = delete st (_twitter_oauth_sessions w))
    by (subst r; by eapply callback_pops).
  assert (Hgone : _twitter_oauth_sessions r.2 !! st = None)
    by (rewrite Hpop; apply lookup_delete_eq).
  split; [subst r; by eapply callback_failure_raises|].
  split; [subst r; by apply callback_exchanges|].
  split; [exact Hpop|]. split; [exact Hgone|]. by apply callback_absent.
Qed.

(** The session of the run below is the one [store_session] puts there,
    which is what [get_twitter_authorization_url] does. *)
Lemma state_consumed_when_exchange_fails_witness :
  (exists e, (twitter_oauth_callback rejecting "code-1" "state-1"
                (store_session pending (mkWorld ∅ ∅ []))).1
             = Raises e /\ status_code e = 500)
  /\ _twitter_oauth_sessions
       (twitter_oauth_callback rejecting "code-1" "state-1"
          (store_session pending (mkWorld ∅ ∅ []))).2
     !! "state-1" = None
  /\ twitter_oauth_callback rejecting "code-2" "state-1"
       (twitter_oauth_callback rejecting "code-1" "state-1"
          (store_session pending (mkWorld ∅ ∅ []))).2
     = (Raises (mkHTTPException 400 "Invalid or expired state"),
        (twitter_oauth_callback rejecting "code-1" "state-1"
           (store_session pending (mkWorld ∅ ∅ []))).2).
Proof.
  assert (H : _twitter_oauth_sessions (store_session pending (mkWorld ∅ ∅ []))
              !! "state-1" = Some pending)
    by (vm_compute; reflexivity).
  assert (Hf : exchange_or_user_info_fails rejecting "code-1"
                 (code_verifier pending))
    by (left; eexists; reflexivity).
  destruct (state_consumed_when_exchange_fails rejecting rejecting
              "code-1" "code-2" "state-1"
              (store_session pending (mkWorld ∅ ∅ [])) pending H eq_refl Hf)
    as (Hr & _ & _ & Hgone & Hretry).
  split; [exact Hr|]. split; [exact Hgone | exact Hretry].
Defined.

End OAuth.

(** ** PKCE verifier and challenge ([twitter_integration.py]) *)
Module PKCE.

Import Byte.

(** The URL-safe alphabet of RFC 4648, section 5. *)
Definition alphabet : list ascii :=
  list_ascii_of_string
    "ABCDEFGHIJKLMNOPQRSTUVWXYZabcdefghijklmnopqrstuvwxyz0123456789-_".

Definition b64char (n : N) : ascii :=
  nth (N.to_nat n) alphabet "A"%char.

(** The four sextets of a 24-bit group. *)
Definition sextet (x : N) (i : N) : ascii :=
  b64char (N.land (N.shiftr x (6 * i)) 63).

(** [base64.urlsafe_b64encode]: three bytes give four characters; a last
    group of one byte gives two characters and [==], of two bytes three
    characters and [=]. *)
Fixpoint urlsafe_b64encode (bs : list byte) : string :=
  match bs with
  | [] => ""
  | [a] =>
    let x := N.shiftl (to_N a) 4 in
    String (sextet x 1) (String (sextet x 0) "==")
  | [a; b] =>
    let x := N.shiftl (N.lor (N.shiftl (to_N a) 8) (to_N b)) 2 in
    String (sextet x 2) (String (sextet x 1) (String (sextet x 0) "="))
  | a :: b :: c :: rest =>
    let x := N.lor (N.lor (N.shiftl (to_N a) 16) (N.shiftl (to_N b) 8)) (to_N c) in
    String (sextet x 3) (String (sextet x 2) (String (sextet x 1)
      (String (sextet x 0) (urlsafe_b64encode rest))))
  end.

(** [s.rstrip(c)] for a one-character strip set. *)
Fixpoint rstrip (c : ascii) (s : string) : string :=
  match s with
  | EmptyString => EmptyString
  | String x s' =>
    match rstrip c s' with
    | EmptyString => if Ascii.eqb x c then EmptyString else String x EmptyString
    | r => String x r
    end
  end.

(** [c in s]. *)
Fixpoint contains (c : ascii) (s : string) : bool :=
  match s with
  | EmptyString => false
  | String x s' => Ascii.eqb x c || contains c s'
  end.

(** [s.encode('utf-8')]; the strings encoded here are ASCII, one byte per
    character (see [stripped_encoding_ascii]). *)
Definition encode_utf8 (s : string) : list byte := list_byte_of_string s.

(** Every character of [s] is below 128. *)
Fixpoint is_ascii (s : string) : bool :=
  match s with
  | EmptyString => true
  | String x s' => (N_of_ascii x <? 128)%N && is_ascii s'
  end.

Section Generator.

(** [hashlib.sha256(m).digest()]. *)
Variable sha256 : list byte -> list byte.

(** [generate_pkce_pair()]; [entropy] is what [secrets.token_bytes(32)]
    returned. *)
Definition generate_pkce_pair (entropy : list byte) : string * string :=
  let verifier := rstrip "=" (urlsafe_b64encode entropy) in
  let challenge :=
    rstrip "=" (urlsafe_b64encode (sha256 (encode_utf8 verifier))) in
  (verifier, challenge).

End Generator.

(** RFC 4648 test vectors, and one that needs the URL-safe characters. *)
Example b64_f : urlsafe_b64encode (list_byte_of_string "f") = "Zg==".
Proof. reflexivity. Qed.
Example b64_fo : urlsafe_b64encode (list_byte_of_string "fo") = "Zm8=".
Proof. reflexivity. Qed.
Example b64_foo : urlsafe_b64encode (list_byte_of_string "foo") = "Zm9v".
Proof. reflexivity. Qed.
Example b64_foob : urlsafe_b64encode (list_byte_of_string "foob") = "Zm9vYg==".
Proof. reflexivity. Qed.
Example b64_fooba : urlsafe_b64encode (list_byte_of_string "fooba") = "Zm9vYmE=".
Proof. reflexivity. Qed.
Example b64_foobar : urlsafe_b64encode (list_byte_of_string "foobar") = "Zm9vYmFy".
Proof. reflexivity. Qed.
Example b64_urlsafe : urlsafe_b64encode [xfb; xff; xbe] = "-_--".
Proof. reflexivity. Qed.
Example rstrip_inner : rstrip "=" "a=b==" = "a=b".
Proof. reflexivity. Qed.

(** Every character the encoder can emit for a sextet is an ASCII character
    other than the padding character. *)
Lemma alphabet_safe :
  forallb (fun c => negb (Ascii.eqb c "=") && (N_of_ascii c <? 128)%N) alphabet
  = true.
Proof. reflexivity. Qed.

Lemma b64char_not_pad (n : N) : Ascii.eqb (b64char n) "=" = false.
Proof.
  unfold b64char.
  destruct (nth_in_or_default (N.to_nat n) alphabet "A"%char) as [Hin|Hd].
  - pose proof alphabet_safe as Hs. rewrite forallb_forall in Hs.
    specialize (Hs _ Hin). apply andb_true_iff in Hs as [Hs _].
    by apply negb_true_iff in Hs.
  - by rewrite Hd.
Qed.

Lemma sextet_not_pad (x i : N) : Ascii.eqb (sextet x i) "=" = false.
Proof. apply b64char_not_pad. Qed.

Lemma sextet_ascii (x i : N) : (N_of_ascii (sextet x i) <? 128)%N = true.
Proof.
  unfold sextet, b64char.
  destruct (nth_in_or_default (N.to_nat (N.land (N.shiftr x (6 * i)) 63))
              alphabet "A"%char) as [Hin|Hd].
  - pose proof alphabet_safe as Hs. rewrite forallb_forall in Hs.
    specialize (Hs _ Hin). by apply andb_true_iff in Hs as [_ Hs].
  - by rewrite Hd.
Qed.

(** [rstrip] never touches a character that is not in the strip set. *)
Lemma rstrip_cons_ne (c x : ascii) (s : string) :
  Ascii.eqb x c = false -> rstrip c (String x s) = String x (rstrip c s).
Proof. intros Hne. simpl. rewrite Hne. by destruct (rstrip c s). Qed.

(** Induction in steps of three, the way the encoder consumes its input. *)
Lemma triples_ind {A : Type} (P : list A -> Prop) :
  P [] -> (forall a, P [a]) -> (forall a b, P [a; b]) ->
  (forall a b c l, P l -> P (a :: b :: c :: l)) ->
  forall l, P l.
Proof.
  intros H0 H1 H2 H3.
  assert (Hall : forall l, P l /\ (forall a, P (a :: l)) /\ (forall a b, P (a :: b :: l))).
  { induction l as [|x l (IH0 & IH1 & IH2)]; [by auto|].
    split; [apply IH1|]. split; [intros; apply IH2|]. intros; by apply H3. }
  intros l. apply Hall.
Qed.

(** What the stripped encoding looks like: no padding character anywhere,
    and ceil(4n/3) characters for n bytes. *)
Lemma stripped_encoding (bs : list byte) :
  contains "=" (rstrip "=" (urlsafe_b64encode bs)) = false
  /\ String.length (rstrip "=" (urlsafe_b64encode bs))
     = ((4 * List.length bs + 2) / 3)%nat.
Proof.
  induction bs as [|a|a b|a b c l [IHc IHl]] using triples_ind.
  - by split.
  - cbn [urlsafe_b64encode].
    rewrite !rstrip_cons_ne by apply sextet_not_pad.
    cbn [contains]. rewrite !sextet_not_pad. by split.
  - cbn [urlsafe_b64encode].
    rewrite !rstrip_cons_ne by apply sextet_not_pad.
    cbn [contains]. rewrite !sextet_not_pad. by split.
  - cbn [urlsafe_b64encode].
    rewrite !rstrip_cons_ne by apply sextet_not_pad.
    cbn [contains String.length List.length]. rewrite !sextet_not_pad, IHc, IHl.
    split; [done|].
    replace (4 * S (S (S (List.length l))) + 2)%nat
      with ((4 * List.length l + 2) + 4 * 3)%nat by lia.
    rewrite Nat.div_add by lia. lia.
Qed.

(** The stripped encoding is ASCII, so its UTF-8 encoding has one byte per
    character. *)
Lemma stripped_encoding_ascii (bs : list byte) :
  is_ascii (rstrip "=" (urlsafe_b64encode bs)) = true.
Proof.
  induction bs as [|a|a b|a b c l IH] using triples_ind;
    cbn [urlsafe_b64encode]; rewrite ?rstrip_cons_ne by apply sextet_not_pad;
    cbn [is_ascii]; rewrite ?sextet_ascii; [reflexivity..|exact IH].
Qed.

(** C7. For every pair the generator produces from 32 bytes of entropy, the
    verifier is the URL-safe base64 encoding of those bytes with the padding
    stripped, the challenge is the URL-safe base64 encoding of the SHA-256
    digest of the verifier with the padding stripped, and neither contains a
    padding character: both are 43 characters of the URL-safe alphabet. *)
Theorem pkce_pair_shape (sha256 : list byte -> list byte) (entropy : list byte) :
  List.length entropy = 32%nat ->
  (forall m, List.length (sha256 m) = 32%nat) ->
  let verifier := (generate_pkce_pair sha256 entropy).1 in
  let challenge := (generate_pkce_pair sha256 entropy).2 in
  verifier = rstrip "=" (urlsafe_b64encode entropy)
  /\ challenge = rstrip "=" (urlsafe_b64encode (sha256 (encode_utf8 verifier)))
  /\ contains "=" verifier = false
  /\ contains "=" challenge = false
  /\ String.length verifier = 43%nat
  /\ String.length challenge = 43%nat.
Proof.
  intros Hlen Hsha verifier challenge. subst verifier challenge.
  unfold generate_pkce_pair. cbn [fst snd].
  destruct (stripped_encoding entropy) as [Hv Hvl].
  destruct (stripped_encoding
              (sha256 (encode_utf8 (rstrip "=" (urlsafe_b64encode entropy)))))
    as [Hc Hcl].
  rewrite Hlen in Hvl. rewrite Hsha in Hcl.
  repeat split; assumption.
Qed.

(** A stand-in digest for running the generator: 32 zero bytes. *)
Definition zero_digest (m : list byte) : list byte := repeat x00 32.

Lemma pkce_pair_shape_witness :
  List.length (repeat xff 32) = 32%nat
  /\ (generate_pkce_pair zero_digest (repeat xff 32)).1
     = "__________________________________________8"
  /\ contains "=" (generate_pkce_pair zero_digest (repeat xff 32)).2 = false.
Proof.
  split; [reflexivity|].
  destruct (pkce_pair_shape zero_digest (repeat xff 32) eq_refl
              (fun _ => eq_refl)) as (Hv & _ & _ & Hc & _).
  split; [rewrite Hv; reflexivity | exact Hc].
Defined.

End PKCE.

(** ** Python string helpers

    Characters are code points below 256. *)
Module PyStr.

(** [c.isspace()]. *)
Definition is_space (c : ascii) : bool :=
  let n := N_of_ascii c in
  ((9 <=? n) && (n <=? 13) || (28 <=? n) && (n <=? 32)
   || (n =? 133) || (n =? 160))%N.

(** [c.lower()]. *)
Definition lower_char (c : ascii) : ascii :=
  let n := N_of_ascii c in
  if ((65 <=? n) && (n <=? 90)
      || (192 <=? n) && (n <=? 222) && negb (n =? 215))%N
  then ascii_of_N (n + 32)
  else c.

(** [s.lower()]. *)
Fixpoint lower (s : string) : string :=
  match s with
  | EmptyString => EmptyString
  | String c s' => String (lower_char c) (lower s')
  end.

(** [s.lstrip()]. *)
Fixpoint lstrip (s : string) : string :=
  match s with
  | EmptyString => EmptyString
  | String c s' => if is_space c then lstrip s' else s
  end.

(** [s.rstrip()]. *)
Fixpoint rstrip (s : string) : string :=
  match s with
  | EmptyString => EmptyString
  | String c s' =>
    match rstrip s' with
    | EmptyString => if is_space c then EmptyString else String c EmptyString
    | r => String c r
    end
  end.

(** [s.strip()]. *)
Definition strip (s : string) : string := rstrip (lstrip s).

(** Truthiness of a string: [bool(s)]. *)
Definition truthy (s : string) : bool :=
  match s with EmptyString => false | String _ _ => true end.

(** [x in xs] for a list of strings. *)
Definition mem (x : string) (xs : list string) : bool :=
  existsb (String.eqb x) xs.

Example strip_both : strip "  Twitter " = "Twitter".
Proof. reflexivity. Qed.
Example lower_mixed : lower "TwItter" = "twitter".
Proof. reflexivity. Qed.

Lemma mem_In (x : string) (xs : list string) : mem x xs = true <-> In x xs.
Proof.
  unfold mem. rewrite existsb_exists. split.
  - intros (y & Hy & Heq). apply String.eqb_eq in Heq. by subst.
  - intros Hin. exists x. split; [done|apply String.eqb_refl].
Qed.

(** Lower-casing makes no blank and removes none, so it commutes with
    [strip]. *)
Lemma is_space_lower_char (c : ascii) : is_space (lower_char c) = is_space c.
Proof. destruct c as [[] [] [] [] [] [] [] []]; reflexivity. Qed.

Lemma lstrip_lower (s : string) : lstrip (lower s) = lower (lstrip s).
Proof.
  induction s as [|c s IH]; [done|]. cbn [lower lstrip].
  rewrite is_space_lower_char. by destruct (is_space c).
Qed.

Lemma rstrip_lower (s : string) : rstrip (lower s) = lower (rstrip s).
Proof.
  induction s as [|c s IH]; [done|]. cbn [lower rstrip].
  rewrite IH, is_space_lower_char.
  destruct (rstrip s); cbn [lower]; [by destruct (is_space c)|done].
Qed.

Lemma strip_lower (s : string) : strip (lower s) = lower (strip s).
Proof. unfold strip. by rewrite lstrip_lower, rstrip_lower. Qed.

Lemma truthy_lower (s : string) : truthy (lower s) = truthy s.
Proof. by destruct s. Qed.

End PyStr.

(** ** Auto-campaign endpoint ([main.py], [auto_campaign_service*.py]) *)
Module Campaign.

Import PyStr.

(** [auto_campaign_service.PLATFORM_CAPS]: platform -> content kinds. *)
Definition PLATFORM_CAPS : list (string * list string) :=
  [("twitter", ["tweet"]); ("shorts", ["shorts_caption"; "video"])].

(** [set(svc.PLATFORM_CAPS.keys())]. *)
Definition supported : list string := map fst PLATFORM_CAPS.

(** The raw value handed to the [pre=True] validator: a list, whose items
    are given by their [str(p)], or something that is not a list. *)
Inductive PlatformsValue : Type :=
| NotAList (is_truthy : bool)
| AList (items : list string).

(** [[str(p).lower().strip() for p in value if str(p).strip()]]. *)
Definition normalize (items : list string) : list string :=
  map (fun p => strip (lower p)) (List.filter (fun p => truthy (strip p)) items).

(** [AutoCampaignRequest._normalize_and_validate_platforms]; [Raises] carries
    the message of the [ValueError]. *)
Definition _normalize_and_validate_platforms (value : PlatformsValue)
    : outcome string (list string) :=
  match value with
  | NotAList false | AList [] =>
    Raises "At least one platform must be provided"
  | NotAList true => Raises "platforms must be a list"
  | AList items =>
    match normalize items with
    | [] => Raises "At least one platform must be provided"
    | normalized =>
      match List.filter (fun p => mem p supported) normalized with
      | [] => Raises "Unsupported platforms; supported: ['shorts', 'twitter']"
      | filtered => Returns filtered
      end
    end
  end.

Example validate_default :
  _normalize_and_validate_platforms (AList ["twitter"; "shorts"])
  = Returns ["twitter"; "shorts"].
Proof. reflexivity. Qed.
Example validate_normalizes :
  _normalize_and_validate_platforms (AList [" Twitter "; ""; "SHORTS"])
  = Returns ["twitter"; "shorts"].
Proof. reflexivity. Qed.
Example validate_mixed :
  _normalize_and_validate_platforms (AList ["twitter"; "facebook"])
  = Returns ["twitter"].
Proof. reflexivity. Qed.
Example validate_unsupported :
  _normalize_and_validate_platforms (AList ["facebook"])
  = Raises "Unsupported platforms; supported: ['shorts', 'twitter']".
Proof. reflexivity. Qed.

(** *** Tables *)

Record OfferRow : Type := mkOfferRow {
  o_offer_id : Z;
  o_title : string;
  o_description : option string;
  o_link_url : option string
}.

Record PersonaRow : Type := mkPersonaRow {
  p_persona_id : Z;
  p_title : string
}.

Record PainPointRow : Type := mkPainPointRow {
  pp_pain_point_id : Z;
  pp_text : string
}.

Record ScriptRow : Type := mkScriptRow {
  s_script_id : Z;
  s_text : string
}.

Record CampaignRow : Type := mkCampaignRow {
  c_campaign_id : Z;
  c_name : string;
  c_description : string;
  c_persona_id : option Z;
  c_status : string;
  c_offer_id : option Z;
  c_pain_point_id : option Z;
  c_primary_script_id : option Z;
  c_cta_link : option string
}.

Record CampaignPlatformRow : Type := mkCampaignPlatformRow {
  cp_campaign_id : Z;
  cp_platform : string;
  cp_enabled : bool
}.

Record ContentRow : Type := mkContentRow {
  ct_content_id : Z;
  ct_campaign_id : Z;
  ct_kind : string;
  ct_text : option string;
  ct_asset_id : option Z;
  ct_source : string
}.

Record Database : Type := mkDatabase {
  offers : list OfferRow;
  personas : list PersonaRow;
  pain_points : list PainPointRow;
  scripts : list ScriptRow;
  campaigns : list CampaignRow;
  campaign_platforms : list CampaignPlatformRow;
  contents : list ContentRow
}.

(** The rows the assembly creates, without the offers. *)
Definition assembly_rows (db : Database) :=
  (personas db, pain_points db, scripts db, campaigns db,
   campaign_platforms db, contents db).

(** A psycopg2 connection: what every other connection sees ([committed]),
    and what this one sees inside its open transaction ([working]). *)
Record Connection : Type := mkConnection {
  committed : Database;
  working : Database
}.

(** [get_db_connection()]. *)
Definition connect (db : Database) : Connection := mkConnection db db.

(** [conn.commit()], [conn.rollback()]. *)
Definition commit (conn : Connection) : Connection :=
  mkConnection (working conn) (working conn).
Definition rollback (conn : Connection) : Connection :=
  mkConnection (committed conn) (committed conn).

(** The primary key a serial column hands out next. *)
Definition next_id {A : Type} (rows : list A) : Z := Z.of_nat (S (length rows)).

(** The places of [create_auto_campaign]'s transaction where a statement or
    a helper can raise. *)
Inductive Step : Type :=
| SCursor
| SInsertPersona
| SInsertPainPoint
| SInsertScript
| SInsertCampaign
| SUpdateCampaignCore
| SAttachPlatform (plat : string)
| SCreateContentTweet
| SCreateContentShortsCaption
| SCreateContentShortsVideo
| SCommit
| SCursorClose
| SRollback
| SClose.

(** An exception together with the place that raised it. *)
Definition Exn : Type := Step * string.

(** Which statements fail in a run, and with what message. *)
Definition Faults : Type := Step -> option string.

(** Code that runs against a connection and may raise. *)
Definition Tx (A : Type) : Type := Connection -> outcome Exn A * Connection.

Definition ret {A : Type} (a : A) : Tx A := fun conn => (Returns a, conn).

Definition bind {A B : Type} (m : Tx A) (k : A -> Tx B) : Tx B :=
  fun conn =>
    match m conn with
    | (Returns a, conn') => k a conn'
    | (Raises e, conn') => (Raises e, conn')
    end.

Declare Scope tx_scope.
Delimit Scope tx_scope with tx.
Notation "x <- m ;; k" := (bind m (fun x => k))
  (at level 100, m at next level, right associativity) : tx_scope.
Notation "m ;;; k" := (bind m (fun _ => k))
  (at level 100, right associativity) : tx_scope.

(** A statement that raises when the fault plan says so and otherwise
    updates the working copy and returns a value. *)
Definition execute {A : Type} (faults : Faults) (s : Step)
    (f : Database -> A * Database) : Tx A :=
  fun conn =>
    match faults s with
    | Some msg => (Raises (s, msg), conn)
    | None =>
      let (a, db') := f (working conn) in
      (Returns a, mkConnection (committed conn) db')
    end.

(** Re-raise whatever [m] raises as coming from step [s]. *)
Definition at_step {A : Type} (s : Step) (m : Tx A) : Tx A :=
  fun conn =>
    match m conn with
    | (Raises (_, msg), conn') => (Raises (s, msg), conn')
    | r => r
    end.

(** [conn.commit()] as a statement of the transaction. *)
Definition do_commit (faults : Faults) : Tx unit :=
  fun conn =>
    match faults SCommit with
    | Some msg => (Raises (SCommit, msg), conn)
    | None => (Returns (), commit conn)
    end.

(** *** The helper module [svc]

    [main.py] imports [auto_campaign_service as svc]; the sibling module
    [auto_campaign_service_with_db] has the same functions. *)
Record Service : Type := mkService {
  insert_campaign : string -> string -> Z -> string -> Tx Z;
  update_campaign_core :
    Z -> option Z -> option Z -> option Z -> option Z -> option string -> Tx unit;
  attach_platform : Z -> string -> bool -> Tx unit;
  create_content_tweet : Z -> string -> string -> Tx Z;
  create_content_shorts_caption : Z -> string -> string -> Tx Z;
  create_content_shorts_video : Z -> option Z -> string -> Tx Z
}.

(** [auto_campaign_service]: every helper returns a mock value and touches
    nothing. *)
Definition auto_campaign_service : Service :=
  mkService
    (fun _ _ _ _ => ret 1)
    (fun _ _ _ _ _ _ => ret ())
    (fun _ _ _ => ret ())
    (fun _ _ _ => ret 1)
    (fun _ _ _ => ret 1)
    (fun _ _ _ => ret 1).

Definition set_campaigns (f : list CampaignRow -> list CampaignRow)
    (db : Database) : Database :=
  mkDatabase (offers db) (personas db) (pain_points db) (scripts db)
             (f (campaigns db)) (campaign_platforms db) (contents db).

Definition set_campaign_platforms
    (f : list CampaignPlatformRow -> list CampaignPlatformRow)
    (db : Database) : Database :=
  mkDatabase (offers db) (personas db) (pain_points db) (scripts db)
             (campaigns db) (f (campaign_platforms db)) (contents db).

Definition set_contents (f : list ContentRow -> list ContentRow)
    (db : Database) : Database :=
  mkDatabase (offers db) (personas db) (pain_points db) (scripts db)
             (campaigns db) (campaign_platforms db) (f (contents db)).

(** Modelled from the spec: the SQL of the helpers is not in the sources;
    each helper issues the one statement its docstring describes, on the
    caller's connection, and does not commit. *)
Definition insert_content (faults : Faults) (s : Step) (campaign_id : Z)
    (kind : string) (text : option string) (asset_id : option Z)
    (source : string) : Tx Z :=
  execute faults s (fun db =>
    let id := next_id (contents db) in
    (id, set_contents
           (fun rows => (rows ++ [mkContentRow id campaign_id kind text asset_id source])%list)
           db)).

(** [auto_campaign_service_with_db]. *)
Definition auto_campaign_service_with_db (faults : Faults) : Service :=
  mkService
    (fun name description persona_id status =>
       execute faults SInsertCampaign (fun db =>
         let id := next_id (campaigns db) in
         (id, set_campaigns
                (fun rows => (rows ++ [mkCampaignRow id name description
                                         (Some persona_id) status None None None None])%list)
                db)))
    (fun campaign_id offer_id persona_id pain_point_id primary_script_id cta_link =>
       execute faults SUpdateCampaignCore (fun db =>
         ((), set_campaigns
                (map (fun c =>
                        if c_campaign_id c =? campaign_id
                        then mkCampaignRow (c_campaign_id c) (c_name c)
                               (c_description c) persona_id (c_status c) offer_id
                               pain_point_id primary_script_id cta_link
                        else c))
                db)))
    (fun campaign_id plat enabled =>
       execute faults (SAttachPlatform plat) (fun db =>
         ((), set_campaign_platforms
                (fun rows =>
                   if existsb (fun r => (cp_campaign_id r =? campaign_id)
                                        && String.eqb (cp_platform r) plat) rows
                   then rows
                   else (rows ++ [mkCampaignPlatformRow campaign_id plat enabled])%list)
                db)))
    (fun campaign_id text source =>
       insert_content faults SCreateContentTweet campaign_id "tweet"
         (Some text) None source)
    (fun campaign_id text source =>
       insert_content faults SCreateContentShortsCaption campaign_id
         "shorts_caption" (Some text) None source)
    (fun campaign_id asset_id source =>
       insert_content faults SCreateContentShortsVideo campaign_id "video"
         None asset_id source).

(** "This function does not commit. The caller controls the transaction." *)
Definition leaves_committed {A : Type} (m : Tx A) : Prop :=
  forall conn, committed (m conn).2 = committed conn.

Record does_not_commit (svc : Service) : Prop := mkDoesNotCommit {
  dnc_insert_campaign : forall a b c d, leaves_committed (insert_campaign svc a b c d);
  dnc_update_campaign_core :
    forall a b c d e f, leaves_committed (update_campaign_core svc a b c d e f);
  dnc_attach_platform : forall a b c, leaves_committed (attach_platform svc a b c);
  dnc_create_content_tweet :
    forall a b c, leaves_committed (create_content_tweet svc a b c);
  dnc_create_content_shorts_caption :
    forall a b c, leaves_committed (create_content_shorts_caption svc a b c);
  dnc_create_content_shorts_video :
    forall a b c, leaves_committed (create_content_shorts_video svc a b c)
}.

(** *** The request and the text collaborator *)

(** [AutoCampaignRequest], after validation. *)
Record AutoCampaignRequest : Type := mkAutoCampaignRequest {
  offer_id : option Z;
  offer_title : option string;
  offer_description : option string;
  cta_link : option string;
  platforms : list string;
  generate_heygen_video : bool;
  persona : option string;
  pain_point : option string;
  override_script_text : option string;
  override_tweet_text : option string;
  override_video_caption : option string
}.

(** [AutoCampaignResponse]. *)
Record AutoCampaignResponse : Type := mkAutoCampaignResponse {
  r_campaign_id : Z;
  r_offer_id : Z;
  r_persona_id : Z;
  r_pain_point_id : Z;
  r_script_id : Z;
  r_content_ids : list Z
}.

(** [ai_service], an external collaborator: each call answers or raises. *)
Record AIService : Type := mkAIService {
  generate_pain_point_from_offer : string -> string -> outcome string string;
  generate_script_from_pain_point : string -> string -> outcome string string;
  generate_tweet_text : string -> option string -> outcome string string;
  generate_shorts_caption : string -> option string -> outcome string string
}.

(** [x or None] and [x or ""] for an optional string. *)
Definition or_none (x : option string) : option string :=
  match x with
  | Some s => if truthy s then Some s else None
  | None => None
  end.

Definition or_empty (x : option string) : string := default "" x.

(** [x or y] where [y] is a string. *)
Definition or_else (x : option string) (y : string) : string :=
  default y (or_none x).

(** [s[:n]]. *)
Definition prefix (n : nat) (s : string) : string := substring 0 n s.

Definition newline : string := String (ascii_of_nat 10) EmptyString.

(** The deterministic fallbacks of [create_auto_campaign]. *)
Definition fallback_script (offer_title offer_description : string)
    (cta_link_val : option string) : string :=
  let base := strip (if truthy offer_description then offer_description
                     else if truthy offer_title then offer_title
                     else "This offer") in
  strip (base +:+ newline +:+ newline +:+ "Learn more"
         +:+ match cta_link_val with
             | Some l => ": " +:+ l
             | None => "."
             end).

Definition fallback_tweet (script_text offer_title : string)
    (cta_link_val : option string) : string :=
  let base := strip script_text in
  let cta := or_empty cta_link_val in
  let first := strip (prefix 240 base +:+ (if truthy base then " " else "") +:+ cta) in
  let second :=
    strip (prefix 240 offer_title +:+ (if truthy offer_title then " " else "") +:+ cta) in
  prefix 280 (if truthy first then first else second).

Definition fallback_caption (script_text offer_title offer_description : string)
    (cta_link_val : option string) : string :=
  let base := strip (if truthy script_text then script_text
                     else if truthy offer_description then offer_description
                     else offer_title) in
  let caption := strip (prefix 160 base) in
  let caption := match cta_link_val with
                 | Some l => strip (caption +:+ newline +:+ l)
                 | None => caption
                 end in
  prefix 220 caption.

(** Modelled from the spec: the three INSERT ... RETURNING statements of
    [create_auto_campaign] are not in the sources; they insert the persona,
    the pain point and the script and return the new primary key. *)
Definition insert_persona (faults : Faults) (title : string) : Tx Z :=
  execute faults SInsertPersona (fun db =>
    let id := next_id (personas db) in
    (id, mkDatabase (offers db) (personas db ++ [mkPersonaRow id title])%list
           (pain_points db) (scripts db) (campaigns db)
           (campaign_platforms db) (contents db))).

Definition insert_pain_point (faults : Faults) (text : string) : Tx Z :=
  execute faults SInsertPainPoint (fun db =>
    let id := next_id (pain_points db) in
    (id, mkDatabase (offers db) (personas db)
           (pain_points db ++ [mkPainPointRow id text])%list
           (scripts db) (campaigns db) (campaign_platforms db) (contents db))).

Definition insert_script (faults : Faults) (text : string) : Tx Z :=
  execute faults SInsertScript (fun db =>
    let id := next_id (scripts db) in
    (id, mkDatabase (offers db) (personas db) (pain_points db)
           (scripts db ++ [mkScriptRow id text])%list
           (campaigns db) (campaign_platforms db) (contents db))).

(** [for plat in platforms_norm: svc.attach_platform(conn, campaign_id, plat, True)] *)
Fixpoint attach_platforms (svc : Service) (campaign_id : Z)
    (platforms_norm : list string) : Tx unit :=
  match platforms_norm with
  | [] => ret ()
  | plat :: rest =>
    (at_step (SAttachPlatform plat) (attach_platform svc campaign_id plat true) ;;;
     attach_platforms svc campaign_id rest)%tx
  end.

(** The resolved inputs of the transaction. *)
Record Resolved : Type := mkResolved {
  v_offer_id : Z;
  v_offer_title : string;
  v_offer_description : string;
  v_cta_link : option string;
  v_persona_title : string;
  v_pain_point_text : string;
  v_script_text : string
}.

(** The tweet content row of the "twitter" platform. *)
Definition twitter_content (svc : Service) (ai : AIService)
    (request : AutoCampaignRequest) (v : Resolved) (campaign_id : Z)
    : Tx (list Z) :=
  let tweet_text :=
    match or_none (override_tweet_text request) with
    | Some t => t
    | None =>
      match generate_tweet_text ai (v_script_text v) (v_cta_link v) with
      | Returns t => t
      | Raises _ => fallback_tweet (v_script_text v) (v_offer_title v) (v_cta_link v)
      end
    end in
  let source := match or_none (override_tweet_text request) with
                | Some _ => "manual"
                | None => "ai"
                end in
  if truthy tweet_text
  then (cid <- at_step SCreateContentTweet
                 (create_content_tweet svc campaign_id tweet_text source) ;;
        ret [cid])%tx
  else ret [].

(** The caption row and the optional video row of the "shorts" platform. *)
Definition shorts_content (svc : Service) (ai : AIService)
    (request : AutoCampaignRequest) (v : Resolved) (campaign_id : Z)
    : Tx (list Z) :=
  let caption_text :=
    match or_none (override_video_caption request) with
    | Some t => t
    | None =>
      match generate_shorts_caption ai (v_script_text v) (v_cta_link v) with
      | Returns t => t
      | Raises _ =>
        fallback_caption (v_script_text v) (v_offer_title v)
          (v_offer_description v) (v_cta_link v)
      end
    end in
  let source := match or_none (override_video_caption request) with
                | Some _ => "manual"
                | None => "ai"
                end in
  (caption_ids <-
     (if truthy caption_text
      then (cid <- at_step SCreateContentShortsCaption
                     (create_content_shorts_caption svc campaign_id caption_text source) ;;
            ret [cid])
      else ret []) ;;
   video_ids <-
     (if generate_heygen_video request
      then (cid <- at_step SCreateContentShortsVideo
                     (create_content_shorts_video svc campaign_id None "ai") ;;
            ret [cid])
      else ret []) ;;
   ret (caption_ids ++ video_ids)%list)%tx.

(** The body of the inner [try:] of [create_auto_campaign], from
    [cur = conn.cursor(...)] to the last content row. *)
Definition assemble (svc : Service) (ai : AIService) (faults : Faults)
    (request : AutoCampaignRequest) (v : Resolved) : Tx AutoCampaignResponse :=
  (execute faults SCursor (fun db => ((), db)) ;;;
   persona_id <- insert_persona faults (v_persona_title v) ;;
   pain_point_id <- insert_pain_point faults (v_pain_point_text v) ;;
   script_id <- insert_script faults (v_script_text v) ;;
   campaign_id <- at_step SInsertCampaign
     (insert_campaign svc ("Campaign for " +:+ v_offer_title v)
        ("Campaign generated from offer: " +:+ v_offer_title v)
        persona_id "draft") ;;
   at_step SUpdateCampaignCore
     (update_campaign_core svc campaign_id (Some (v_offer_id v)) (Some persona_id)
        (Some pain_point_id) (Some script_id) (v_cta_link v)) ;;;
   let platforms_norm := map lower (platforms request) in
   attach_platforms svc campaign_id platforms_norm ;;;
   tweet_ids <- (if mem "twitter" platforms_norm
                 then twitter_content svc ai request v campaign_id
                 else ret []) ;;
   shorts_ids <- (if mem "shorts" platforms_norm
                  then shorts_content svc ai request v campaign_id
                  else ret []) ;;
   ret (mkAutoCampaignResponse campaign_id (v_offer_id v) persona_id
          pain_point_id script_id (tweet_ids ++ shorts_ids)%list))%tx.

(** The whole inner [try:]: the assembly, then [conn.commit()] and
    [cur.close()]. *)
Definition transaction (svc : Service) (ai : AIService) (faults : Faults)
    (request : AutoCampaignRequest) (v : Resolved) : Tx AutoCampaignResponse :=
  (r <- assemble svc ai faults request v ;;
   do_commit faults ;;;
   execute faults SCursorClose (fun db => ((), db)) ;;;
   ret r)%tx.

(** The [try / except / finally] around the body: on an exception
    [conn.rollback()] is attempted and its own failure swallowed, the
    exception is re-raised, and in every case the connection is closed (a
    failure of [conn.close()] is swallowed as well), which discards whatever
    is still uncommitted.  What remains is what the other connections see. *)
Definition run_transaction {A : Type} (faults : Faults) (body : Tx A)
    (db : Database) : outcome Exn A * Database :=
  match body (connect db) with
  | (Returns a, conn) => (Returns a, committed conn)
  | (Raises e, conn) =>
    let conn' := match faults SRollback with
                 | Some _ => conn
                 | None => rollback conn
                 end in
    (Raises e, committed conn')
  end.

(** Modelled from the spec: the body of [create_offer] is not in the
    sources; it inserts the offer on a connection of its own, commits, and
    returns the new row. *)
Definition create_offer (title description link_url : string) (db : Database)
    : OfferRow * Database :=
  let row := mkOfferRow (next_id (offers db)) title (Some description)
               (Some link_url) in
  (row, mkDatabase (offers db ++ [row])%list (personas db) (pain_points db)
          (scripts db) (campaigns db) (campaign_platforms db) (contents db)).

(** [SELECT ... FROM offers WHERE offer_id = %s] and [fetchone()]. *)
Definition select_offer (id : Z) (db : Database) : option OfferRow :=
  find (fun o => o_offer_id o =? id) (offers db).

(** The CTA link when the request gives none:
    [(row.get("link_url") or "").strip() or None]. *)
Definition cta_from_offer (cta_link_val : option string) (row : OfferRow)
    : option string :=
  match cta_link_val with
  | Some l => Some l
  | None => or_none (Some (strip (or_empty (o_link_url row))))
  end.

(** The part of [create_auto_campaign] before the transaction: the offer, by
    id or freshly created, then the persona, pain point and script texts. *)
Definition resolve (ai : AIService) (request : AutoCampaignRequest)
    (db : Database) : outcome HTTPException Resolved * Database :=
  let cta_link_val := or_none (cta_link request) in
  let with_offer (row : OfferRow) (db' : Database) :=
    let title := o_title row in
    let description := or_empty (o_description row) in
    let cta := cta_from_offer cta_link_val row in
    let persona_title := or_else (persona request) "general" in
    let pain :=
      match or_none (pain_point request) with
      | Some t => Returns t
      | None => generate_pain_point_from_offer ai title description
      end in
    match pain with
    | Raises e => (Raises (mkHTTPException 500 e), db')
    | Returns pain_point_text =>
      let script_text :=
        match or_none (override_script_text request) with
        | Some t => t
        | None =>
          match generate_script_from_pain_point ai pain_point_text persona_title with
          | Returns t => t
          | Raises _ => fallback_script title description cta
          end
        end in
      (Returns (mkResolved (o_offer_id row) title description cta persona_title
                  pain_point_text script_text), db')
    end in
  let given_id := match offer_id request with
                  | Some id => if id =? 0 then None else Some id
                  | None => None
                  end in
  match given_id with
  | Some id =>
    match select_offer id db with
    | None => (Raises (mkHTTPException 404 "Offer not found"), db)
    | Some row => with_offer row db
    end
  | None =>
    match or_none (offer_title request), or_none (offer_description request) with
    | None, None =>
      (Raises (mkHTTPException 400
                 "Provide offer_id or offer_title/offer_description"), db)
    | t, d =>
      let (row, db') :=
        create_offer (default (prefix 200 (default "Offer" d)) t)
          (default "" d) (or_else (cta_link request) "https://redacted.example.com")
          db in
      with_offer row db'
    end
  end.

(** [create_auto_campaign(request)]. *)
Definition create_auto_campaign (svc : Service) (ai : AIService)
    (faults : Faults) (request : AutoCampaignRequest) (db : Database)
    : outcome HTTPException AutoCampaignResponse * Database :=
  match resolve ai request db with
  | (Raises e, db') => (Raises e, db')
  | (Returns v, db') =>
    match run_transaction faults (transaction svc ai faults request v) db' with
    | (Returns r, db'') => (Returns r, db'')
    | (Raises (_, msg), db'') => (Raises (mkHTTPException 500 msg), db'')
    end
  end.

(** The body of a POST to [/auto-campaigns/from-offer]: the [platforms]
    field as sent, if it was sent, and the other fields, which are taken to
    have the types the model asks for. *)
Record RequestBody : Type := mkRequestBody {
  raw_platforms : option PlatformsValue;
  fields : AutoCampaignRequest
}.

(** Construction of the [AutoCampaignRequest] from the body: the validator
    runs on a [platforms] value that was sent; otherwise the default list is
    taken. *)
Definition parse_request (body : RequestBody) : outcome string AutoCampaignRequest :=
  let with_platforms ps :=
    let f := fields body in
    mkAutoCampaignRequest (offer_id f) (offer_title f) (offer_description f)
      (cta_link f) ps (generate_heygen_video f) (persona f) (pain_point f)
      (override_script_text f) (override_tweet_text f) (override_video_caption f) in
  match raw_platforms body with
  | None => Returns (with_platforms ["twitter"; "shorts"])
  | Some value =>
    match _normalize_and_validate_platforms value with
    | Raises e => Raises e
    | Returns ps => Returns (with_platforms ps)
    end
  end.

(** The route: the framework builds the request model and answers 422 when
    that fails; only a valid request reaches [create_auto_campaign]. *)
Definition post_auto_campaign (svc : Service) (ai : AIService)
    (faults : Faults) (body : RequestBody) (db : Database)
    : outcome HTTPException AutoCampaignResponse * Database :=
  match parse_request body with
  | Raises e => (Raises (mkHTTPException 422 e), db)
  | Returns request => create_auto_campaign svc ai faults request db
  end.

(** *** Runs to test with *)

Definition no_faults : Faults := fun _ => None.

(** The last content row cannot be written. *)
Definition video_row_fails : Faults :=
  fun s => match s with
           | SCreateContentShortsVideo => Some "insert into content failed"
           | _ => None
           end.

(** The cursor cannot be closed after the commit. *)
Definition cursor_close_fails : Faults :=
  fun s => match s with
           | SCursorClose => Some "cursor already closed"
           | _ => None
           end.

Definition echo_ai : AIService :=
  mkAIService (fun _ _ => Returns "Struggling to get results")
              (fun _ _ => Returns "A script")
              (fun t _ => Returns t)
              (fun t _ => Returns t).

Definition one_offer : Database :=
  mkDatabase [mkOfferRow 7 "Offer" (Some "An offer") (Some "https://example.com")]
             [] [] [] [] [] [].

Definition twitter_shorts_video : AutoCampaignRequest :=
  mkAutoCampaignRequest (Some 7) None None None ["twitter"; "shorts"] true
    None None None None None.

Definition resolved_offer : Resolved :=
  mkResolved 7 "Offer" "An offer" (Some "https://example.com") "general"
    "Struggling to get results" "A script".

(** The example of the specification: twitter, shorts and a video give one
    tweet row, one caption row and one video row without an asset, all of
    the one new campaign. *)
Example three_content_rows :
  let r := create_auto_campaign (auto_campaign_service_with_db no_faults) echo_ai
             no_faults twitter_shorts_video one_offer in
  r.1 = Returns (mkAutoCampaignResponse 1 7 1 1 1 [1; 2; 3])
  /\ contents r.2
     = [mkContentRow 1 1 "tweet" (Some "A script") None "ai";
        mkContentRow 2 1 "shorts_caption" (Some "A script") None "ai";
        mkContentRow 3 1 "video" None None "ai"].
Proof. split; reflexivity. Qed.

(** An exception of [cur.close()] comes after the commit: the call fails and
    the rows stay. *)
Example close_after_commit :
  let r := create_auto_campaign (auto_campaign_service_with_db cursor_close_fails)
             echo_ai cursor_close_fails twitter_shorts_video one_offer in
  r.1 = Raises (mkHTTPException 500 "cursor already closed")
  /\ length (contents r.2) = 3%nat.
Proof. split; reflexivity. Qed.

(** *** Validation *)

Lemma filter_none {A : Type} (f : A -> bool) (l : list A) :
  (forall x, In x l -> f x = false) -> List.filter f l = [].
Proof.
  induction l as [|x l IH]; intros Hall; [done|].
  cbn. rewrite (Hall x) by (by left). apply IH. intros y Hy. apply Hall. by right.
Qed.

Lemma normalize_In (items : list string) (q : string) :
  In q (normalize items) -> exists p, In p items /\ q = strip (lower p).
Proof.
  unfold normalize. rewrite in_map_iff. intros (p & Hq & Hp).
  apply filter_In in Hp as [Hp _]. by exists p.
Qed.

(** What the validator returns for a list: the supported names among the
    normalized items, when there are any. *)
Lemma validate_list (items : list string) :
  _normalize_and_validate_platforms (AList items)
  = match List.filter (fun p => mem p supported) (normalize items) with
    | [] => _normalize_and_validate_platforms (AList items)
    | filtered => Returns filtered
    end.
Proof.
  destruct items as [|i items]; [done|].
  unfold _normalize_and_validate_platforms.
  destruct (normalize (i :: items)) as [|n ns]; [done|].
  by destruct (List.filter _ (n :: ns)).
Qed.

Lemma validate_list_raises (items : list string) :
  List.filter (fun p => mem p supported) (normalize items) = [] ->
  exists e, _normalize_and_validate_platforms (AList items) = Raises e.
Proof.
  intros Hnone. destruct items as [|i items]; [by eexists|].
  unfold _normalize_and_validate_platforms.
  destruct (normalize (i :: items)) as [|n ns]; [by eexists|].
  rewrite Hnone. by eexists.
Qed.

(** C9, counterexample. A list that contains an unsupported platform name
    next to a supported one passes validation; the unsupported name is
    dropped. *)
Lemma unsupported_name_is_dropped :
  In "facebook" ["twitter"; "facebook"]
  /\ mem "facebook" supported = false
  /\ _normalize_and_validate_platforms (AList ["twitter"; "facebook"])
     = Returns ["twitter"].
Proof. split; [right; by left|]. split; reflexivity. Qed.

(** A name of the list that is supported once lower-cased and trimmed is
    among the normalized names. *)
Lemma normalize_supported_In (items : list string) (p : string) :
  In p items -> mem (strip (lower p)) supported = true ->
  In (strip (lower p)) (List.filter (fun q => mem q supported) (normalize items)).
Proof.
  intros Hp Hmem. apply filter_In. split; [|done].
  unfold normalize. apply in_map_iff. exists p. split; [done|].
  apply filter_In. split; [done|].
  rewrite <- truthy_lower, <- strip_lower.
  apply mem_In in Hmem. by destruct Hmem as [<-|[<-|[]]].
Qed.

(** C9, amended. The platform list is validated against the capability
    registry before any database write: an empty list fails validation; a
    list none of whose names, lower-cased and trimmed, is a key of the
    registry fails validation; a list that passes is returned reduced to its
    supported names, which are at least one; a request whose platform list
    fails validation is answered with 422 and the database as it was.  A
    list with at least one supported name passes, whatever else it
    contains: the validator returns its supported names, lower-cased and
    trimmed, in their order, and the unsupported ones are dropped; the
    request then reaches [create_auto_campaign] with the reduced list. *)
Theorem platform_validation :
  _normalize_and_validate_platforms (AList [])
  = Raises "At least one platform must be provided"
  /\ (forall items,
        (forall p, In p items -> mem (strip (lower p)) supported = false) ->
        exists e, _normalize_and_validate_platforms (AList items) = Raises e)
  /\ (forall items ps,
        _normalize_and_validate_platforms (AList items) = Returns ps ->
        ps <> []
        /\ ps = List.filter (fun p => mem p supported) (normalize items)
        /\ (forall p, In p ps -> In p supported))
  /\ (forall svc ai faults body db value e,
        raw_platforms body = Some value ->
        _normalize_and_validate_platforms value = Raises e ->
        post_auto_campaign svc ai faults body db
        = (Raises (mkHTTPException 422 e), db))
  /\ (forall items p,
        In p items -> mem (strip (lower p)) supported = true ->
        let ps := List.filter (fun q => mem q supported) (normalize items) in
        _normalize_and_validate_platforms (AList items) = Returns ps
        /\ In (strip (lower p)) ps
        /\ (forall q, In q items -> mem (strip (lower q)) supported = false ->
                      ~ In (strip (lower q)) ps))
  /\ (forall svc ai faults body db items ps,
        raw_platforms body = Some (AList items) ->
        _normalize_and_validate_platforms (AList items) = Returns ps ->
        exists request,
          parse_request body = Returns request
          /\ platforms request = ps
          /\ post_auto_campaign svc ai faults body db
             = create_auto_campaign svc ai faults request db).
Proof.
  split; [reflexivity|]. split; [|split; [|split; [|split]]].
  - intros items Hall. apply validate_list_raises, filter_none.
    intros q Hq. apply normalize_In in Hq as (p & Hp & ->). by apply Hall.
  - intros items ps Hret. rewrite validate_list in Hret.
    destruct (List.filter (fun p => mem p supported) (normalize items))
      as [|f fs] eqn:Hf.
    + destruct (validate_list_raises items Hf) as [e He]. congruence.
    + injection Hret as <-. split; [done|]. split; [done|].
      intros p Hp. rewrite <- Hf in Hp. apply filter_In in Hp as [_ Hp].
      by apply mem_In.
  - intros svc ai faults body db value e Hraw Hval.
    unfold post_auto_campaign, parse_request. by rewrite Hraw, Hval.
  - intros items p Hp Hmem ps.
    pose proof (normalize_supported_In items p Hp Hmem) as Hin. fold ps in Hin.
    split; [|split; [done|]].
    + rewrite validate_list. fold ps. by destruct ps.
    + intros q _ Hq [_ Hsup]%filter_In. congruence.
  - intros svc ai faults body db items ps Hraw Hval.
    unfold post_auto_campaign, parse_request. rewrite Hraw, Hval.
    by eexists.
Qed.

Lemma platform_validation_witness :
  ((forall p, In p ["Facebook"; " tiktok "] ->
              mem (strip (lower p)) supported = false)
   /\ exists e, _normalize_and_validate_platforms (AList ["Facebook"; " tiktok "])
                = Raises e)
  /\ (In " Twitter " ["Facebook"; " Twitter "; "SHORTS"]
      /\ mem (strip (lower " Twitter ")) supported = true
      /\ _normalize_and_validate_platforms
           (AList ["Facebook"; " Twitter "; "SHORTS"])
         = Returns ["twitter"; "shorts"]).
Proof.
  assert (H : forall p, In p ["Facebook"; " tiktok "] ->
                        mem (strip (lower p)) supported = false).
  { intros p [<-|[<-|[]]]; reflexivity. }
  assert (Hin : In " Twitter " ["Facebook"; " Twitter "; "SHORTS"])
    by (right; by left).
  split.
  - split; [exact H|].
    exact (proj1 (proj2 platform_validation) ["Facebook"; " tiktok "] H).
  - split; [exact Hin|]. split; [reflexivity|].
    exact (proj1 (proj1 (proj2 (proj2 (proj2 (proj2 platform_validation))))
                    ["Facebook"; " Twitter "; "SHORTS"] " Twitter " Hin eq_refl)).
Defined.

(** *** The transaction *)

Lemma ret_leaves {A : Type} (a : A) : leaves_committed (ret a).
Proof. by intros conn. Qed.

Lemma bind_leaves {A B : Type} (m : Tx A) (k : A -> Tx B) :
  leaves_committed m -> (forall a, leaves_committed (k a)) ->
  leaves_committed (bind m k).
Proof.
  intros Hm Hk conn. unfold bind. specialize (Hm conn).
  destruct (m conn) as [[a|e] conn']; cbn in *; [|done].
  by rewrite Hk.
Qed.

Lemma execute_leaves {A : Type} (faults : Faults) (s : Step)
    (f : Database -> A * Database) :
  leaves_committed (execute faults s f).
Proof.
  intros conn. unfold execute. destruct (faults s); [done|].
  by destruct (f (working conn)).
Qed.

Lemma at_step_leaves {A : Type} (s : Step) (m : Tx A) :
  leaves_committed m -> leaves_committed (at_step s m).
Proof.
  intros Hm conn. unfold at_step. specialize (Hm conn).
  by destruct (m conn) as [[a|[s' msg]] conn'].
Qed.

Create HintDb leaves.
#[local] Hint Resolve ret_leaves execute_leaves at_step_leaves : leaves.
#[local] Hint Resolve dnc_insert_campaign dnc_update_campaign_core
  dnc_attach_platform dnc_create_content_tweet
  dnc_create_content_shorts_caption dnc_create_content_shorts_video : leaves.

Ltac leaves := repeat (apply bind_leaves; [|intros]); auto with leaves.

Lemma attach_platforms_leaves (svc : Service) (campaign_id : Z)
    (ps : list string) :
  does_not_commit svc -> leaves_committed (attach_platforms svc campaign_id ps).
Proof. intros Hsvc. induction ps as [|plat ps IH]; cbn; leaves. Qed.

Lemma twitter_content_leaves svc ai request v campaign_id :
  does_not_commit svc ->
  leaves_committed (twitter_content svc ai request v campaign_id).
Proof.
  intros Hsvc. unfold twitter_content.
  match goal with |- context [if ?b then _ else _] => destruct b end; leaves.
Qed.

Lemma shorts_content_leaves svc ai request v campaign_id :
  does_not_commit svc ->
  leaves_committed (shorts_content svc ai request v campaign_id).
Proof.
  intros Hsvc. unfold shorts_content.
  apply bind_leaves; [|intros; apply bind_leaves; [|intros]].
  - match goal with |- context [if ?b then _ else _] => destruct b end; leaves.
  - destruct (generate_heygen_video request); leaves.
  - leaves.
Qed.

(** Nothing [assemble] does is visible to another connection. *)
Lemma assemble_leaves svc ai faults request v :
  does_not_commit svc -> leaves_committed (assemble svc ai faults request v).
Proof.
  intros Hsvc. unfold assemble, insert_persona, insert_pain_point, insert_script.
  repeat (apply bind_leaves; [|intros]); auto with leaves.
  - by apply attach_platforms_leaves.
  - destruct (mem "twitter" _); [by apply twitter_content_leaves|leaves].
  - destruct (mem "shorts" _); [by apply shorts_content_leaves|leaves].
Qed.

(** Both helper modules keep to the contract. *)
Lemma mock_does_not_commit : does_not_commit auto_campaign_service.
Proof. split; intros; apply ret_leaves. Qed.

Lemma with_db_does_not_commit (faults : Faults) :
  does_not_commit (auto_campaign_service_with_db faults).
Proof. split; intros; apply execute_leaves. Qed.

(** An exception of the inner [try:] that does not come from [cur.close()]
    was raised with nothing committed. *)
Lemma transaction_raises svc ai faults request v conn s msg conn' :
  does_not_commit svc ->
  transaction svc ai faults request v conn = (Raises (s, msg), conn') ->
  s <> SCursorClose ->
  committed conn' = committed conn.
Proof.
  intros Hsvc Hrun Hs. unfold transaction, bind in Hrun.
  pose proof (assemble_leaves svc ai faults request v Hsvc conn) as Hasm.
  destruct (assemble svc ai faults request v conn) as [[r|e] conn1]; cbn in Hasm.
  - unfold do_commit, execute, ret in Hrun.
    destruct (faults SCommit); [by injection Hrun as _ _ <-|].
    destruct (faults SCursorClose); [|done].
    injection Hrun as <- _ _. done.
  - by injection Hrun as _ <-.
Qed.

(** C4. Campaign assembly is all-or-nothing.  When a step of the
    transaction raises (the cursor, the persona, pain-point or script insert,
    the campaign creation or its update, a platform attachment, a content-row
    creation, or the commit itself), the handler re-raises that exception
    and the database the other connections see is the one from before the
    transaction, with or without a working rollback; the endpoint then
    answers 500 and none of the persona, pain-point, script, campaign,
    platform or content rows of the attempt exist.  This holds for every
    helper module that does not commit on the caller's connection. *)
Theorem campaign_assembly_all_or_nothing
    (svc : Service) (ai : AIService) (faults : Faults)
    (request : AutoCampaignRequest) (v : Resolved) (db0 db : Database)
    (s : Step) (msg : string) (conn : Connection) :
  does_not_commit svc ->
  resolve ai request db0 = (Returns v, db) ->
  transaction svc ai faults request v (connect db) = (Raises (s, msg), conn) ->
  s <> SCursorClose ->
  run_transaction faults (transaction svc ai faults request v) db
  = (Raises (s, msg), db)
  /\ create_auto_campaign svc ai faults request db0
     = (Raises (mkHTTPException 500 msg), db)
  /\ assembly_rows db = assembly_rows db0.
Proof.
  intros Hsvc Hres Hrun Hs.
  pose proof (transaction_raises _ _ _ _ _ _ _ _ _ Hsvc Hrun Hs) as Hsame.
  assert (Hrt : run_transaction faults (transaction svc ai faults request v) db
                = (Raises (s, msg), db)).
  { unfold run_transaction. rewrite Hrun.
    destruct (faults SRollback); cbn; by rewrite ?Hsame. }
  split; [exact Hrt|]. split.
  - unfold create_auto_campaign. by rewrite Hres, Hrt.
  - unfold resolve in Hres.
    repeat match type of Hres with
           | context [match ?x with _ => _ end] =>
             destruct x eqn:?; try discriminate
           | context [let (_, _) := ?x in _] => destruct x eqn:?
           end;
    try (injection Hres as _ <-; try done);
    unfold create_offer in *; simplify_eq; done.
Qed.

Lemma campaign_assembly_all_or_nothing_witness :
  transaction (auto_campaign_service_with_db video_row_fails) echo_ai
    video_row_fails twitter_shorts_video resolved_offer (connect one_offer)
  = (Raises (SCreateContentShortsVideo, "insert into content failed"),
     (transaction (auto_campaign_service_with_db video_row_fails) echo_ai
        video_row_fails twitter_shorts_video resolved_offer
        (connect one_offer)).2)
  /\ length (personas (working
        (transaction (auto_campaign_service_with_db video_row_fails) echo_ai
           video_row_fails twitter_shorts_video resolved_offer
           (connect one_offer)).2)) = 1%nat
  /\ create_auto_campaign (auto_campaign_service_with_db video_row_fails)
       echo_ai video_row_fails twitter_shorts_video one_offer
     = (Raises (mkHTTPException 500 "insert into content failed"), one_offer).
Proof.
  split; [reflexivity|]. split; [reflexivity|].
  refine (proj1 (proj2 (campaign_assembly_all_or_nothing
            (auto_campaign_service_with_db video_row_fails) echo_ai
            video_row_fails twitter_shorts_video resolved_offer
            one_offer one_offer SCreateContentShortsVideo
            "insert into content failed" _
            (with_db_does_not_commit video_row_fails) eq_refl eq_refl _))).
  discriminate.
Defined.

End Campaign.

(** ** The retry engine and the connectivity probes
    ([social_media_service.py], [twitter_integration.py],
    [reddit_integration.py], [twitter_oauth1_integration.py]) *)
Module Retry.

(** A [requests.Response], as far as the engine reads it: the status code,
    what [_parse_retry_after_seconds] makes of the [Retry-After] header, and
    the body text. *)
Record Response : Type := mkResponse {
  rsp_status_code : Z;
  rsp_retry_after : option Z;
  rsp_text : string
}.

(** What [self._session.request(...)] does on one attempt. *)
Inductive Sent : Type :=
| Answered (response : Response)
| NetworkError (exc : string)     (* requests.Timeout, requests.ConnectionError *)
| OtherError (exc : string).      (* any other exception: not caught *)

(** Why an [APIRequestError] was raised. *)
Inductive ApiFailure : Type :=
| UnexpectedStatus (status : Z) (text : string)
| NetworkErrorAfter (attempt : Z) (exc : string)
| RequestFailed (last_exc : string)
| UnknownReasons.

(** The exceptions that leave the engine. *)
Inductive Error : Type :=
| RuntimeError (msg : string)
| RateLimitError (attempt : Z) (retry_after_seconds : option Z)
| AuthenticationError (msg : string)
| AuthorizationError (status : Z) (text : string)
| APIRequestError (why : ApiFailure)
| OtherException (exc : string).

(** [time.sleep(retry_after or backoff_seconds * attempt)]: the seconds of
    the [Retry-After] header, or the backoff after the attempt of that
    number. *)
Inductive Sleep : Type :=
| RetryAfter (seconds : Z)
| Backoff (attempt : Z).

(** The seconds asked for.  [backoff_seconds] has its default, 1.0, which no
    caller in the repository changes. *)
Definition seconds_of (s : Sleep) : Z :=
  match s with
  | RetryAfter seconds => seconds
  | Backoff attempt => attempt
  end.

(** [time.sleep(seconds)] does not always return: it raises [ValueError]
    for a negative number and [OverflowError] for one that does not fit its
    clock of 64-bit nanoseconds, that is from 9223372037 seconds on.  The
    engine catches neither. *)
Definition sleep_error (s : Sleep) : option string :=
  if seconds_of s <? 0 then Some "sleep length must be non-negative"
  else if 9223372036 <? seconds_of s
  then Some "timestamp too large to convert to C _PyTime_t"
  else None.

(** What a run did to the outside: requests sent, calls of
    [self.authenticate()], sleeps (most recent first). *)
Record Effects : Type := mkEffects {
  requests_sent : nat;
  authenticate_calls : nat;
  slept : list Sleep
}.

Definition nothing : Effects := mkEffects 0 0 [].

(** What [self.authenticate()] does when it is called: it returns, or
    raises with [str(exc)]; and what it did to the outside itself on the
    way.  The method is the subclass's and may send requests of its own:
    [TwitterPlatform.authenticate] comes back to [request_with_retry]
    through [refresh_access_token], where a 401 calls [authenticate()]
    again. *)
Record Authenticate : Type := mkAuthenticate {
  auth_outcome : outcome string unit;
  auth_effects : Effects
}.

(** An [authenticate()] that does nothing to the outside is written as its
    outcome. *)
Definition quiet (o : outcome string unit) : Authenticate :=
  mkAuthenticate o nothing.
#[warning="-uniform-inheritance"]
Coercion quiet : outcome >-> Authenticate.

Definition sent (fx : Effects) : Effects :=
  mkEffects (S (requests_sent fx)) (authenticate_calls fx) (slept fx).
(** One call of [self.authenticate()] that did [a] itself, after [fx]. *)
Definition authenticated (a : Effects) (fx : Effects) : Effects :=
  mkEffects (requests_sent a + requests_sent fx)
            (S (authenticate_calls a + authenticate_calls fx))
            (slept a ++ slept fx).
Definition sleep (s : Sleep) (fx : Effects) : Effects :=
  mkEffects (requests_sent fx) (authenticate_calls fx) (s :: slept fx).

(** [status in statuses]. *)
Definition status_in (status : Z) (statuses : list Z) : bool :=
  existsb (Z.eqb status) statuses.

Section Engine.

(** [demo_flags.DEMO_MODE]. *)
Variable DEMO_MODE : bool.
(** The answer to the attempt with the given number, counted from 1. *)
Variable http : Z -> Sent.
(** What [self.authenticate()] does. *)
Variable authenticate : Authenticate.

Variable expected_statuses : list Z.
Variable max_retries : Z.

(** The body of [for attempt in range(1, max_retries + 1)] and, when the
    range is exhausted, the two [raise] statements after the loop.  Every
    [time.sleep] is followed by [continue], unless it raises. *)
Fixpoint attempts (remaining : nat) (attempt : Z) (last_exc : option string)
    (fx : Effects) : outcome Error Response * Effects :=
  match remaining with
  | O =>
    match last_exc with
    | Some exc => (Raises (APIRequestError (RequestFailed exc)), fx)
    | None => (Raises (APIRequestError UnknownReasons), fx)
    end
  | S remaining' =>
    let fx := sent fx in
    match http attempt with
    | OtherError exc => (Raises (OtherException exc), fx)
    | NetworkError exc =>
      if attempt =? max_retries
      then (Raises (APIRequestError (NetworkErrorAfter attempt exc)), fx)
      else
        match sleep_error (Backoff attempt) with
        | Some e => (Raises (OtherException e), fx)
        | None =>
          attempts remaining' (attempt + 1) (Some exc) (sleep (Backoff attempt) fx)
        end
    | Answered response =>
      let status := rsp_status_code response in
      if status =? 429 then
        if attempt =? max_retries
        then (Raises (RateLimitError attempt (rsp_retry_after response)), fx)
        else
          let pause :=
            match rsp_retry_after response with
            | Some seconds =>
              if seconds =? 0 then Backoff attempt else RetryAfter seconds
            | None => Backoff attempt
            end in
          match sleep_error pause with
          | Some e => (Raises (OtherException e), fx)
          | None => attempts remaining' (attempt + 1) last_exc (sleep pause fx)
          end
      else if (status =? 401) || (status =? 403) then
        if attempt =? 1 then
          let fx := authenticated (auth_effects authenticate) fx in
          match auth_outcome authenticate with
          | Raises exc => (Raises (AuthenticationError exc), fx)
          | Returns _ => attempts remaining' (attempt + 1) last_exc fx
          end
        else (Raises (AuthorizationError status (rsp_text response)), fx)
      else if status_in status expected_statuses then (Returns response, fx)
      else if (500 <=? status) && (status <? 600) && (attempt <? max_retries)
      then
        match sleep_error (Backoff attempt) with
        | Some e => (Raises (OtherException e), fx)
        | None =>
          attempts remaining' (attempt + 1) last_exc (sleep (Backoff attempt) fx)
        end
      else (Raises (APIRequestError
                      (UnexpectedStatus status (substring 0 300 (rsp_text response)))),
            fx)
    end
  end.

(** [SocialMediaPlatform.request_with_retry]. *)
Definition request_with_retry : outcome Error Response * Effects :=
  if DEMO_MODE
  then (Raises (RuntimeError "Network requests disabled in demo mode."), nothing)
  else attempts (Z.to_nat max_retries) 1 None nothing.

End Engine.

(** [expected_statuses=None], [max_retries=3]. *)
Definition default_expected_statuses : list Z := [200; 201; 202].
Definition default_max_retries : Z := 3.

(** *** [test_connection] of the three platforms *)

(** [TwitterPlatform.test_connection]; [access_token] is the secret of
    [self.config.access_token], if there is one. *)
Definition twitter_test_connection (DEMO_MODE : bool)
    (access_token : option string) (http : Z -> Sent)
    (authenticate : Authenticate) : outcome Error bool * Effects :=
  if DEMO_MODE then (Returns false, nothing)
  else
    match access_token with
    | None | Some EmptyString => (Returns false, nothing)
    | Some _ =>
      match request_with_retry DEMO_MODE http authenticate [200]
              default_max_retries with
      | (Returns resp, fx) => (Returns (rsp_status_code resp =? 200), fx)
      | (Raises e, fx) => (Raises e, fx)
      end
    end.

(** [RedditPlatform.test_connection]: [client] tells whether
    [self._reddit_client] is set, [authenticate] and [user_me] what
    [self.authenticate()] and [self._reddit_client.user.me()] do; the whole
    body is inside [try: ... except Exception: return False]. *)
Definition reddit_test_connection (DEMO_MODE : bool) (client : bool)
    (authenticate : outcome Error unit) (user_me : outcome Error (option string))
    : outcome Error bool :=
  if DEMO_MODE then Returns false
  else
    match (if client then Returns () else authenticate) with
    | Raises _ => Returns false
    | Returns _ =>
      match user_me with
      | Raises _ => Returns false
      | Returns user => Returns (bool_decide (user <> None))
      end
    end.

(** [TwitterOAuth1Platform.test_connection]. *)
Definition twitter_oauth1_test_connection (DEMO_MODE : bool) : outcome Error bool :=
  if DEMO_MODE then Returns false else Returns false.

(** *** Runs to test with *)

Definition unauthorized : Response := mkResponse 401 None "Unauthorized".
Definition server_error : Response := mkResponse 500 None "Internal Server Error".
Definition ok : Response := mkResponse 200 None "{}".

(** The provider answers 401 to every attempt. *)
Definition always_401 : Z -> Sent := fun _ => Answered unauthorized.
(** The provider answers 500 to every attempt. *)
Definition always_500 : Z -> Sent := fun _ => Answered server_error.
(** 401 to the first attempt, 200 afterwards. *)
Definition expired_then_ok : Z -> Sent :=
  fun attempt => if attempt =? 1 then Answered unauthorized else Answered ok.

Example refresh_then_success :
  request_with_retry false expired_then_ok (Returns ()) default_expected_statuses 3
  = (Returns ok, mkEffects 2 1 []).
Proof. reflexivity. Qed.

Example refresh_then_unauthorized :
  request_with_retry false always_401 (Returns ()) default_expected_statuses 3
  = (Raises (AuthorizationError 401 "Unauthorized"), mkEffects 2 1 []).
Proof. reflexivity. Qed.

Example refresh_raises :
  request_with_retry false always_401 (Raises "No refresh_token available")
    default_expected_statuses 3
  = (Raises (AuthenticationError "No refresh_token available"), mkEffects 1 1 []).
Proof. reflexivity. Qed.

Example server_errors_exhaust :
  request_with_retry false always_500 (Returns ()) default_expected_statuses 3
  = (Raises (APIRequestError (UnexpectedStatus 500 "Internal Server Error")),
     mkEffects 3 0 [Backoff 2; Backoff 1]).
Proof. reflexivity. Qed.

(** *** Properties of the engine *)

Section EngineFacts.

Variable http : Z -> Sent.
Variable authenticate : Authenticate.
Variable expected_statuses : list Z.
Variable max_retries : Z.

Local Abbreviation run :=
  (attempts http authenticate expected_statuses max_retries).

(** Case analysis on what one pass through the loop body looks at. *)
Ltac loop_body :=
  repeat match goal with
         | |- context [match ?x with _ => _ end] =>
           lazymatch x with
           | attempts _ _ _ _ _ _ _ _ => fail
           | _ => destruct x eqn:?
           end
         end.

(** The loop never loses a request it has sent. *)
Lemma requests_sent_mono (remaining : nat) :
  forall attempt last_exc fx,
    (requests_sent fx <= requests_sent (run remaining attempt last_exc fx).2)%nat.
Proof.
  induction remaining as [|n IH]; intros attempt last_exc fx; cbn.
  - by destruct last_exc.
  - loop_body; cbn;
      try (etrans; [|apply IH]; cbn); lia.
Qed.

(** Only the attempt numbered 1 calls [authenticate()]. *)
Lemma later_attempts_do_not_authenticate (remaining : nat) :
  forall attempt last_exc fx,
    2 <= attempt ->
    authenticate_calls (run remaining attempt last_exc fx).2
    = authenticate_calls fx.
Proof.
  induction remaining as [|n IH]; intros attempt last_exc fx Hlate; cbn.
  - by destruct last_exc.
  - assert (Hnot1 : (attempt =? 1) = false) by lia.
    rewrite Hnot1.
    loop_body; cbn; try reflexivity; rewrite IH by lia; reflexivity.
Qed.

(** A 401 or 403 answer to a later attempt ends the call at once. *)
Lemma later_unauthorized (remaining : nat) attempt last_exc fx response :
  2 <= attempt ->
  http attempt = Answered response ->
  rsp_status_code response = 401 \/ rsp_status_code response = 403 ->
  run (S remaining) attempt last_exc fx
  = (Raises (AuthorizationError (rsp_status_code response) (rsp_text response)),
     sent fx).
Proof.
  intros Hlate Hresp Hstatus. cbn. rewrite Hresp.
  assert (Hnot1 : (attempt =? 1) = false) by lia.
  rewrite Hnot1. by destruct Hstatus as [-> | ->].
Qed.

(** A 401 or 403 answer to the first attempt: one call of [authenticate()],
    and then the rest of the loop, if the range has a rest. *)
Lemma first_unauthorized (remaining : nat) response :
  http 1 = Answered response ->
  rsp_status_code response = 401 \/ rsp_status_code response = 403 ->
  run (S remaining) 1 None nothing
  = match auth_outcome authenticate with
    | Raises exc =>
      (Raises (AuthenticationError exc),
       authenticated (auth_effects authenticate) (mkEffects 1 0 []))
    | Returns _ =>
      run remaining 2 None
        (authenticated (auth_effects authenticate) (mkEffects 1 0 []))
    end.
Proof.
  intros Hresp Hstatus. cbn. rewrite Hresp.
  by destruct Hstatus as [-> | ->]; destruct (auth_outcome authenticate).
Qed.

(** No run calls [authenticate()] more than once itself: what is counted
    beyond that are the calls that [authenticate()] made. *)
Lemma authenticate_at_most_once (remaining : nat) :
  let calls := authenticate_calls (run remaining 1 None nothing).2 in
  calls = 0%nat \/ calls = S (authenticate_calls (auth_effects authenticate)).
Proof.
  destruct remaining as [|n]; cbn; [by left|].
  loop_body; cbn; rewrite ?later_attempts_do_not_authenticate by lia; cbn;
    rewrite ?Nat.add_0_r; auto.
Qed.

(** With room for a second attempt the refresh protocol is as documented:
    a 401/403 answer to attempt 1 makes the engine call [authenticate()]
    once; if that raises, the call fails with [AuthenticationError] after one
    request of its own; if it returns, attempt 2 is sent and no later
    attempt calls [authenticate()] again; and a 401/403 answer to attempt 2
    fails the call with [AuthorizationError] after exactly two requests of
    its own. *)
Lemma refresh_once_then_fail_hard (response : Response) :
  2 <= max_retries ->
  http 1 = Answered response ->
  rsp_status_code response = 401 \/ rsp_status_code response = 403 ->
  let r := request_with_retry false http authenticate expected_statuses
             max_retries in
  let after := authenticated (auth_effects authenticate) (mkEffects 1 0 []) in
  authenticate_calls r.2 = S (authenticate_calls (auth_effects authenticate))
  /\ (forall exc, auth_outcome authenticate = Raises exc ->
        r = (Raises (AuthenticationError exc), after))
  /\ (forall u, auth_outcome authenticate = Returns u ->
        (requests_sent after < requests_sent r.2)%nat
        /\ forall response2,
             http 2 = Answered response2 ->
             rsp_status_code response2 = 401 \/ rsp_status_code response2 = 403 ->
             r = (Raises (AuthorizationError (rsp_status_code response2)
                            (rsp_text response2)),
                  sent after)).
Proof.
  intros Hmax Hresp Hstatus r after. subst r after. unfold request_with_retry.
  destruct (Z.to_nat max_retries) as [|[|n]] eqn:Hn; [lia|lia|].
  rewrite (first_unauthorized _ _ Hresp Hstatus).
  split; [|split].
  - destruct (auth_outcome authenticate).
    + rewrite later_attempts_do_not_authenticate by lia. cbn. lia.
    + cbn. lia.
  - by intros exc ->.
  - intros u ->. split.
    + cbn [attempts]. cbv zeta.
      assert (Hnot1 : (2 =? 1) = false) by lia. rewrite Hnot1.
      loop_body; cbn [snd]; try (cbn; lia).
      all: eapply Nat.lt_le_trans; [|apply requests_sent_mono]; cbn; lia.
    + intros response2 Hresp2 Hstatus2.
      by rewrite (later_unauthorized n 2 None _ response2 ltac:(lia) Hresp2 Hstatus2).
Qed.

End EngineFacts.

(** C3, failing input. With [max_retries=1] a 401 answer to the first
    attempt makes the engine call [authenticate()] once, and then the range
    is exhausted: no further attempt is sent, and the call ends in the
    [APIRequestError("Request failed for unknown reasons")] that follows the
    loop under the comment "Should not reach here". *)
Theorem refresh_without_retry :
  request_with_retry false always_401 (Returns ()) default_expected_statuses 1
  = (Raises (APIRequestError UnknownReasons), mkEffects 1 1 []).
Proof. reflexivity. Qed.

(** [RedditPlatform.test_connection] and
    [TwitterOAuth1Platform.test_connection] return a boolean whatever
    happens. *)
Lemma reddit_test_connection_returns DEMO_MODE client authenticate user_me :
  exists b, reddit_test_connection DEMO_MODE client authenticate user_me
            = Returns b.
Proof.
  unfold reddit_test_connection.
  destruct DEMO_MODE; [by eexists|].
  destruct client, authenticate, user_me; by eexists.
Qed.

Lemma twitter_oauth1_test_connection_returns DEMO_MODE :
  twitter_oauth1_test_connection DEMO_MODE = Returns false.
Proof. by destruct DEMO_MODE. Qed.

(** [TwitterPlatform.test_connection] raises whatever the engine raises. *)
Lemma twitter_test_connection_raises access_token http authenticate e fx :
  PyStr.truthy access_token = true ->
  request_with_retry false http authenticate [200] default_max_retries
  = (Raises e, fx) ->
  twitter_test_connection false (Some access_token) http authenticate
  = (Raises e, fx).
Proof.
  intros Htok Hrun. unfold twitter_test_connection.
  destruct access_token; [done|]. by rewrite Hrun.
Qed.

(** C8, failing input. With an access token configured and a provider that
    answers 500 to all three attempts, [TwitterPlatform.test_connection]
    raises [APIRequestError] instead of returning a boolean. *)
Theorem twitter_test_connection_can_raise :
  twitter_test_connection false (Some "token") always_500 (Returns ())
  = (Raises (APIRequestError (UnexpectedStatus 500 "Internal Server Error")),
     mkEffects 3 0 [Backoff 2; Backoff 1]).
Proof. reflexivity. Qed.

End Retry.

(** ** HeyGen webhook reconciliation ([main.py], [storage_service.py]) *)
Module Webhook.

Import PyStr.

(** A parsed JSON document; numbers are integers. *)
#[local] Unset Elimination Schemes.
Inductive json : Type :=
| JNull
| JBool (b : bool)
| JNum (n : Z)
| JStr (s : string)
| JArr (items : list json)
| JObj (members : list (string * json)).
#[local] Set Elimination Schemes.

(** [bool(v)]. *)
Definition json_truthy (v : json) : bool :=
  match v with
  | JNull => false
  | JBool b => b
  | JNum n => negb (n =? 0)
  | JStr s => truthy s
  | JArr items => match items with [] => false | _ => true end
  | JObj members => match members with [] => false | _ => true end
  end.

(** The member of that name, if the object has one ([key in d], [d[key]]). *)
Fixpoint lookup (key : string) (members : list (string * json)) : option json :=
  match members with
  | [] => None
  | (k, v) :: rest => if String.eqb k key then Some v else lookup key rest
  end.

(** [d.get(key)], with JSON [null] and an absent key both read as [None]. *)
Definition get (key : string) (members : list (string * json)) : json :=
  default JNull (lookup key members).

(** [a or b]. *)
Definition py_or (a b : json) : json := if json_truthy a then a else b.

(** [needle in haystack] for strings. *)
Fixpoint is_infix (needle haystack : string) : bool :=
  String.prefix needle haystack
  || match haystack with
     | EmptyString => false
     | String _ rest => is_infix needle rest
     end.

(** The table of [handle_heygen_webhook]. *)
Definition status_map : gmap string string :=
  list_to_map
    [("completed", "completed"); ("success", "completed");
     ("succeeded", "completed"); ("finished", "completed");
     ("failed", "failed"); ("error", "failed");
     ("processing", "processing"); ("pending", "processing")].

(** The status derived from the event type when the payload has none. *)
Definition status_of_event_type (et : string) : string :=
  if is_infix "complete" et || is_infix "succeed" et || is_infix "finish" et
  then "completed"
  else if is_infix "fail" et || is_infix "error" et then "failed"
  else if is_infix "process" et || is_infix "pending" et then "processing"
  else "".

(** [status_map.get(status, status or "processing")]. *)
Definition normalize_status (status : string) : string :=
  match status_map !! status with
  | Some mapped => mapped
  | None => if truthy status then status else "processing"
  end.

Example normalize_finished : normalize_status "finished" = "completed".
Proof. vm_compute. reflexivity. Qed.
Example normalize_empty : normalize_status "" = "processing".
Proof. vm_compute. reflexivity. Qed.
Example normalize_unknown : normalize_status "waiting" = "waiting".
Proof. vm_compute. reflexivity. Qed.
Example event_type_succeeded :
  status_of_event_type "avatar_video.success" = "".
Proof. reflexivity. Qed.
Example event_type_failed :
  status_of_event_type "avatar_video.fail" = "failed".
Proof. reflexivity. Qed.

(** *** Tables and storage *)

(** Modelled from the spec: the SQL of the handler is not in the sources.
    A video job row is found by its provider job id and carries the local
    status, the asset it links to, and the error and source URL kept for
    diagnostics; an asset row carries its storage location. *)
Record VideoJob : Type := mkVideoJob {
  j_status : string;
  j_asset_id : option Z;
  j_error : option string;
  j_video_url : option json
}.

Record Asset : Type := mkAsset {
  a_asset_id : Z;
  a_type : string;
  a_url : string
}.

(** What the handler can change: the two tables, and the URLs handed to
    [download_to_s3] so far (most recent first). *)
Record World : Type := mkWorld {
  heygen_videos : gmap string VideoJob;
  assets : list Asset;
  downloads : list json
}.

(** The storage side: the module constants, the fresh part of every key
    (date and uuid), the fate of every transfer, by the number of downloads
    made before it, and the message with which [requests.get] refuses a
    URL that is not a string. *)
Record Storage : Type := mkStorage {
  DEMO_MODE : bool;
  _BUCKET : string;
  _PREFIX : string;
  fresh : nat -> string;
  transfer : nat -> string -> outcome string unit;
  url_error : json -> string
}.

(** The dictionary [download_to_s3] returns. *)
Record S3Result : Type := mkS3Result {
  bucket : string;
  key : string;
  s3_url : string
}.

(** [StorageService._generate_key(subdir, ext)]. *)
Definition _generate_key (st : Storage) (n : nat) (subdir ext : string) : string :=
  _PREFIX st +:+ "/" +:+ subdir +:+ "/" +:+ fresh st n +:+ "." +:+ ext.

(** [StorageService.download_to_s3(url, kind, ext)], as the [n]-th download.
    Outside demo mode [requests.get] raises on a URL that is not a string,
    and the transfer may raise. *)
Definition download_to_s3 (st : Storage) (n : nat) (url : json)
    (kind ext : string) : outcome string S3Result :=
  let key := _generate_key st n kind ext in
  if DEMO_MODE st
  then Returns (mkS3Result "REDACTED_BUCKET" key ("s3://REDACTED_BUCKET/" +:+ key))
  else
    match url with
    | JStr u =>
      match transfer st n u with
      | Raises e => Raises e
      | Returns _ =>
        Returns (mkS3Result (_BUCKET st) key ("s3://" +:+ _BUCKET st +:+ "/" +:+ key))
      end
    | _ => Raises (url_error st url)
    end.

(** [UPDATE ... WHERE provider_video_id = %s]: a provider job id that is
    not a string matches no row. *)
Definition update_job (video_id : json) (f : VideoJob -> VideoJob)
    (videos : gmap string VideoJob) : gmap string VideoJob :=
  match video_id with
  | JStr id => alter f id videos
  | _ => videos
  end.

(** [type(v).__name__]. *)
Definition type_name (v : json) : string :=
  match v with
  | JNull => "NoneType"
  | JBool _ => "bool"
  | JNum _ => "int"
  | JStr _ => "str"
  | JArr _ => "list"
  | JObj _ => "dict"
  end.

(** The [AttributeError] of [v.attr] on a value without that attribute, as
    the outer handler re-raises it: [HTTPException(500, detail=str(e))]. *)
Definition attribute_error (v : json) (attr : string) : HTTPException :=
  mkHTTPException 500
    ("'" +:+ type_name v +:+ "' object has no attribute '" +:+ attr +:+ "'").

(** What the handler answers with status 200. *)
Inductive Reply : Type :=
| Processed (video_id : json) (status : string)
| NoVideoId.

Section Handler.

(** [str(v)] of a value that is not a string. *)
Variable py_repr : json -> string.

Definition py_str (v : json) : string :=
  match v with
  | JStr s => s
  | _ => py_repr v
  end.

Variable st : Storage.

(** The status the handler works with: the one of the payload, lower-cased,
    or, when that is empty and there is an event type, the one its keywords
    give; then the table. *)
Definition db_status_of (event_type : json) (status : string) : string :=
  let status :=
    if negb (truthy status) && json_truthy event_type
    then status_of_event_type (lower (py_str event_type))
    else status in
  normalize_status status.

(** [payload.get("video_url") or payload.get("url")
     or payload.get("result", {}).get("url")]. *)
Definition output_url (members : list (string * json)) : outcome HTTPException json :=
  let direct := py_or (get "video_url" members) (get "url" members) in
  if json_truthy direct then Returns direct
  else
    match lookup "result" members with
    | None => Returns JNull
    | Some (JObj result) => Returns (get "url" result)
    | Some v => Raises (attribute_error v "get")
    end.

(** Modelled from the spec: the statements of the "completed" branch. The
    asset row takes the location of the stored object, the job row is set to
    "completed" and linked to the asset; when storing fails the job row is
    set to "failed" with the error and the source URL. *)
Definition store_completed (video_id video_url : json) (w : World) : World :=
  let n := length (downloads w) in
  match download_to_s3 st n video_url "videos" "mp4" with
  | Returns s3_result =>
    let location :=
      if truthy (s3_url s3_result) then s3_url s3_result
      else "s3://" +:+ bucket s3_result +:+ "/" +:+ key s3_result in
    let asset_id := Z.of_nat (S (length (assets w))) in
    mkWorld
      (update_job video_id
         (fun j => mkVideoJob "completed" (Some asset_id) (j_error j) (j_video_url j))
         (heygen_videos w))
      (assets w ++ [mkAsset asset_id "video" location])%list
      (video_url :: downloads w)
  | Raises e =>
    mkWorld
      (update_job video_id
         (fun j => mkVideoJob "failed" (j_asset_id j) (Some e) (Some video_url))
         (heygen_videos w))
      (assets w)
      (video_url :: downloads w)
  end.

(** Modelled from the spec: the two plain status updates. *)
Definition set_status (video_id : json) (status : string) (w : World) : World :=
  mkWorld
    (update_job video_id
       (fun j => mkVideoJob status (j_asset_id j) (j_error j) (j_video_url j))
       (heygen_videos w))
    (assets w) (downloads w).

(** [payload.get("event_type", payload.get("type"))]. *)
Definition event_type_of (members : list (string * json)) : json :=
  match lookup "event_type" members with
  | Some v => v
  | None => get "type" members
  end.

(** [payload.get("status", "").lower()]. *)
Definition status_of (members : list (string * json)) : outcome HTTPException string :=
  match lookup "status" members with
  | None => Returns ""
  | Some (JStr s) => Returns (lower s)
  | Some v => Raises (attribute_error v "lower")
  end.

(** [handle_heygen_webhook] from "Extract webhook data" on, for a payload
    that passed the signature check and parsed as JSON. *)
Definition process_payload (payload : json) (w : World)
    : outcome HTTPException Reply * World :=
  match payload with
  | JObj members =>
    let event_type := event_type_of members in
    let video_id := get "video_id" members in
    match status_of members with
    | Raises e => (Raises e, w)
    | Returns status =>
      if negb (json_truthy video_id) then (Returns NoVideoId, w)
      else
        let db_status := db_status_of event_type status in
        if String.eqb db_status "completed" then
          match output_url members with
          | Raises e => (Raises e, w)
          | Returns video_url =>
            if json_truthy video_url
            then (Returns (Processed video_id db_status),
                  store_completed video_id video_url w)
            else (Returns (Processed video_id db_status),
                  set_status video_id "failed" w)
          end
        else (Returns (Processed video_id db_status),
              set_status video_id db_status w)
    end
  | v => (Raises (attribute_error v "get"), w)
  end.

(** What [await request.json()] comes to. *)
Inductive Body : Type :=
| Parsed (payload : json)
| NotJSON                        (* json.JSONDecodeError *)
| Undecodable (exc : string).    (* any other exception, as the
                                    UnicodeDecodeError of a body that is
                                    not UTF-8 *)

(** The request as the handler sees it, once it has arrived whole: the raw
    body, the [X-HeyGen-Signature] header, and what the body parses to. *)
Record Request : Type := mkRequest {
  body : string;
  x_heygen_signature : option string;
  json_of_body : Body
}.

(** [hmac.new(secret.encode('utf-8'), payload, hashlib.sha256).hexdigest()]. *)
Variable hmac_sha256_hexdigest : string -> string -> string.

(** [verify_webhook_signature(payload, signature, secret)].
    [hmac.compare_digest] compares two strings only when both are ASCII and
    raises [TypeError] otherwise. *)
Definition verify_webhook_signature (payload signature secret : string)
    : outcome string bool :=
  let expected_signature := hmac_sha256_hexdigest secret payload in
  if PKCE.is_ascii signature && PKCE.is_ascii expected_signature
  then Returns (String.eqb signature expected_signature)
  else Raises "comparing strings with non-ASCII characters is not supported".

(** [handle_heygen_webhook(request)]; [secret] is [HEYGEN_WEBHOOK_SECRET].
    The [HTTPException]s pass the outer handler as they are; every other
    exception leaves it as [HTTPException(500, detail=str(e))]. *)
Definition handle_heygen_webhook (secret : option string) (request : Request)
    (w : World) : outcome HTTPException Reply * World :=
  let invalid := Raises (mkHTTPException 401 "Invalid webhook signature") in
  let checked : outcome HTTPException unit :=
    match secret with
    | Some (String c secret') =>
      match x_heygen_signature request with
      | Some (String d signature') =>
        match verify_webhook_signature (body request) (String d signature')
                (String c secret') with
        | Raises e => Raises (mkHTTPException 500 e)
        | Returns true => Returns ()
        | Returns false => invalid
        end
      | _ => invalid
      end
    | _ => Returns ()
    end in
  match checked with
  | Raises e => (Raises e, w)
  | Returns _ =>
    match json_of_body request with
    | NotJSON => (Raises (mkHTTPException 400 "Invalid JSON payload"), w)
    | Undecodable exc => (Raises (mkHTTPException 500 exc), w)
    | Parsed payload => process_payload payload w
    end
  end.

End Handler.

(** *** Runs to test with *)

(** [str()] of a value that is not a string, for the runs below. *)
Definition some_repr (v : json) : string := type_name v.

(** A storage that works: every transfer succeeds. *)
Definition working_storage : Storage :=
  mkStorage false "bucket" "media"
    (fun n => "2024/01/01/" +:+ String (ascii_of_nat (97 + n)) EmptyString)
    (fun _ _ => Returns ())
    (fun v => "Invalid URL: No scheme supplied (" +:+ type_name v +:+ ")").

(** A storage whose transfers fail. *)
Definition broken_storage : Storage :=
  mkStorage false "bucket" "media"
    (fun n => "2024/01/01/" +:+ String (ascii_of_nat (97 + n)) EmptyString)
    (fun _ _ => Raises "404 Client Error")
    (fun v => "Invalid URL: No scheme supplied (" +:+ type_name v +:+ ")").

(** One job, rendering. *)
Definition rendering : World :=
  mkWorld {[ "v1" := mkVideoJob "processing" None None None ]} [] [].

Definition completed_with_url : json :=
  JObj [("event_type", JStr "avatar_video.success");
        ("video_id", JStr "v1");
        ("status", JStr "completed");
        ("video_url", JStr "https://provider.example/v1.mp4")].

Definition completed_null_result : json :=
  JObj [("video_id", JStr "v1"); ("status", JStr "completed"); ("result", JNull)].


Example completed_and_stored :
  let r := process_payload some_repr working_storage completed_with_url rendering in
  r.1 = Returns (Processed (JStr "v1") "completed")
  /\ heygen_videos r.2 !! "v1" = Some (mkVideoJob "completed" (Some 1) None None)
  /\ assets r.2 = [mkAsset 1 "video" "s3://bucket/media/videos/2024/01/01/a.mp4"].
Proof. vm_compute. by repeat split. Qed.

Example completed_but_not_stored :
  let r := process_payload some_repr broken_storage completed_with_url rendering in
  r.1 = Returns (Processed (JStr "v1") "completed")
  /\ heygen_videos r.2 !! "v1"
     = Some (mkVideoJob "failed" None (Some "404 Client Error")
               (Some (JStr "https://provider.example/v1.mp4")))
  /\ assets r.2 = [].
Proof. vm_compute. by repeat split. Qed.

(** *** Status normalization *)

Section HandlerFacts.

Variable py_repr : json -> string.
Variable st : Storage.



(** The job row after a plain status update. *)
Lemma set_status_job (id status : string) (w : World) (j : VideoJob) :
  heygen_videos w !! id = Some j ->
  heygen_videos (set_status (JStr id) status w) !! id
  = Some (mkVideoJob status (j_asset_id j) (j_error j) (j_video_url j)).
Proof. intros Hj. cbn. by rewrite lookup_alter_eq, Hj. Qed.


(** *** Replays *)



(** The state after a delivery that stored the artifact of [url]. *)
Lemma store_completed_downloads (video_id url : json) (w : World) :
  downloads (store_completed st video_id url w) = url :: downloads w.
Proof.
  unfold store_completed. by destruct (download_to_s3 _ _ _ _ _).
Qed.

Lemma store_completed_assets (video_id url : json) (w : World) s3_result :
  download_to_s3 st (length (downloads w)) url "videos" "mp4" = Returns s3_result ->
  exists a,
    assets (store_completed st video_id url w) = (assets w ++ [a])%list
    /\ truthy (a_url a) = true
    /\ forall id j,
         video_id = JStr id -> heygen_videos w !! id = Some j ->
         heygen_videos (store_completed st video_id url w) !! id
         = Some (mkVideoJob "completed" (Some (a_asset_id a)) (j_error j)
                   (j_video_url j)).
Proof.
  intros Hdl. unfold store_completed. rewrite Hdl. eexists. split; [reflexivity|].
  split.
  - cbn [a_url]. by destruct (truthy (s3_url s3_result)) eqn:Hu.
  - intros id j -> Hj. cbn. by rewrite lookup_alter_eq, Hj.
Qed.

Lemma store_completed_failed (video_id url : json) (w : World) e :
  download_to_s3 st (length (downloads w)) url "videos" "mp4" = Raises e ->
  assets (store_completed st video_id url w) = assets w
  /\ forall id j,
       video_id = JStr id -> heygen_videos w !! id = Some j ->
       heygen_videos (store_completed st video_id url w) !! id
       = Some (mkVideoJob "failed" (j_asset_id j) (Some e) (Some url)).
Proof.
  intros Hdl. unfold store_completed. rewrite Hdl. split; [reflexivity|].
  intros id j -> Hj. cbn. by rewrite lookup_alter_eq, Hj.
Qed.



(** *** Completed events *)

(** What a "completed" event whose output URL can be looked up does to the
    job: with a URL and a working storage, one asset row with a non-empty
    location and the job "completed" and linked to it; with a URL and a
    failing storage, no asset row and the job "failed" with the error; with
    no URL, the job "failed" and no download. *)
Lemma completed_event_reconciled members status id j url w :
  status_of members = Returns status ->
  get "video_id" members = JStr id ->
  truthy id = true ->
  heygen_videos w !! id = Some j ->
  db_status_of py_repr (event_type_of members) status = "completed" ->
  output_url members = Returns url ->
  let r := process_payload py_repr st (JObj members) w in
  r.1 = Returns (Processed (JStr id) "completed")
  /\ (json_truthy url = true ->
      downloads r.2 = url :: downloads w
      /\ match download_to_s3 st (length (downloads w)) url "videos" "mp4" with
         | Returns _ =>
           exists a,
             assets r.2 = (assets w ++ [a])%list
             /\ truthy (a_url a) = true
             /\ heygen_videos r.2 !! id
                = Some (mkVideoJob "completed" (Some (a_asset_id a)) (j_error j)
                          (j_video_url j))
         | Raises e =>
           assets r.2 = assets w
           /\ heygen_videos r.2 !! id
              = Some (mkVideoJob "failed" (j_asset_id j) (Some e) (Some url))
         end)
  /\ (json_truthy url = false ->
      downloads r.2 = downloads w
      /\ assets r.2 = assets w
      /\ j_status <$> heygen_videos r.2 !! id = Some "failed").
Proof.
  intros Hstatus Hid Htruthy Hj Hdb Hurl r. subst r.
  unfold process_payload. rewrite Hstatus, Hid. cbn [json_truthy].
  rewrite Htruthy. cbn [negb]. rewrite Hdb, Hurl, String.eqb_refl.
  destruct (json_truthy url); cbn [fst snd].
  - split; [done|]. split; [|done]. intros _.
    split; [apply store_completed_downloads|].
    destruct (download_to_s3 st (length (downloads w)) url "videos" "mp4")
      as [s3_result|e] eqn:Hdl.
    + destruct (store_completed_assets (JStr id) url w s3_result Hdl)
        as (a & Ha & Hloc & Hjob).
      exists a. split; [done|]. split; [done|]. by apply Hjob.
    + destruct (store_completed_failed (JStr id) url w e Hdl) as [Ha Hjob].
      split; [done|]. by apply Hjob.
  - split; [done|]. split; [done|]. intros _.
    split; [done|]. split; [done|]. by rewrite (set_status_job _ _ _ _ Hj).
Qed.

End HandlerFacts.




(** C5, failing input. A "completed" event whose [result] member is [null]
    and that has no [video_url] or [url]: no output URL can be resolved, and
    the handler ends in HTTP 500 with the job row as it was, "processing",
    instead of marking the job "failed". *)
Theorem completed_with_null_result :
  process_payload some_repr working_storage completed_null_result rendering
  = (Raises (mkHTTPException 500 "'NoneType' object has no attribute 'get'"),
     rendering)
  /\ j_status <$> heygen_videos rendering !! "v1" = Some "processing".
Proof. split; vm_compute; reflexivity. Qed.



End Webhook.

(** ** More on the retry engine ([social_media_service.py]) *)
Module RetryRuns.

Import Retry.

(** The pause the engine plans after an attempt that it answers by sleeping
    and trying again when the range has attempts left: after a 429 the
    seconds of [Retry-After], or the backoff when the header is missing or
    gives 0; the backoff after a 5xx that is not an expected status and
    after a network error.  Every other answer ends the call. *)
Definition planned_pause (expected_statuses : list Z) (attempt : Z) (s : Sent)
    : option Sleep :=
  match s with
  | NetworkError _ => Some (Backoff attempt)
  | OtherError _ => None
  | Answered response =>
    let status := rsp_status_code response in
    if status =? 429 then
      Some match rsp_retry_after response with
           | Some seconds =>
             if seconds =? 0 then Backoff attempt else RetryAfter seconds
           | None => Backoff attempt
           end
    else if (status =? 401) || (status =? 403) then None
    else if status_in status expected_statuses then None
    else if (500 <=? status) && (status <? 600) then Some (Backoff attempt)
    else None
  end.

(** The pause after an attempt that is retried: a planned pause that
    [time.sleep] accepts. *)
Definition pause_after (expected_statuses : list Z) (attempt : Z) (s : Sent)
    : option Sleep :=
  match planned_pause expected_statuses attempt s with
  | Some p => match sleep_error p with
              | None => Some p
              | Some _ => None
              end
  | None => None
  end.

(** The exception of the last attempt of the range when its answer is one
    of those. *)
Definition gives_up (attempt : Z) (s : Sent) : Error :=
  match s with
  | NetworkError exc => APIRequestError (NetworkErrorAfter attempt exc)
  | OtherError exc => OtherException exc
  | Answered response =>
    if rsp_status_code response =? 429
    then RateLimitError attempt (rsp_retry_after response)
    else APIRequestError
           (UnexpectedStatus (rsp_status_code response)
              (substring 0 300 (rsp_text response)))
  end.

(** A response the engine hands back: an expected status that is none of
    429, 401, 403. *)
Definition accepted (expected_statuses : list Z) (response : Response) : bool :=
  let status := rsp_status_code response in
  negb (status =? 429) && negb ((status =? 401) || (status =? 403))
  && status_in status expected_statuses.

Section Runs.

Variable http : Z -> Sent.
Variable authenticate : Authenticate.
Variable expected_statuses : list Z.
Variable max_retries : Z.

Local Abbreviation run :=
  (attempts http authenticate expected_statuses max_retries).
Local Abbreviation pause := (pause_after expected_statuses).
Local Abbreviation planned := (planned_pause expected_statuses).

(** One pass through the loop body for an answer with a planned pause,
    before the last attempt of the range: the sleep, or its exception. *)
Lemma planned_step (remaining : nat) attempt last_exc fx p :
  planned attempt (http attempt) = Some p ->
  attempt < max_retries ->
  match sleep_error p with
  | None =>
    exists last_exc',
      run (S remaining) attempt last_exc fx
      = run remaining (attempt + 1) last_exc' (sleep p (sent fx))
  | Some e =>
    run (S remaining) attempt last_exc fx = (Raises (OtherException e), sent fx)
  end.
Proof.
  intros Hp Hlt. cbn. unfold planned_pause in Hp.
  assert (Hne : (attempt =? max_retries) = false) by lia.
  assert (Hlt' : (attempt <? max_retries) = true) by lia.
  destruct (http attempt) as [response|exc|exc]; [|injection Hp as <-|done].
  - destruct (rsp_status_code response =? 429).
    + rewrite Hne. injection Hp as <-.
      destruct (sleep_error _); [done|by eexists].
    + destruct ((rsp_status_code response =? 401)
                || (rsp_status_code response =? 403)); [done|].
      destruct (status_in _ _); [done|].
      destruct ((500 <=? rsp_status_code response)
                && (rsp_status_code response <? 600)); [|done].
      rewrite Hlt'. injection Hp as <-. cbn [andb].
      destruct (sleep_error _); [done|by eexists].
  - rewrite Hne. destruct (sleep_error _); [done|by eexists].
Qed.

Lemma pause_planned attempt s p :
  pause attempt s = Some p ->
  planned attempt s = Some p /\ sleep_error p = None.
Proof.
  unfold pause_after. destruct (planned attempt s) as [q|]; [|done].
  destruct (sleep_error q) eqn:Hq; [done|]. by intros [= <-].
Qed.

(** One pass through the loop body for an answer that is retried. *)
Lemma retried_step (remaining : nat) attempt last_exc fx p :
  pause attempt (http attempt) = Some p ->
  attempt < max_retries ->
  exists last_exc',
    run (S remaining) attempt last_exc fx
    = run remaining (attempt + 1) last_exc' (sleep p (sent fx)).
Proof.
  intros [Hp Hsleep]%pause_planned Hlt.
  pose proof (planned_step remaining attempt last_exc fx p Hp Hlt) as Hstep.
  by rewrite Hsleep in Hstep.
Qed.

(** [n] retried attempts in a row, none of them the last of the range. *)
Lemma retried_attempts (n : nat) :
  forall remaining attempt last_exc fx,
    (forall i, attempt <= i < attempt + Z.of_nat n ->
               is_Some (pause i (http i))) ->
    attempt + Z.of_nat n <= max_retries ->
    exists last_exc',
      run (n + remaining) attempt last_exc fx
      = run remaining (attempt + Z.of_nat n) last_exc'
          (mkEffects (n + requests_sent fx) (authenticate_calls fx)
             (rev (omap (fun i => pause i (http i)) (seqZ attempt (Z.of_nat n)))
              ++ slept fx)).
Proof.
  induction n as [|n IH]; intros remaining attempt last_exc fx Hall Hmax.
  - exists last_exc. rewrite Z.add_0_r. by destruct fx.
  - assert (Hfirst : attempt <= attempt < attempt + Z.of_nat (S n)) by lia.
    destruct (Hall attempt Hfirst) as [p Hp].
    assert (Hlt : attempt < max_retries) by lia.
    destruct (retried_step (n + remaining) attempt last_exc fx p Hp Hlt)
      as [last1 Hstep].
    cbn [Nat.add]. rewrite Hstep.
    destruct (IH remaining (attempt + 1) last1 (sleep p (sent fx))) as [last2 Hrest].
    { intros i Hi. apply Hall. lia. }
    { lia. }
    exists last2. rewrite Hrest. f_equal; [lia|].
    cbn [requests_sent authenticate_calls slept sleep sent]. f_equal; [lia|].
    replace (Z.of_nat (S n)) with (Z.succ (Z.of_nat n)) by lia.
    rewrite (seqZ_cons attempt) by lia. cbn [omap list_omap]. rewrite Hp.
    replace (Z.succ attempt) with (attempt + 1) by lia.
    replace (Z.pred (Z.succ (Z.of_nat n))) with (Z.of_nat n) by lia.
    cbn [rev]. by rewrite <- app_assoc.
Qed.

(** An accepted answer ends the call with that response. *)
Lemma accepted_step (remaining : nat) attempt last_exc fx response :
  http attempt = Answered response ->
  accepted expected_statuses response = true ->
  run (S remaining) attempt last_exc fx = (Returns response, sent fx).
Proof.
  intros Hresp Hacc. cbn. rewrite Hresp. unfold accepted in Hacc.
  apply andb_true_iff in Hacc as [Hacc Hin].
  apply andb_true_iff in Hacc as [H429 Hauth].
  apply negb_true_iff in H429, Hauth. by rewrite H429, Hauth, Hin.
Qed.

(** An answer with a planned pause to the last attempt of the range ends
    the call with its exception, without a sleep. *)
Lemma last_step (remaining : nat) last_exc fx p :
  planned max_retries (http max_retries) = Some p ->
  run (S remaining) max_retries last_exc fx
  = (Raises (gives_up max_retries (http max_retries)), sent fx).
Proof.
  intros Hp. cbn. unfold planned_pause in Hp. unfold gives_up.
  rewrite Z.eqb_refl, Z.ltb_irrefl.
  destruct (http max_retries) as [response|exc|exc]; [|done|done].
  destruct (rsp_status_code response =? 429); [done|].
  destruct ((rsp_status_code response =? 401)
            || (rsp_status_code response =? 403)); [done|].
  destruct (status_in _ _); [done|]. by rewrite andb_false_r.
Qed.

(** X1. Retried answers followed by an accepted one: the call returns that
    response, having sent one request per answer and slept after each of
    the retried ones, for the seconds of [Retry-After] where a 429 gave
    them and for the backoff otherwise.  [authenticate()] is not called.
    An answer counts as retried only when [time.sleep] takes its pause. *)
Theorem retried_then_accepted (n : nat) (response : Response) :
  (forall i, 1 <= i < 1 + Z.of_nat n -> is_Some (pause i (http i))) ->
  Z.of_nat n < max_retries ->
  http (1 + Z.of_nat n) = Answered response ->
  accepted expected_statuses response = true ->
  request_with_retry false http authenticate expected_statuses max_retries
  = (Returns response,
     mkEffects (S n) 0
       (rev (omap (fun i => pause i (http i)) (seqZ 1 (Z.of_nat n))))).
Proof.
  intros Hall Hlt Hresp Hacc. unfold request_with_retry.
  replace (Z.to_nat max_retries)
    with (n + S (Z.to_nat max_retries - S n))%nat by lia.
  destruct (retried_attempts n (S (Z.to_nat max_retries - S n)) 1 None nothing
              Hall ltac:(lia)) as [last_exc Hrun].
  rewrite Hrun, (accepted_step _ _ _ _ _ Hresp Hacc). cbn.
  by rewrite Nat.add_0_r, app_nil_r.
Qed.

(** X2. Retried answers to every attempt before the last, and to the last
    an answer of a retried kind: the call sends exactly [max_retries]
    requests, sleeps between them and not after the last, never calls
    [authenticate()], and raises for the last answer: [RateLimitError] with
    its [Retry-After] hint for a 429, [APIRequestError] for a 5xx or a
    network error. *)
Theorem retried_until_exhausted :
  1 <= max_retries ->
  (forall i, 1 <= i < max_retries -> is_Some (pause i (http i))) ->
  is_Some (planned max_retries (http max_retries)) ->
  request_with_retry false http authenticate expected_statuses max_retries
  = (Raises (gives_up max_retries (http max_retries)),
     mkEffects (Z.to_nat max_retries) 0
       (rev (omap (fun i => pause i (http i)) (seqZ 1 (max_retries - 1))))).
Proof.
  intros Hpos Hall [p Hp]. unfold request_with_retry.
  set (n := Z.to_nat (max_retries - 1)).
  replace (Z.to_nat max_retries) with (n + 1)%nat by lia.
  assert (Hbefore : forall i, 1 <= i < 1 + Z.of_nat n -> is_Some (pause i (http i))).
  { intros i Hi. apply Hall. lia. }
  destruct (retried_attempts n 1 1 None nothing Hbefore ltac:(lia))
    as [last_exc Hrun].
  rewrite Hrun. replace (1 + Z.of_nat n) with max_retries by lia.
  rewrite (last_step _ _ _ _ Hp). cbn.
  rewrite Nat.add_0_r, app_nil_r.
  replace (Z.of_nat n) with (max_retries - 1) by lia.
  unfold sent. cbn. by replace (n + 1)%nat with (S n) by lia.
Qed.

(** X3. An answer with a status that is neither expected nor 429, 401, 403 or
    5xx ends the call at once, at whichever attempt it comes: no sleep, no
    further request. *)
Theorem unexpected_status_is_final (n : nat) (response : Response) :
  (forall i, 1 <= i < 1 + Z.of_nat n -> is_Some (pause i (http i))) ->
  Z.of_nat n < max_retries ->
  http (1 + Z.of_nat n) = Answered response ->
  rsp_status_code response <> 429 ->
  rsp_status_code response <> 401 ->
  rsp_status_code response <> 403 ->
  status_in (rsp_status_code response) expected_statuses = false ->
  ~ (500 <= rsp_status_code response < 600) ->
  request_with_retry false http authenticate expected_statuses max_retries
  = (Raises (APIRequestError
               (UnexpectedStatus (rsp_status_code response)
                  (substring 0 300 (rsp_text response)))),
     mkEffects (S n) 0
       (rev (omap (fun i => pause i (http i)) (seqZ 1 (Z.of_nat n))))).
Proof.
  intros Hall Hlt Hresp H429 H401 H403 Hexp H5xx. unfold request_with_retry.
  replace (Z.to_nat max_retries)
    with (n + S (Z.to_nat max_retries - S n))%nat by lia.
  destruct (retried_attempts n (S (Z.to_nat max_retries - S n)) 1 None nothing
              Hall ltac:(lia)) as [last_exc Hrun].
  rewrite Hrun. cbn. rewrite Hresp, Hexp.
  apply Z.eqb_neq in H429, H401, H403. rewrite H429, H401, H403. cbn.
  assert (H5 : (500 <=? rsp_status_code response)
               && (rsp_status_code response <? 600) = false) by lia.
  rewrite H5. cbn. by rewrite Nat.add_0_r, app_nil_r.
Qed.

(** A pause that [time.sleep] does not take ends the call with the
    exception of [time.sleep], which the engine does not catch: a 429
    before the last attempt whose [Retry-After] is negative or is
    9223372037 seconds or more, at whichever attempt it comes. *)
Lemma unsleepable_pause_is_raised (n : nat) (p : Sleep) (e : string) :
  (forall i, 1 <= i < 1 + Z.of_nat n -> is_Some (pause i (http i))) ->
  1 + Z.of_nat n < max_retries ->
  planned (1 + Z.of_nat n) (http (1 + Z.of_nat n)) = Some p ->
  sleep_error p = Some e ->
  request_with_retry false http authenticate expected_statuses max_retries
  = (Raises (OtherException e),
     mkEffects (S n) 0
       (rev (omap (fun i => pause i (http i)) (seqZ 1 (Z.of_nat n))))).
Proof.
  intros Hall Hlt Hp He. unfold request_with_retry.
  replace (Z.to_nat max_retries)
    with (n + S (Z.to_nat max_retries - S n))%nat by lia.
  destruct (retried_attempts n (S (Z.to_nat max_retries - S n)) 1 None nothing
              Hall ltac:(lia)) as [last_exc Hrun].
  rewrite Hrun.
  pose proof (planned_step (Z.to_nat max_retries - S n) (1 + Z.of_nat n)
                last_exc
                (mkEffects (n + requests_sent nothing) (authenticate_calls nothing)
                   (rev (omap (fun i => pause i (http i)) (seqZ 1 (Z.of_nat n)))
                    ++ slept nothing)) p Hp Hlt) as Hstep.
  rewrite He in Hstep. rewrite Hstep. cbn.
  by rewrite Nat.add_0_r, app_nil_r.
Qed.

(** From the second attempt on the loop sends at most one request per
    remaining attempt. *)
Lemma requests_sent_bound (remaining : nat) :
  forall attempt last_exc fx,
    2 <= attempt ->
    (requests_sent (run remaining attempt last_exc fx).2
     <= requests_sent fx + remaining)%nat.
Proof.
  induction remaining as [|n IH]; intros attempt last_exc fx Hlate; cbn.
  - destruct last_exc; cbn; lia.
  - assert (Hnot1 : (attempt =? 1) = false) by lia. rewrite Hnot1.
    repeat match goal with
           | |- context [match ?x with _ => _ end] =>
             lazymatch x with
             | attempts _ _ _ _ _ _ _ _ => fail
             | _ => destruct x eqn:?
             end
           end; cbn; try lia;
      (etrans; [apply IH; lia|]); cbn; lia.
Qed.

(** What the loop does itself and what [authenticate()] adds.  Either the
    loop never calls [authenticate()], and then it sends at most one
    request per attempt of the range; or the first attempt was answered
    with 401 or 403, the loop calls [authenticate()] once, and the requests
    and the [authenticate()] calls of that call come on top. *)
Lemma own_and_nested (remaining : nat) :
  let fx := (run remaining 1 None nothing).2 in
  (authenticate_calls fx = 0%nat /\ (requests_sent fx <= remaining)%nat)
  \/ (authenticate_calls fx = S (authenticate_calls (auth_effects authenticate))
      /\ (requests_sent fx
          <= requests_sent (auth_effects authenticate) + remaining)%nat
      /\ exists response,
           http 1 = Answered response
           /\ (rsp_status_code response = 401
               \/ rsp_status_code response = 403)).
Proof.
  destruct remaining as [|n]; [left; cbn; split; lia|]. cbn [attempts].
  set (first := sent nothing).
  assert (Hlater : forall last_exc p,
             let fx := (run n (1 + 1) last_exc (sleep p first)).2 in
             authenticate_calls fx = 0%nat /\ (requests_sent fx <= S n)%nat).
  { intros last_exc p fx. subst fx. split.
    - by rewrite later_attempts_do_not_authenticate by lia.
    - etrans; [apply requests_sent_bound; lia|]. cbn. lia. }
  destruct (http 1) as [r|exc|exc] eqn:Hresp; cbv zeta.
  - destruct (rsp_status_code r =? 429) eqn:H429.
    { left. destruct (1 =? max_retries); [cbn; split; lia|].
      destruct (sleep_error _); [cbn; split; lia|apply Hlater]. }
    destruct ((rsp_status_code r =? 401) || (rsp_status_code r =? 403)) eqn:Hauth.
    { right. cbn [Z.eqb Pos.eqb].
      assert (Hstatus : rsp_status_code r = 401 \/ rsp_status_code r = 403) by lia.
      destruct (auth_outcome authenticate).
      - rewrite later_attempts_do_not_authenticate by lia.
        split; [cbn; lia|]. split; [|by exists r].
        etrans; [apply requests_sent_bound; lia|]. cbn. lia.
      - split; [cbn; lia|]. split; [cbn; lia|by exists r]. }
    left. destruct (status_in _ _); [cbn; split; lia|].
    destruct (_ && _); [|cbn; split; lia].
    destruct (sleep_error _); [cbn; split; lia|apply Hlater].
  - left. destruct (1 =? max_retries); [cbn; split; lia|].
    destruct (sleep_error _); [cbn; split; lia|apply Hlater].
  - left. cbn. split; lia.
Qed.

(** X4. The loop of a call sends at most [max_retries] requests itself,
    whatever the server answers, and none when [max_retries] is zero or
    negative; in demo mode the call does nothing at all.  Requests beyond
    that are those of the one [authenticate()] call the loop may make:
    [TwitterPlatform.authenticate] sends requests of its own. *)
Theorem attempt_budget (DEMO_MODE : bool) :
  let fx := (request_with_retry DEMO_MODE http authenticate expected_statuses
               max_retries).2 in
  (DEMO_MODE = true -> fx = nothing)
  /\ (requests_sent fx
      <= Z.to_nat max_retries
         + match authenticate_calls fx with
           | O => 0
           | S _ => requests_sent (auth_effects authenticate)
           end)%nat.
Proof.
  intros fx. subst fx. unfold request_with_retry.
  destruct DEMO_MODE; [split; [done|cbn; lia]|]. split; [done|].
  destruct (own_and_nested (Z.to_nat max_retries))
    as [[-> Hown]|(-> & Hall & _)]; lia.
Qed.

(** What the loop returns is an accepted answer of one of its attempts. *)
Lemma returned_is_accepted (remaining : nat) :
  forall attempt last_exc fx response fx',
    run remaining attempt last_exc fx = (Returns response, fx') ->
    accepted expected_statuses response = true
    /\ exists i, attempt <= i < attempt + Z.of_nat remaining
                 /\ http i = Answered response.
Proof.
  induction remaining as [|n IH]; intros attempt last_exc fx response fx' Hrun.
  - cbn in Hrun. by destruct last_exc.
  - cbn in Hrun.
    assert (Hlater : forall l f,
               run n (attempt + 1) l f = (Returns response, fx') ->
               accepted expected_statuses response = true
               /\ exists i, attempt <= i < attempt + Z.of_nat (S n)
                            /\ http i = Answered response).
    { intros l f Hlater. destruct (IH _ _ _ _ _ Hlater) as [Hacc (i & Hi & Hresp)].
      split; [done|]. exists i. split; [lia|done]. }
    destruct (http attempt) as [r|exc|exc] eqn:Hresp;
      [|destruct (_ =? _); [done|];
        destruct (sleep_error _); [done|exact (Hlater _ _ Hrun)]|done].
    destruct (rsp_status_code r =? 429) eqn:H429.
    { destruct (attempt =? max_retries); [done|].
      destruct (sleep_error _); [done|exact (Hlater _ _ Hrun)]. }
    destruct ((rsp_status_code r =? 401) || (rsp_status_code r =? 403)) eqn:Hauth.
    { destruct (attempt =? 1); [|done].
      destruct (auth_outcome authenticate); [|done].
      exact (Hlater _ _ Hrun). }
    destruct (status_in (rsp_status_code r) expected_statuses) eqn:Hin.
    { injection Hrun as <- _. split.
      - unfold accepted. by rewrite H429, Hauth, Hin.
      - exists attempt. split; [lia|done]. }
    destruct ((500 <=? rsp_status_code r) && (rsp_status_code r <? 600)
              && (attempt <? max_retries)); [|done].
    destruct (sleep_error _); [done|exact (Hlater _ _ Hrun)].
Qed.

(** X5. A response that the engine returns has one of the expected statuses,
    is none of 429, 401 and 403, and is the answer to one of the attempts
    of the range. *)
Theorem returned_response_is_expected (DEMO_MODE : bool) response fx :
  request_with_retry DEMO_MODE http authenticate expected_statuses max_retries
  = (Returns response, fx) ->
  accepted expected_statuses response = true
  /\ exists i, 1 <= i <= max_retries /\ http i = Answered response.
Proof.
  unfold request_with_retry. destruct DEMO_MODE; [done|]. intros Hrun.
  destruct (returned_is_accepted _ _ _ _ _ _ Hrun) as [Hacc (i & Hi & Hresp)].
  split; [done|]. exists i. split; [lia|done].
Qed.

(** X6. The loop of a call calls [authenticate()] at most once itself, and
    only when the first attempt was answered with 401 or 403.  Every
    further call that is counted is one that this [authenticate()] made:
    [TwitterPlatform.authenticate] comes back to [request_with_retry], whose
    loop may call [authenticate()] in turn. *)
Theorem authenticate_only_after_unauthorized (DEMO_MODE : bool) :
  let fx := (request_with_retry DEMO_MODE http authenticate expected_statuses
               max_retries).2 in
  (authenticate_calls fx = 0%nat
   \/ authenticate_calls fx = S (authenticate_calls (auth_effects authenticate)))
  /\ (authenticate_calls fx <> 0%nat ->
      DEMO_MODE = false
      /\ exists response,
           http 1 = Answered response
           /\ (rsp_status_code response = 401
               \/ rsp_status_code response = 403)).
Proof.
  intros fx. subst fx. unfold request_with_retry.
  destruct DEMO_MODE; [split; [by left|done]|].
  destruct (own_and_nested (Z.to_nat max_retries))
    as [[Hnone _]|(Hcalls & _ & Hfirst)].
  - split; [by left|]. by rewrite Hnone.
  - split; [by right|]. done.
Qed.

End Runs.

(** *** Runs to test with *)

(** 429 with [Retry-After: 7], then 429 without the header, then 200. *)
Definition rate_limited_twice : Z -> Sent :=
  fun attempt =>
    if attempt =? 1 then Answered (mkResponse 429 (Some 7) "slow down")
    else if attempt =? 2 then Answered (mkResponse 429 None "slow down")
    else Answered ok.

(** A timeout, then 503, then 429 with [Retry-After: 30]. *)
Definition never_through : Z -> Sent :=
  fun attempt =>
    if attempt =? 1 then NetworkError "timed out"
    else if attempt =? 2 then Answered (mkResponse 503 None "unavailable")
    else Answered (mkResponse 429 (Some 30) "slow down").

(** 502, then 404. *)
Definition gone_after_retry : Z -> Sent :=
  fun attempt =>
    if attempt =? 1 then Answered (mkResponse 502 None "bad gateway")
    else Answered (mkResponse 404 None "not found").

(** 429 with a [Retry-After] that [time.sleep] does not take. *)
Definition wait_for_ever : Z -> Sent :=
  fun attempt => Answered (mkResponse 429 (Some 9223372037) "slow down").

(** An [authenticate()] that came back to the engine, was answered 401
    there as well, and so on to the recursion limit: 247 requests and 246
    further [authenticate()] calls of its own before it raised. *)
Definition reentrant : Authenticate :=
  mkAuthenticate (Raises "maximum recursion depth exceeded")
    (mkEffects 247 246 []).

Example overflowing_sleep_is_raised :
  request_with_retry false wait_for_ever (Returns ()) default_expected_statuses 3
  = (Raises (OtherException "timestamp too large to convert to C _PyTime_t"),
     mkEffects 1 0 []).
Proof. reflexivity. Qed.

Example longest_sleep_is_slept :
  request_with_retry false
    (fun attempt => if attempt =? 1
                    then Answered (mkResponse 429 (Some 9223372036) "slow down")
                    else Answered ok)
    (Returns ()) default_expected_statuses 3
  = (Returns ok, mkEffects 2 0 [RetryAfter 9223372036]).
Proof. reflexivity. Qed.

Example reentrant_refresh :
  request_with_retry false always_401 reentrant default_expected_statuses 3
  = (Raises (AuthenticationError "maximum recursion depth exceeded"),
     mkEffects 248 247 []).
Proof. reflexivity. Qed.

Lemma retried_then_accepted_witness :
  request_with_retry false rate_limited_twice (Returns ())
    default_expected_statuses 3
  = (Returns ok, mkEffects 3 0 [Backoff 2; RetryAfter 7]).
Proof.
  refine (retried_then_accepted rate_limited_twice (Returns ())
            default_expected_statuses 3 2 ok _ _ eq_refl eq_refl).
  - intros i Hi. assert (Hcases : i = 1 \/ i = 2) by lia.
    destruct Hcases as [-> | ->]; by eexists.
  - lia.
Defined.

Lemma retried_until_exhausted_witness :
  request_with_retry false never_through (Returns ())
    default_expected_statuses 3
  = (Raises (RateLimitError 3 (Some 30)), mkEffects 3 0 [Backoff 2; Backoff 1]).
Proof.
  refine (retried_until_exhausted never_through (Returns ())
            default_expected_statuses 3 _ _ _).
  - lia.
  - intros i Hi. assert (Hcases : i = 1 \/ i = 2) by lia.
    destruct Hcases as [-> | ->]; by eexists.
  - by eexists.
Defined.

Lemma unexpected_status_is_final_witness :
  request_with_retry false gone_after_retry (Returns ())
    default_expected_statuses 3
  = (Raises (APIRequestError (UnexpectedStatus 404 "not found")),
     mkEffects 2 0 [Backoff 1]).
Proof.
  refine (unexpected_status_is_final gone_after_retry (Returns ())
            default_expected_statuses 3 1 (mkResponse 404 None "not found")
            _ _ eq_refl _ _ _ eq_refl _); cbn; try lia.
  intros i Hi. assert (i = 1) as -> by lia. by eexists.
Defined.

Lemma attempt_budget_witness :
  (requests_sent
     (request_with_retry false always_401 reentrant default_expected_statuses 3).2
   <= 3 + 247)%nat
  /\ (request_with_retry true always_401 reentrant default_expected_statuses 3).2
     = nothing.
Proof.
  split.
  - exact (proj2 (attempt_budget always_401 reentrant default_expected_statuses
                    3 false)).
  - exact (proj1 (attempt_budget always_401 reentrant default_expected_statuses
                    3 true) eq_refl).
Defined.

Lemma returned_response_is_expected_witness :
  request_with_retry false rate_limited_twice (Returns ())
    default_expected_statuses 3
  = (Returns ok, mkEffects 3 0 [Backoff 2; RetryAfter 7])
  /\ accepted default_expected_statuses ok = true.
Proof.
  assert (Hrun : request_with_retry false rate_limited_twice (Returns ())
                   default_expected_statuses 3
                 = (Returns ok, mkEffects 3 0 [Backoff 2; RetryAfter 7]))
    by reflexivity.
  split; [exact Hrun|].
  exact (proj1 (returned_response_is_expected rate_limited_twice (Returns ())
                  default_expected_statuses 3 false ok _ Hrun)).
Defined.

Lemma authenticate_only_after_unauthorized_witness :
  authenticate_calls
    (request_with_retry false always_401 reentrant default_expected_statuses 3).2
  <> 0%nat
  /\ exists response,
       always_401 1 = Answered response
       /\ (rsp_status_code response = 401 \/ rsp_status_code response = 403).
Proof.
  assert (Hcalled : authenticate_calls
                      (request_with_retry false always_401 reentrant
                         default_expected_statuses 3).2 <> 0%nat)
    by (vm_compute; discriminate).
  split; [exact Hcalled|].
  exact (proj2 (proj2 (authenticate_only_after_unauthorized always_401 reentrant
                         default_expected_statuses 3 false) Hcalled)).
Defined.

End RetryRuns.

(** ** Reddit submissions ([reddit_integration.py]) *)
Module Reddit.

(** The exceptions of the platform layer that [post_content] raises. *)
Inductive Error : Type :=
| RuntimeError (msg : string)
| ValidationError (msg : string)
| AuthenticationError (msg : string)
| AuthorizationError (msg : string)
| APIRequestError (msg : string).

(** The first space of [s], if there is one: what is before it and what is
    after it. *)
Fixpoint cut (s : string) : option (string * string) :=
  match s with
  | EmptyString => None
  | String c rest =>
    if Ascii.eqb c " " then Some (EmptyString, rest)
    else match cut rest with
         | Some (before, after) => Some (String c before, after)
         | None => None
         end
  end.

(** [s.split(" ", maxsplit)]. *)
Fixpoint split (maxsplit : nat) (s : string) : list string :=
  match maxsplit with
  | O => [s]
  | S m =>
    match cut s with
    | Some (before, after) => before :: split m after
    | None => [s]
    end
  end.

(** [" ".join(parts)]. *)
Fixpoint join (parts : list string) : string :=
  match parts with
  | [] => ""
  | [p] => p
  | p :: rest => p +:+ " " +:+ join rest
  end.

(** [s[n:]]. *)
Fixpoint from (n : nat) (s : string) : string :=
  match n, s with
  | O, _ => s
  | S n', String _ rest => from n' rest
  | S _, EmptyString => EmptyString
  end.

(** [s.startswith(prefix)]. *)
Definition startswith (prefix s : string) : bool := String.prefix prefix s.

(** The four variables the loop of [post_content] fills. *)
Record Parsed : Type := mkParsed {
  subreddit_name : option string;
  title : option string;
  text : option string;
  url : option string
}.

(** The inner loop: from index [i], the first index that is past the end or
    holds a part starting with ["text:"] or ["url:"]. *)
Fixpoint title_end (parts : list string) (i : nat) : nat :=
  match parts with
  | [] => i
  | p :: rest =>
    if startswith "text:" p || startswith "url:" p then i
    else title_end rest (S i)
  end.

(** The [while i < len(parts)] loop, with one unit of fuel per pass; every
    pass moves [i] forward or leaves the loop, so [length parts] passes are
    enough. *)
Fixpoint parse_from (fuel : nat) (parts : list string) (i : nat) (v : Parsed)
    : Parsed :=
  match fuel with
  | O => v
  | S fuel' =>
    match parts !! i with
    | None => v
    | Some p =>
      if startswith "subreddit:" p
      then parse_from fuel' parts (S i)
             (mkParsed (Some (from 10 p)) (title v) (text v) (url v))
      else if startswith "title:" p
      then
        let j := title_end (drop (S i) parts) (S i) in
        parse_from fuel' parts j
          (mkParsed (subreddit_name v)
             (Some (from 6 (join (take (j - i) (drop i parts)))))
             (text v) (url v))
      else if startswith "text:" p
      then mkParsed (subreddit_name v) (title v)
             (Some (from 5 (join (drop i parts)))) (url v)
      else if startswith "url:" p
      then mkParsed (subreddit_name v) (title v) (text v)
             (Some (from 4 (join (drop i parts))))
      else parse_from fuel' parts (S i) v
    end
  end.

(** The parse of [content_text]. *)
Definition parse (content_text : string) : Parsed :=
  let parts := split 3 content_text in
  parse_from (length parts) parts 0 (mkParsed None None None None).

Example parse_text_post :
  parse "subreddit:rocq title:Hello text:first post, with spaces"
  = mkParsed (Some "rocq") (Some "Hello") (Some "first post, with spaces") None.
Proof. reflexivity. Qed.
Example parse_two_word_title :
  parse "subreddit:rocq title:Hello world text:first post"
  = mkParsed (Some "rocq") (Some "Hello world") (Some "first post") None.
Proof. reflexivity. Qed.
Example parse_link_post :
  parse "subreddit:rocq title:Hello url:https://example.com/a b"
  = mkParsed (Some "rocq") (Some "Hello") None (Some "https://example.com/a b").
Proof. reflexivity. Qed.
Example parse_three_word_title :
  parse "subreddit:rocq title:Hello big world text:first post"
  = mkParsed (Some "rocq") (Some "Hello big world text:first post") None None.
Proof. reflexivity. Qed.
Example parse_title_first :
  parse "title:Hello subreddit:rocq text:body"
  = mkParsed None (Some "Hello subreddit:rocq") (Some "body") None.
Proof. reflexivity. Qed.

(** *** [post_content] *)

(** What [subreddit.submit] is called with. *)
Inductive Kind : Type :=
| SelfPost (selftext : string)
| LinkPost (link : string).

Record Submission : Type := mkSubmission {
  to_subreddit : string;
  with_title : string;
  kind : Kind
}.

(** How [subreddit.submit] fails. *)
Inductive SubmitFailure : Type :=
| Forbidden                       (* prawcore.exceptions.Forbidden *)
| NotFound                        (* prawcore.exceptions.NotFound *)
| OtherFailure (exc : string).

(** [PostResult]: the id and the public URL. *)
Record PostResult : Type := mkPostResult {
  post_id : string;
  post_url : string
}.

(** The platform instance and the provider: [DEMO_MODE], whether
    [self._reddit_client] is set, what [self.authenticate()] does, and what
    a submission is answered with (id and permalink). *)
Record Env : Type := mkEnv {
  DEMO_MODE : bool;
  has_client : bool;
  authenticate : outcome Error unit;
  submit : Submission -> outcome SubmitFailure (string * string)
}.

(** What a call did: whether it called [authenticate()], and the
    submissions it made. *)
Record Effects : Type := mkEffects {
  authenticated : bool;
  submitted : list Submission
}.

Definition invalid_format : string :=
  "Invalid format. Use: 'subreddit:NAME title:TITLE text:CONTENT' or 'subreddit:NAME title:TITLE url:URL'".

(** Truthiness of an optional string. *)
Definition given (x : option string) : bool :=
  match x with
  | Some (String _ _) => true
  | _ => false
  end.

(** [RedditPlatform.post_content(content_text, media_urls, scheduled_for)];
    [scheduled] tells whether [scheduled_for] was given. *)
Definition post_content (env : Env) (content_text : string)
    (media_urls : list string) (scheduled : bool)
    : outcome Error PostResult * Effects :=
  if DEMO_MODE env
  then (Raises (RuntimeError "Post operations disabled in demo."), mkEffects false [])
  else if scheduled
  then (Raises (ValidationError "Reddit does not support scheduled posts via API"),
        mkEffects false [])
  else
    match media_urls with
    | _ :: _ =>
      (Raises (ValidationError "Media uploads not yet implemented for Reddit"),
       mkEffects false [])
    | [] =>
      let ready := if has_client env then Returns () else authenticate env in
      let auth := negb (has_client env) in
      match ready with
      | Raises e => (Raises e, mkEffects auth [])
      | Returns _ =>
        let v := parse content_text in
        if negb (given (subreddit_name v)) || negb (given (title v))
        then (Raises (ValidationError invalid_format), mkEffects auth [])
        else
          let name := default "" (subreddit_name v) in
          let submission :=
            mkSubmission name (default "" (title v))
              (if given (url v) then LinkPost (default "" (url v))
               else SelfPost (default "" (text v))) in
          match submit env submission with
          | Returns (id, permalink) =>
            (Returns (mkPostResult id ("https://redacted.example.com" +:+ permalink)),
             mkEffects auth [submission])
          | Raises Forbidden =>
            (Raises (AuthorizationError ("Not allowed to post in r/" +:+ name)),
             mkEffects auth [submission])
          | Raises NotFound =>
            (Raises (ValidationError ("Subreddit r/" +:+ name +:+ " not found")),
             mkEffects auth [submission])
          | Raises (OtherFailure exc) =>
            (Raises (APIRequestError ("Failed to submit post: " +:+ exc)),
             mkEffects auth [submission])
          end
      end
    end.

(** *** Splitting and joining *)

(** [" " not in s]. *)
Fixpoint no_space (s : string) : bool :=
  match s with
  | EmptyString => true
  | String c rest => negb (Ascii.eqb c " ") && no_space rest
  end.

Lemma append_cons (c : ascii) (a r : string) :
  String c a +:+ r = String c (a +:+ r).
Proof. reflexivity. Qed.

Lemma append_nil (r : string) : "" +:+ r = r.
Proof. reflexivity. Qed.

Lemma space_app (r : string) : " " +:+ r = String " " r.
Proof. reflexivity. Qed.

Lemma cut_app (a r : string) :
  no_space a = true -> cut (a +:+ String " " r) = Some (a, r).
Proof.
  induction a as [|c a IH]; intros Ha.
  - by rewrite append_nil.
  - cbn -[Ascii.eqb] in Ha. apply andb_true_iff in Ha as [Hc Ha].
    apply negb_true_iff in Hc.
    rewrite append_cons. cbn -[Ascii.eqb String.append].
    by rewrite Hc, (IH Ha).
Qed.

Lemma cut_Some (s before after : string) :
  cut s = Some (before, after) ->
  s = before +:+ String " " after /\ no_space before = true.
Proof.
  revert before. induction s as [|c s IH]; intros before;
    cbn -[Ascii.eqb String.append]; [done|].
  destruct (Ascii.eqb c " ") eqn:Hc.
  - intros [= <- <-]. apply Ascii.eqb_eq in Hc as ->. done.
  - destruct (cut s) as [[b a]|]; [|done]. intros [= <- <-].
    destruct (IH b eq_refl) as [-> Hb]. rewrite append_cons.
    cbn -[Ascii.eqb String.append]. by rewrite Hc, Hb.
Qed.

(** Splitting off a first word. *)
Lemma split_app (m : nat) (a r : string) :
  no_space a = true -> split (S m) (a +:+ String " " r) = a :: split m r.
Proof. intros Ha. cbn [split]. by rewrite (cut_app _ _ Ha). Qed.

(** [" ".join(s.split(" ", n)) == s]. *)
Lemma join_split (n : nat) (s : string) : join (split n s) = s.
Proof.
  revert s. induction n as [|n IH]; intros s; cbn [split]; [done|].
  destruct (cut s) as [[b a]|] eqn:Hcut; [|done].
  apply cut_Some in Hcut as [-> _]. specialize (IH a).
  destruct (split n a) as [|p rest] eqn:Hsplit.
  - destruct n; cbn [split] in Hsplit; [done|]. by destruct (cut a) as [[? ?]|].
  - change (join (b :: p :: rest)) with (b +:+ " " +:+ join (p :: rest)).
    by rewrite IH.
Qed.

Lemma prefix_app (q r : string) : String.prefix q (q +:+ r) = true.
Proof.
  induction q as [|c q IH]; [by destruct r|].
  rewrite append_cons. cbn [String.prefix].
  destruct (ascii_dec c c); [exact IH|done].
Qed.

Lemma prefix_inv (q s : string) :
  String.prefix q s = true -> exists r, s = q +:+ r.
Proof.
  revert s. induction q as [|c q IH]; intros s; [by exists s|].
  destruct s as [|d s]; cbn [String.prefix]; [done|].
  destruct (ascii_dec c d) as [->|]; [|done].
  intros Hq. destruct (IH s Hq) as [r ->]. by exists r.
Qed.

(** A word without a space that the string starts with is what its first
    part starts with. *)
Lemma cut_prefix (q r b a : string) :
  no_space q = true -> cut (q +:+ r) = Some (b, a) -> String.prefix q b = true.
Proof.
  revert b. induction q as [|c q IH]; intros b Hq Hcut; [by destruct b|].
  cbn -[Ascii.eqb] in Hq. apply andb_true_iff in Hq as [Hc Hq].
  apply negb_true_iff in Hc.
  rewrite append_cons in Hcut. cbn -[Ascii.eqb String.append] in Hcut.
  rewrite Hc in Hcut.
  destruct (cut (q +:+ r)) as [[b' a']|] eqn:Hrest; [|done].
  injection Hcut as <- <-. cbn [String.prefix].
  destruct (ascii_dec c c); [|done]. by eapply IH.
Qed.

Lemma split_head (n : nat) (q r : string) :
  no_space q = true ->
  exists p rest, split n (q +:+ r) = p :: rest /\ String.prefix q p = true.
Proof.
  intros Hq. destruct n as [|n]; cbn [split].
  - exists (q +:+ r), []. split; [done|apply prefix_app].
  - destruct (cut (q +:+ r)) as [[b a]|] eqn:Hcut.
    + exists b, (split n a). split; [done|]. by eapply cut_prefix.
    + exists (q +:+ r), []. split; [done|apply prefix_app].
Qed.

(** *** The loop, one pass at a time *)

Lemma pass_subreddit fuel parts i v p :
  parts !! i = Some p ->
  startswith "subreddit:" p = true ->
  parse_from (S fuel) parts i v
  = parse_from fuel parts (S i)
      (mkParsed (Some (from 10 p)) (title v) (text v) (url v)).
Proof. intros Hp Hs. cbn [parse_from]. by rewrite Hp, Hs. Qed.

Lemma pass_title fuel parts i v p :
  parts !! i = Some p ->
  startswith "subreddit:" p = false ->
  startswith "title:" p = true ->
  parse_from (S fuel) parts i v
  = parse_from fuel parts (title_end (drop (S i) parts) (S i))
      (mkParsed (subreddit_name v)
         (Some (from 6 (join (take (title_end (drop (S i) parts) (S i) - i)
                                (drop i parts)))))
         (text v) (url v)).
Proof. intros Hp Hs Ht. cbn [parse_from]. by rewrite Hp, Hs, Ht. Qed.

Lemma pass_text fuel parts i v p :
  parts !! i = Some p ->
  startswith "text:" p = true ->
  parse_from (S fuel) parts i v
  = mkParsed (subreddit_name v) (title v)
      (Some (from 5 (join (drop i parts)))) (url v).
Proof.
  intros Hp Ht. cbn [parse_from]. rewrite Hp.
  destruct (prefix_inv _ _ Ht) as [r ->]. by rewrite Ht.
Qed.

Lemma pass_end fuel parts i v :
  parts !! i = None -> parse_from fuel parts i v = v.
Proof. intros Hp. destruct fuel; [done|]. cbn [parse_from]. by rewrite Hp. Qed.

Lemma title_end_stop p rest i :
  startswith "text:" p || startswith "url:" p = true ->
  title_end (p :: rest) i = i.
Proof. intros Hp. cbn [title_end]. by rewrite Hp. Qed.

Lemma title_end_go p rest i :
  startswith "text:" p = false -> startswith "url:" p = false ->
  title_end (p :: rest) i = title_end rest (S i).
Proof. intros Ht Hu. cbn [title_end]. by rewrite Ht, Hu. Qed.

(** A command with a one-word title: all three fields come back, the text
    with its spaces. *)
Lemma parse_text_command (name title_word body : string) :
  no_space name = true -> no_space title_word = true ->
  parse (("subreddit:" +:+ name) +:+ " " +:+ ("title:" +:+ title_word)
         +:+ " " +:+ ("text:" +:+ body))
  = mkParsed (Some name) (Some title_word) (Some body) None.
Proof.
  intros Hname Htitle. unfold parse. rewrite !space_app.
  rewrite (split_app 2) by exact Hname.
  rewrite (split_app 1) by exact Htitle.
  destruct (split_head 1 "text:" body eq_refl) as (p & rest & Hsplit & Hp).
  assert (Hjoin : join (p :: rest) = "text:" +:+ body)
    by (rewrite <- Hsplit; apply join_split).
  rewrite Hsplit. destruct (prefix_inv _ _ Hp) as [p' ->].
  cbn [length].
  erewrite pass_subreddit; [|reflexivity|apply prefix_app].
  erewrite pass_title; [|reflexivity|reflexivity|apply prefix_app].
  cbn [drop]. rewrite title_end_stop by (unfold startswith; by rewrite prefix_app).
  erewrite pass_text; [|reflexivity|apply prefix_app].
  cbn [drop subreddit_name title text url]. by rewrite Hjoin.
Qed.

(** A command whose title has three or more words: the third word of the
    title and everything after it, a [text:] or [url:] segment included,
    stay in the title, and no text and no URL are found. *)
Lemma parse_long_title (name w1 w2 rest : string) :
  no_space name = true -> no_space w1 = true -> no_space w2 = true ->
  startswith "text:" w2 = false -> startswith "url:" w2 = false ->
  startswith "text:" rest = false -> startswith "url:" rest = false ->
  parse (("subreddit:" +:+ name) +:+ " " +:+ ("title:" +:+ w1)
         +:+ " " +:+ w2 +:+ " " +:+ rest)
  = mkParsed (Some name) (Some (w1 +:+ " " +:+ w2 +:+ " " +:+ rest)) None None.
Proof.
  intros Hname Hw1 Hw2 Ht2 Hu2 Htr Hur. unfold parse. rewrite !space_app.
  rewrite (split_app 2) by exact Hname.
  rewrite (split_app 1) by exact Hw1.
  rewrite (split_app 0) by exact Hw2.
  cbn [split length].
  erewrite pass_subreddit; [|reflexivity|apply prefix_app].
  erewrite pass_title; [|reflexivity|reflexivity|apply prefix_app].
  cbn [drop]. rewrite (title_end_go w2) by done.
  rewrite (title_end_go rest) by done. cbn [title_end].
  rewrite pass_end by reflexivity. reflexivity.
Qed.

(** *** Fuel *)

Lemma title_end_ge (parts : list string) (i : nat) : (i <= title_end parts i)%nat.
Proof.
  revert i. induction parts as [|p rest IH]; intros i; cbn [title_end]; [done|].
  destruct (_ || _); [done|]. etrans; [|apply IH]. lia.
Qed.

(** With at least [length parts - i] units of fuel the result does not
    depend on the fuel: the loop has left by then. *)
Lemma parse_from_enough (parts : list string) (fuel1 : nat) :
  forall fuel2 i v,
    (length parts - i <= fuel1)%nat -> (length parts - i <= fuel2)%nat ->
    parse_from fuel1 parts i v = parse_from fuel2 parts i v.
Proof.
  induction fuel1 as [|fuel1 IH]; intros fuel2 i v H1 H2.
  - rewrite (pass_end fuel2); [done|]. apply lookup_ge_None. lia.
  - destruct (parts !! i) as [p|] eqn:Hp; [|by rewrite !pass_end].
    assert (Hi : (i < length parts)%nat) by (by eapply lookup_lt_Some).
    destruct fuel2 as [|fuel2]; [lia|].
    cbn [parse_from]. rewrite Hp.
    pose proof (title_end_ge (drop (S i) parts) (S i)) as Hj.
    destruct (startswith "subreddit:" p); [apply IH; lia|].
    destruct (startswith "title:" p); [apply IH; lia|].
    destruct (startswith "text:" p); [done|].
    destruct (startswith "url:" p); [done|].
    apply IH; lia.
Qed.

(** *** What gets submitted *)

(** The client is there, or [authenticate()] sets it up. *)
Definition ready (env : Env) : Prop :=
  has_client env = true \/ authenticate env = Returns ().

Lemma ready_returns (env : Env) :
  ready env ->
  (if has_client env then Returns () else authenticate env)
  = (Returns () : outcome Error unit).
Proof. intros [H|H]; destruct (has_client env); done. Qed.

(** Whatever the provider answers, the submissions made are the one handed
    to [submit]. *)
Lemma submitted_one (env : Env) (content_text : string) (v : Parsed) :
  DEMO_MODE env = false -> ready env ->
  parse content_text = v ->
  given (subreddit_name v) = true -> given (title v) = true ->
  submitted (post_content env content_text [] false).2
  = [mkSubmission (default "" (subreddit_name v)) (default "" (title v))
       (if given (url v) then LinkPost (default "" (url v))
        else SelfPost (default "" (text v)))].
Proof.
  intros Hdemo Hready Hparse Hsub Htitle. unfold post_content.
  rewrite Hdemo, (ready_returns _ Hready), Hparse, Hsub, Htitle. cbn [negb orb].
  by destruct (submit env _) as [[id permalink]|[| |exc]].
Qed.

(** X7. A well-formed text command with a one-word title is submitted as a
    self post with that subreddit, that title and the whole text, spaces
    included. *)
Theorem text_post_is_submitted (env : Env) (name title_word body : string) :
  DEMO_MODE env = false -> ready env ->
  no_space name = true -> name <> "" ->
  no_space title_word = true -> title_word <> "" ->
  submitted
    (post_content env
       (("subreddit:" +:+ name) +:+ " " +:+ ("title:" +:+ title_word)
        +:+ " " +:+ ("text:" +:+ body)) [] false).2
  = [mkSubmission name title_word (SelfPost body)].
Proof.
  intros Hdemo Hready Hname Hname' Htitle Htitle'.
  rewrite (submitted_one env _ _ Hdemo Hready
             (parse_text_command name title_word body Hname Htitle)).
  - done.
  - by destruct name.
  - by destruct title_word.
Qed.

(** X8. A command in which the second word of the title is followed by
    something that does not itself begin with [text:] or [url:] (a third
    title word, say) is submitted as a self post with an empty text: all
    that follows, a later [text:] or [url:] segment included, has become
    part of the title. *)
Theorem long_title_swallows_text (env : Env) (name w1 w2 rest : string) :
  DEMO_MODE env = false -> ready env ->
  no_space name = true -> name <> "" ->
  no_space w1 = true -> no_space w2 = true ->
  startswith "text:" w2 = false -> startswith "url:" w2 = false ->
  startswith "text:" rest = false -> startswith "url:" rest = false ->
  submitted
    (post_content env
       (("subreddit:" +:+ name) +:+ " " +:+ ("title:" +:+ w1)
        +:+ " " +:+ w2 +:+ " " +:+ rest) [] false).2
  = [mkSubmission name (w1 +:+ " " +:+ w2 +:+ " " +:+ rest) (SelfPost "")].
Proof.
  intros Hdemo Hready Hname Hname' Hw1 Hw2 Ht2 Hu2 Ht3 Hu3.
  rewrite (submitted_one env _ _ Hdemo Hready
             (parse_long_title name w1 w2 rest Hname Hw1 Hw2 Ht2 Hu2 Ht3 Hu3)).
  - done.
  - by destruct name.
  - by destruct w1.
Qed.

(** *** Commands without a subreddit *)

Lemma append_assoc (a b c : string) : (a +:+ b) +:+ c = a +:+ (b +:+ c).
Proof.
  induction a as [|x a IH]; [done|]. by rewrite !append_cons, IH.
Qed.

Lemma prefix_app_r (q b x : string) :
  String.prefix q b = true -> String.prefix q (b +:+ x) = true.
Proof.
  intros Hq. destruct (prefix_inv _ _ Hq) as [r ->].
  rewrite append_assoc. apply prefix_app.
Qed.

Lemma is_infix_prefix (q s : string) :
  String.prefix q s = true -> Webhook.is_infix q s = true.
Proof. intros Hq. destruct s; cbn [Webhook.is_infix]; by rewrite Hq. Qed.

Lemma is_infix_app_l (q c s : string) :
  Webhook.is_infix q s = true -> Webhook.is_infix q (c +:+ s) = true.
Proof.
  intros Hq. induction c as [|x c IH]; [done|].
  rewrite append_cons. cbn [Webhook.is_infix]. rewrite IH. apply orb_true_r.
Qed.

(** A word that a part of the split starts with occurs in the string. *)
Lemma split_part_infix (n : nat) (q s p : string) :
  In p (split n s) -> startswith q p = true -> Webhook.is_infix q s = true.
Proof.
  revert s. induction n as [|n IH]; intros s Hin Hq; cbn [split] in Hin.
  - destruct Hin as [<-|[]]. by apply is_infix_prefix.
  - destruct (cut s) as [[b a]|] eqn:Hcut.
    + apply cut_Some in Hcut as [-> _]. destruct Hin as [<-|Hin].
      * by apply is_infix_prefix, prefix_app_r.
      * apply is_infix_app_l.
        change (String " " a) with (" " +:+ a). apply is_infix_app_l. by eapply IH.
    + destruct Hin as [<-|[]]. by apply is_infix_prefix.
Qed.

(** The loop finds a subreddit only in a part that starts with
    ["subreddit:"]. *)
Lemma parse_from_no_subreddit (fuel : nat) (parts : list string) :
  (forall p, In p parts -> startswith "subreddit:" p = false) ->
  forall i v, subreddit_name (parse_from fuel parts i v) = subreddit_name v.
Proof.
  intros Hnone. induction fuel as [|fuel IH]; intros i v; cbn [parse_from]; [done|].
  destruct (parts !! i) as [p|] eqn:Hp; [|done].
  rewrite (Hnone p) by (apply list_elem_of_In; by eapply list_elem_of_lookup_2).
  destruct (startswith "title:" p); [by rewrite IH|].
  destruct (startswith "text:" p); [done|].
  destruct (startswith "url:" p); [done|]. apply IH.
Qed.

(** X9. A text in which ["subreddit:"] does not occur is rejected with the
    format error, and nothing is submitted. *)
Theorem post_without_subreddit_is_rejected (env : Env) (content_text : string) :
  DEMO_MODE env = false -> ready env ->
  Webhook.is_infix "subreddit:" content_text = false ->
  post_content env content_text [] false
  = (Raises (ValidationError invalid_format),
     mkEffects (negb (has_client env)) []).
Proof.
  intros Hdemo Hready Hnone. unfold post_content.
  rewrite Hdemo, (ready_returns _ Hready).
  assert (Hsub : subreddit_name (parse content_text) = None).
  { unfold parse. rewrite parse_from_no_subreddit; [done|].
    intros p Hin. destruct (startswith "subreddit:" p) eqn:Hp; [|done].
    by rewrite (split_part_infix _ _ _ _ Hin Hp) in Hnone. }
  by rewrite Hsub.
Qed.

(** [RedditPlatform.test_connection] never raises: it answers [True]
    exactly when the process is not in demo mode, the client is there or
    [authenticate()] returns, and [user.me()] returns a user; in every other
    case, whatever was raised, it answers [False]. *)
Theorem test_connection_is_boolean (demo client : bool)
    (auth : outcome Retry.Error unit) (user_me : outcome Retry.Error (option string)) :
  Retry.reddit_test_connection demo client auth user_me
  = Returns (negb demo
             && (client || match auth with Returns _ => true | Raises _ => false end)
             && match user_me with Returns (Some _) => true | _ => false end).
Proof.
  unfold Retry.reddit_test_connection.
  destruct demo; [done|]. destruct client, auth, user_me as [[u|]|]; done.
Qed.

(** *** Runs to test with *)

(** A client that is set up and a provider that accepts everything. *)
Definition accepting : Env :=
  mkEnv false true (Returns ()) (fun _ => Returns ("abc123", "/r/rocq/abc123")).

Lemma text_post_is_submitted_witness :
  submitted
    (post_content accepting "subreddit:rocq title:Hello text:a first post"
       [] false).2
  = [mkSubmission "rocq" "Hello" (SelfPost "a first post")].
Proof.
  refine (text_post_is_submitted accepting "rocq" "Hello" "a first post"
            eq_refl (or_introl eq_refl) eq_refl _ eq_refl _); discriminate.
Defined.

Lemma long_title_swallows_text_witness :
  submitted
    (post_content accepting
       "subreddit:rocq title:Hello big world text:a first post" [] false).2
  = [mkSubmission "rocq" "Hello big world text:a first post" (SelfPost "")].
Proof.
  refine (long_title_swallows_text accepting "rocq" "Hello" "big"
            "world text:a first post"
            eq_refl (or_introl eq_refl) eq_refl _ eq_refl eq_refl
            eq_refl eq_refl eq_refl eq_refl); discriminate.
Defined.

Lemma post_without_subreddit_is_rejected_witness :
  post_content accepting "title:Hello text:a first post" [] false
  = (Raises (ValidationError invalid_format), mkEffects false []).
Proof.
  exact (post_without_subreddit_is_rejected accepting
           "title:Hello text:a first post" eq_refl (or_introl eq_refl) eq_refl).
Defined.

End Reddit.

(** ** More on the HeyGen webhook ([main.py]) *)
Module WebhookFacts.

Import PyStr Webhook.

Section Facts.

Variable py_repr : json -> string.
Variable st : Storage.

(** [hmac.new(secret.encode('utf-8'), payload, hashlib.sha256).hexdigest()]. *)
Variable hmac_sha256_hexdigest : string -> string -> string.

Local Abbreviation handle :=
  (handle_heygen_webhook py_repr st hmac_sha256_hexdigest).

(** X10. The signature check.  With a secret configured, a request whose
    signature header is not the hex HMAC-SHA256 of its body under that
    secret changes nothing, whatever its body says: it is answered 401, or
    500 when the header is not ASCII, which [hmac.compare_digest] does not
    take.  A request that carries that digest is handled as if no secret
    were configured; and without a secret the header is not looked at. *)
Theorem signature_gate (request : Request) (w : World) :
  (forall secret,
      truthy secret = true ->
      let expected := hmac_sha256_hexdigest secret (body request) in
      x_heygen_signature request <> Some expected ->
      (handle (Some secret) request w).2 = w
      /\ exists e,
           (handle (Some secret) request w).1 = Raises e
           /\ status_code e
              = match x_heygen_signature request with
                | Some (String c signature) =>
                  if PKCE.is_ascii (String c signature) && PKCE.is_ascii expected
                  then 401 else 500
                | _ => 401
                end)
  /\ (forall secret,
        truthy secret = true ->
        let expected := hmac_sha256_hexdigest secret (body request) in
        x_heygen_signature request = Some expected ->
        truthy expected = true -> PKCE.is_ascii expected = true ->
        handle (Some secret) request w = handle None request w)
  /\ (forall secret header,
        truthy (default "" secret) = false ->
        handle secret request w
        = handle secret (mkRequest (body request) header (json_of_body request)) w).
Proof.
  split; [|split].
  - intros secret Hsecret expected Hforged. subst expected.
    unfold handle_heygen_webhook, verify_webhook_signature.
    destruct secret as [|c secret]; [done|].
    destruct (x_heygen_signature request) as [[|d signature]|];
      [split; [done|by eexists]|..|split; [done|by eexists]].
    destruct (PKCE.is_ascii (String d signature) && PKCE.is_ascii _);
      [|split; [done|by eexists]].
    destruct (String.eqb _ _) eqn:Heq; [|split; [done|by eexists]].
    apply String.eqb_eq in Heq. by rewrite Heq in Hforged.
  - intros secret Hsecret expected Hsigned Htruthy Hascii. subst expected.
    unfold handle_heygen_webhook, verify_webhook_signature.
    destruct secret as [|c secret]; [done|]. rewrite Hsigned.
    destruct (hmac_sha256_hexdigest _ _) as [|d digest]; [done|].
    by rewrite Hascii, String.eqb_refl.
  - intros secret header Hsecret. unfold handle_heygen_webhook.
    by destruct secret as [[|c secret]|].
Qed.

(** The answer and the jobs: an event changes no job but the one its
    [video_id] names, and it neither creates nor deletes a job row. *)
Theorem only_the_named_job_changes (payload : json) (w : World) (id : string) :
  let w' := (process_payload py_repr st payload w).2 in
  (is_Some (heygen_videos w' !! id) <-> is_Some (heygen_videos w !! id))
  /\ ((forall members, payload = JObj members -> get "video_id" members <> JStr id) ->
      heygen_videos w' !! id = heygen_videos w !! id).
Proof.
  intros w'. subst w'.
  assert (Hupd : forall video_id f,
             (is_Some (update_job video_id f (heygen_videos w) !! id)
              <-> is_Some (heygen_videos w !! id))
             /\ (video_id <> JStr id ->
                 update_job video_id f (heygen_videos w) !! id
                 = heygen_videos w !! id)).
  { intros video_id f. destruct video_id as [| | |s| |]; cbn [update_job]; try done.
    rewrite lookup_alter. case_decide as Heq.
    - subst s. split; [|done]. by rewrite fmap_is_Some.
    - done. }
  unfold process_payload. destruct payload as [| | | | |members]; try done.
  destruct (status_of members); [|done].
  destruct (negb _); [done|].
  assert (Hset : forall status,
             (is_Some (heygen_videos
                         (set_status (get "video_id" members) status w) !! id)
              <-> is_Some (heygen_videos w !! id))
             /\ ((forall members0, JObj members = JObj members0 ->
                                   get "video_id" members0 <> JStr id) ->
                 heygen_videos (set_status (get "video_id" members) status w) !! id
                 = heygen_videos w !! id)).
  { intros status. cbn [set_status heygen_videos].
    destruct (Hupd (get "video_id" members)
                (fun j => mkVideoJob status (j_asset_id j) (j_error j) (j_video_url j)))
      as [Hdom Hother].
    split; [done|]. intros Hne. apply Hother. by apply Hne. }
  destruct (String.eqb _ _); [|apply Hset].
  destruct (output_url members) as [url|]; [|done].
  destruct (json_truthy url); [|apply Hset]. cbn [fst snd].
  unfold store_completed.
  destruct (download_to_s3 _ _ _ _ _); cbn [heygen_videos];
    match goal with
    | |- context [update_job ?v ?f _] => destruct (Hupd v f) as [Hdom Hother]
    end;
    (split; [done|]; intros Hne; apply Hother; by apply Hne).
Qed.

(** X11. Assets and downloads: a delivery hands at most one URL to the storage
    and adds at most one asset row; a row is added only when that download
    returned, and its location is not empty. *)
Theorem asset_only_after_download (payload : json) (w : World) :
  let w' := (process_payload py_repr st payload w).2 in
  (downloads w' = downloads w /\ assets w' = assets w)
  \/ exists url,
       downloads w' = url :: downloads w
       /\ match download_to_s3 st (length (downloads w)) url "videos" "mp4" with
          | Raises _ => assets w' = assets w
          | Returns _ =>
            exists a, assets w' = (assets w ++ [a])%list /\ truthy (a_url a) = true
          end.
Proof.
  intros w'. subst w'. unfold process_payload.
  destruct payload as [| | | | |members]; try by left.
  destruct (status_of members); [|by left].
  destruct (negb _); [by left|].
  destruct (String.eqb _ _); [|by left].
  destruct (output_url members) as [url|]; [|by left].
  destruct (json_truthy url); [|by left].
  right. exists url. cbn [fst snd]. split; [apply store_completed_downloads|].
  destruct (download_to_s3 st (length (downloads w)) url "videos" "mp4")
    as [s3_result|e] eqn:Hdl.
  - destruct (store_completed_assets st (get "video_id" members) url w
                s3_result Hdl) as (asset & Hasset & Hloc & _).
    by exists asset.
  - by destruct (store_completed_failed st (get "video_id" members) url w
                   e Hdl).
Qed.

(** The three local states. *)
Definition local_state (status : string) : Prop :=
  status = "completed" \/ status = "failed" \/ status = "processing".

(** X12. When the payload has no status, or one that is in the table, the
    status the handler works with is one of the three local states,
    whatever the event type is. *)
Theorem known_status_is_local (event_type : json) (status : string) :
  status = "" \/ is_Some (status_map !! status) ->
  local_state (db_status_of py_repr event_type status).
Proof.
  intros [->|[mapped Hmapped]].
  - unfold db_status_of. cbn [truthy negb andb].
    destruct (json_truthy event_type); [|right; right; by vm_compute].
    unfold status_of_event_type.
    repeat match goal with
           | |- context [if ?b then _ else _] => destruct b
           end;
      [left|right; left|right; right|right; right]; by vm_compute.
  - unfold db_status_of.
    assert (Hs : truthy status = true).
    { destruct status; [|done]. by vm_compute in Hmapped. }
    rewrite Hs. cbn [negb andb]. unfold normalize_status. rewrite Hmapped.
    unfold status_map in Hmapped. apply elem_of_list_to_map_2 in Hmapped.
    repeat (apply elem_of_cons in Hmapped as [[= -> ->]|Hmapped];
            [unfold local_state; auto|]).
    by apply elem_of_nil in Hmapped.
Qed.

End Facts.

(** *** Runs *)

Lemma only_the_named_job_changes_witness :
  heygen_videos
    (process_payload some_repr working_storage completed_with_url rendering).2
  !! "v2" = heygen_videos rendering !! "v2".
Proof.
  refine (proj2 (only_the_named_job_changes some_repr working_storage
                   completed_with_url rendering "v2") _).
  intros members [= <-]. vm_compute. discriminate.
Defined.

(** A digest for the runs: it stands for the HMAC of the body. *)
Definition toy_digest (secret payload : string) : string := "0f" +:+ payload.

Definition forged : Request :=
  mkRequest "{}" (Some "deadbeef") (Parsed (JObj [])).

Lemma signature_gate_witness :
  (handle_heygen_webhook some_repr working_storage toy_digest (Some "secret")
     forged rendering).2 = rendering
  /\ exists e,
       (handle_heygen_webhook some_repr working_storage toy_digest (Some "secret")
          forged rendering).1 = Raises e
       /\ status_code e = 401.
Proof.
  refine (proj1 (signature_gate some_repr working_storage toy_digest forged
                   rendering) "secret" eq_refl _).
  discriminate.
Defined.

Lemma known_status_is_local_witness :
  local_state (db_status_of some_repr (JStr "avatar_video.success") "").
Proof.
  apply (known_status_is_local some_repr (JStr "avatar_video.success") "").
  left. reflexivity.
Defined.

(** *** The webhook address ([get_webhook_info]) *)

(** [s.endswith(suffix)]: a tail of [s] is [suffix]. *)
Fixpoint endswith (suffix s : string) : bool :=
  String.eqb s suffix
  || match s with
     | EmptyString => false
     | String _ rest => endswith suffix rest
     end.

Record WebhookInfo := mkWebhookInfo {
  webhook_url : string;
  instructions : string;
  supports : list string
}.

(** The two arguments are the environment variables [HEYGEN_WEBHOOK_URL]
    and [PUBLIC_URL]. *)
Definition get_webhook_info (HEYGEN_WEBHOOK_URL PUBLIC_URL : option string)
  : WebhookInfo :=
  let explicit := HEYGEN_WEBHOOK_URL in
  let webhook_url :=
    if truthy (default "" explicit)
    then
      let explicit := default "" explicit in
      if endswith "/webhooks" explicit then explicit +:+ "/heygen"
      else if endswith "/webhooks/" explicit
              && negb (endswith "/webhooks/heygen" explicit)
      then explicit +:+ "heygen"
      else explicit
    else
      let base_url := default "https://redacted.example.com" PUBLIC_URL in
      PKCE.rstrip "/" base_url +:+ "/webhooks/heygen" in
  mkWebhookInfo webhook_url "Add this URL to your HeyGen account settings"
    ["video.completed"; "video.failed"; "video.processing"].

Example info_from_public_url :
  webhook_url (get_webhook_info None (Some "https://app.example.com//"))
  = "https://app.example.com/webhooks/heygen".
Proof. reflexivity. Qed.

Example info_from_explicit_base :
  webhook_url (get_webhook_info (Some "https://app.example.com/webhooks/") None)
  = "https://app.example.com/webhooks/heygen".
Proof. reflexivity. Qed.

Example info_from_explicit_other :
  webhook_url (get_webhook_info (Some "https://app.example.com/hooks") None)
  = "https://app.example.com/hooks".
Proof. reflexivity. Qed.

(** The last character of a string. *)
Fixpoint last_char (s : string) : option ascii :=
  match s with
  | EmptyString => None
  | String c EmptyString => Some c
  | String _ rest => last_char rest
  end.

(** [c * k]. *)
Fixpoint replicate_char (k : nat) (c : ascii) : string :=
  match k with
  | O => EmptyString
  | S k => String c (replicate_char k c)
  end.

Lemma endswith_app (suffix a : string) : endswith suffix (a +:+ suffix) = true.
Proof.
  induction a as [|x a IH].
  - rewrite Reddit.append_nil.
    destruct suffix; cbn [endswith]; by rewrite String.eqb_refl.
  - rewrite Reddit.append_cons. cbn [endswith]. rewrite IH. apply orb_true_r.
Qed.

Lemma endswith_inv (suffix s : string) :
  endswith suffix s = true -> exists a, s = a +:+ suffix.
Proof.
  induction s as [|x s IH]; cbn [endswith].
  - rewrite orb_false_r. intros ->%String.eqb_eq. by exists "".
  - intros [->%String.eqb_eq|Hs]%orb_true_iff; [by exists ""|].
    destruct (IH Hs) as [a ->]. by exists (String x a).
Qed.

Lemma last_char_app (a b : string) :
  truthy b = true -> last_char (a +:+ b) = last_char b.
Proof.
  intros Hb. induction a as [|x a IH]; [done|].
  rewrite Reddit.append_cons. cbn [last_char]. rewrite IH.
  destruct (a +:+ b) eqn:Hab; [|done].
  destruct a; [|done]. rewrite Reddit.append_nil in Hab. by rewrite Hab in Hb.
Qed.

Lemma endswith_last (suffix s : string) :
  truthy suffix = true -> endswith suffix s = true ->
  last_char s = last_char suffix.
Proof.
  intros Hsuffix [a ->]%endswith_inv. by apply last_char_app.
Qed.

(** A string does not end with a suffix whose last character is another. *)
Lemma endswith_other_last (suffix s : string) :
  truthy suffix = true -> last_char s <> last_char suffix ->
  endswith suffix s = false.
Proof.
  intros Hsuffix Hlast. destruct (endswith suffix s) eqn:Hends; [|done].
  by apply endswith_last in Hends.
Qed.

(** What [rstrip] leaves and what it takes away. *)
Lemma rstrip_spec (c : ascii) (s : string) :
  last_char (PKCE.rstrip c s) <> Some c
  /\ exists k, s = PKCE.rstrip c s +:+ replicate_char k c.
Proof.
  induction s as [|x s (IHlast & k & IHk)]; [split; [done|by exists O]|].
  cbn [PKCE.rstrip]. destruct (PKCE.rstrip c s) as [|y r] eqn:Hr.
  - destruct (Ascii.eqb x c) eqn:Hx.
    + apply Ascii.eqb_eq in Hx as ->. split; [done|].
      exists (S k). cbn. by rewrite IHk at 1.
    + split.
      * cbn. intros [= ->]. by rewrite Ascii.eqb_refl in Hx.
      * exists k. cbn. by rewrite IHk at 1.
  - split; [done|]. exists k. rewrite Reddit.append_cons. by rewrite IHk at 1.
Qed.

(** X13. Without an explicit address the route is appended to [PUBLIC_URL]
    without its trailing slashes: the address is [base/webhooks/heygen]
    where [base] does not end in a slash and [PUBLIC_URL] (or its default)
    is [base] followed by slashes only. *)
Theorem address_from_public_url (HEYGEN_WEBHOOK_URL PUBLIC_URL : option string) :
  truthy (default "" HEYGEN_WEBHOOK_URL) = false ->
  exists base k,
    webhook_url (get_webhook_info HEYGEN_WEBHOOK_URL PUBLIC_URL)
    = base +:+ "/webhooks/heygen"
    /\ last_char base <> Some "/"%char
    /\ default "https://redacted.example.com" PUBLIC_URL
       = base +:+ replicate_char k "/".
Proof.
  intros Hunset. unfold get_webhook_info. cbn [webhook_url]. rewrite Hunset.
  destruct (rstrip_spec "/" (default "https://redacted.example.com" PUBLIC_URL))
    as (Hlast & k & Hk).
  by exists (PKCE.rstrip "/" (default "https://redacted.example.com" PUBLIC_URL)), k.
Qed.

(** X14. The route is completed when the explicit address stops at [/webhooks]
    or [/webhooks/], and then the address ends in [/webhooks/heygen]; any
    other explicit address is returned as it is. *)
Theorem explicit_address (explicit : string) (PUBLIC_URL : option string) :
  truthy explicit = true ->
  let url := webhook_url (get_webhook_info (Some explicit) PUBLIC_URL) in
  if endswith "/webhooks" explicit || endswith "/webhooks/" explicit
  then endswith "/webhooks/heygen" url = true
       /\ exists base, explicit = base +:+ "/webhooks"
                       \/ explicit = base +:+ "/webhooks/"
  else url = explicit.
Proof.
  intros Hset url. subst url. unfold get_webhook_info.
  cbn [webhook_url from_option id]. rewrite Hset.
  destruct (endswith "/webhooks" explicit) eqn:Hbare; cbn [orb].
  - destruct (endswith_inv _ _ Hbare) as [base ->]. split; [|by eauto].
    rewrite Reddit.append_assoc. apply (endswith_app "/webhooks/heygen").
  - destruct (endswith "/webhooks/" explicit) eqn:Hslash; cbn [andb]; [|done].
    rewrite (endswith_other_last "/webhooks/heygen" explicit); [|done|].
    + cbn [negb]. destruct (endswith_inv _ _ Hslash) as [base ->].
      split; [|by eauto].
      rewrite Reddit.append_assoc. apply (endswith_app "/webhooks/heygen").
    + by rewrite (endswith_last "/webhooks/" explicit eq_refl Hslash).
Qed.

(** X15. The address that [get_webhook_info] returns is one it accepts: set as
    [HEYGEN_WEBHOOK_URL], it is returned unchanged, whatever [PUBLIC_URL]
    then is. *)
Theorem returned_address_is_stable
    (HEYGEN_WEBHOOK_URL PUBLIC_URL PUBLIC_URL' : option string) :
  let url := webhook_url (get_webhook_info HEYGEN_WEBHOOK_URL PUBLIC_URL) in
  webhook_url (get_webhook_info (Some url) PUBLIC_URL') = url.
Proof.
  intros url.
  assert (Hstay : forall address,
             truthy address = true ->
             endswith "/webhooks" address = false ->
             endswith "/webhooks/" address
             && negb (endswith "/webhooks/heygen" address) = false ->
             webhook_url (get_webhook_info (Some address) PUBLIC_URL') = address).
  { intros address Hset Hbare Hslash. unfold get_webhook_info.
    cbn [webhook_url from_option id]. by rewrite Hset, Hbare, Hslash. }
  assert (Hroute : forall a b,
             last_char b = Some "n"%char -> truthy b = true ->
             webhook_url (get_webhook_info (Some (a +:+ b)) PUBLIC_URL') = a +:+ b).
  { intros a b Hlast Hb.
    assert (Hn : last_char (a +:+ b) = Some "n"%char)
      by by rewrite last_char_app.
    apply Hstay.
    - destruct a; [done|]. by destruct b.
    - apply endswith_other_last; [done|]. by rewrite Hn.
    - rewrite (endswith_other_last "/webhooks/"); [done|done|]. by rewrite Hn. }
  subst url. unfold get_webhook_info at 2 3. cbn [webhook_url].
  destruct (truthy (default "" HEYGEN_WEBHOOK_URL)) eqn:Hset; [|by apply Hroute].
  destruct (endswith "/webhooks" _) eqn:Hbare; [by apply Hroute|].
  destruct (endswith "/webhooks/" _ && _) eqn:Hslash; [by apply Hroute|].
  by apply Hstay.
Qed.

Lemma address_from_public_url_witness :
  exists base k,
    webhook_url (get_webhook_info None (Some "https://app.example.com//"))
    = base +:+ "/webhooks/heygen"
    /\ last_char base <> Some "/"%char
    /\ default "https://redacted.example.com" (Some "https://app.example.com//")
       = base +:+ replicate_char k "/".
Proof.
  exact (address_from_public_url None (Some "https://app.example.com//") eq_refl).
Defined.

Lemma explicit_address_witness :
  endswith "/webhooks/heygen"
    (webhook_url (get_webhook_info (Some "https://app.example.com/webhooks/") None))
  = true.
Proof.
  exact (proj1 (explicit_address "https://app.example.com/webhooks/" None eq_refl)).
Defined.

End WebhookFacts.

(** ** More on the auto-campaign endpoint ([main.py],
    [auto_campaign_service.py]) *)
Module CampaignFacts.

Import PyStr Campaign.

(** *** The validated platform list *)

(** The keys of the registry are lower-case and trimmed already. *)
Lemma supported_normal (p : string) :
  In p supported ->
  strip (lower p) = p /\ lower p = p /\ truthy (strip p) = true
  /\ mem p supported = true.
Proof. intros [<-|[<-|[]]]; by repeat split. Qed.

Lemma normalize_supported (ps : list string) :
  (forall p, In p ps -> In p supported) ->
  normalize ps = ps /\ map lower ps = ps
  /\ List.filter (fun p => mem p supported) ps = ps.
Proof.
  unfold normalize. induction ps as [|p ps IH]; intros Hall; [done|].
  destruct (supported_normal p) as (Hstrip & Hlower & Htruthy & Hmem);
    [apply Hall; by left|].
  destruct IH as (IHn & IHl & IHf); [intros q Hq; apply Hall; by right|].
  cbn [List.filter map]. rewrite Htruthy, Hmem. cbn [map].
  by rewrite Hstrip, Hlower, IHn, IHl, IHf.
Qed.

(** X16. A list the validator returned is a list it accepts as it is, and the
    lower-casing [create_auto_campaign] applies to it before it attaches the
    platforms changes nothing. *)
Theorem validated_platforms_are_stable (items ps : list string) :
  _normalize_and_validate_platforms (AList items) = Returns ps ->
  _normalize_and_validate_platforms (AList ps) = Returns ps
  /\ map lower ps = ps.
Proof.
  intros Hret. rewrite validate_list in Hret.
  destruct (List.filter (fun p => mem p supported) (normalize items))
    as [|f fs] eqn:Hf.
  { destruct (validate_list_raises items Hf) as [e He]. congruence. }
  injection Hret as <-.
  assert (Hall : forall p, In p (f :: fs) -> In p supported).
  { intros p Hp. rewrite <- Hf in Hp. apply filter_In in Hp as [_ Hp].
    by apply mem_In. }
  destruct (normalize_supported (f :: fs) Hall) as (Hn & Hl & Hfilter).
  split; [|exact Hl].
  unfold _normalize_and_validate_platforms. by rewrite Hn, Hfilter.
Qed.

Lemma validated_platforms_are_stable_witness :
  _normalize_and_validate_platforms (AList ["twitter"; "shorts"])
  = Returns ["twitter"; "shorts"]
  /\ map lower ["twitter"; "shorts"] = ["twitter"; "shorts"].
Proof.
  exact (validated_platforms_are_stable [" Twitter "; ""; "SHORTS"]
           ["twitter"; "shorts"] eq_refl).
Defined.

(** *** The offer comes first *)

(** The offer is looked up before anything is written.  An [offer_id] that
    no offer has is answered 404; a request without an [offer_id] (or with
    the id 0, which counts as none) and with neither a title nor a
    description is answered 400.  In both cases the database is as it was
    and the text collaborator was not asked. *)
Theorem offer_is_resolved_first
    (svc : Service) (ai : AIService) (faults : Faults)
    (request : AutoCampaignRequest) (db : Database) :
  (forall id,
      offer_id request = Some id -> id <> 0 -> select_offer id db = None ->
      create_auto_campaign svc ai faults request db
      = (Raises (mkHTTPException 404 "Offer not found"), db))
  /\ (offer_id request = None \/ offer_id request = Some 0 ->
      or_none (offer_title request) = None ->
      or_none (offer_description request) = None ->
      create_auto_campaign svc ai faults request db
      = (Raises (mkHTTPException 400
                   "Provide offer_id or offer_title/offer_description"), db)).
Proof.
  split.
  - intros id Hid Hne Hnone. unfold create_auto_campaign, resolve.
    rewrite Hid. apply Z.eqb_neq in Hne. by rewrite Hne, Hnone.
  - intros Hid Htitle Hdescription. unfold create_auto_campaign, resolve.
    destruct Hid as [->| ->]; cbn [Z.eqb]; by rewrite Htitle, Hdescription.
Qed.

(** An AI collaborator that must not be reached. *)
Definition silent_ai : AIService :=
  mkAIService (fun _ _ => Raises "unreachable") (fun _ _ => Raises "unreachable")
              (fun _ _ => Raises "unreachable") (fun _ _ => Raises "unreachable").

Definition unknown_offer : AutoCampaignRequest :=
  mkAutoCampaignRequest (Some 8) None None None ["twitter"] false
    None None None None None.

Definition offer_zero : AutoCampaignRequest :=
  mkAutoCampaignRequest (Some 0) (Some "") None None ["twitter"] false
    None None None None None.

Lemma offer_is_resolved_first_witness :
  create_auto_campaign auto_campaign_service silent_ai no_faults unknown_offer
    one_offer
  = (Raises (mkHTTPException 404 "Offer not found"), one_offer)
  /\ create_auto_campaign auto_campaign_service silent_ai no_faults offer_zero
       one_offer
     = (Raises (mkHTTPException 400
                  "Provide offer_id or offer_title/offer_description"), one_offer).
Proof.
  split.
  - refine (proj1 (offer_is_resolved_first auto_campaign_service silent_ai
                     no_faults unknown_offer one_offer) 8 eq_refl _ eq_refl).
    discriminate.
  - refine (proj2 (offer_is_resolved_first auto_campaign_service silent_ai
                     no_faults offer_zero one_offer) _ eq_refl eq_refl).
    by right.
Defined.

(** *** The helper module that [main.py] imports *)

(** The campaign, platform and content tables. *)
Definition campaign_tables (db : Database) :=
  (campaigns db, campaign_platforms db, contents db).

Lemma mock_attach_platforms (campaign_id : Z) (ps : list string)
    (conn : Connection) :
  attach_platforms auto_campaign_service campaign_id ps conn = (Returns (), conn).
Proof.
  induction ps as [|plat ps IH]; [done|].
  cbn [attach_platforms]. unfold bind, at_step. cbn. exact IH.
Qed.

Lemma mock_twitter_content ai request v campaign_id conn :
  exists ids,
    twitter_content auto_campaign_service ai request v campaign_id conn
    = (Returns ids, conn)
    /\ Forall (eq 1) ids.
Proof.
  unfold twitter_content.
  match goal with |- context [if ?b then _ else _] => destruct b end.
  - exists [1]. split; [done|]. by constructor.
  - by exists [].
Qed.

Lemma mock_shorts_content ai request v campaign_id conn :
  exists ids,
    shorts_content auto_campaign_service ai request v campaign_id conn
    = (Returns ids, conn)
    /\ Forall (eq 1) ids.
Proof.
  unfold shorts_content.
  match goal with |- context [if truthy ?t then _ else _] => destruct (truthy t) end;
    destruct (generate_heygen_video request);
    eexists; (split; [reflexivity|]); repeat constructor.
Qed.

(** What a run that returned went through. *)
Lemma bind_returns {A B : Type} (m : Tx A) (k : A -> Tx B) conn b conn' :
  bind m k conn = (Returns b, conn') ->
  exists a conn1, m conn = (Returns a, conn1) /\ k a conn1 = (Returns b, conn').
Proof.
  unfold bind. destruct (m conn) as [[a|e] conn1]; [|done]. by exists a, conn1.
Qed.

Lemma execute_returns {A : Type} faults s (f : Database -> A * Database)
    conn a conn' :
  execute faults s f conn = (Returns a, conn') ->
  a = (f (working conn)).1
  /\ conn' = mkConnection (committed conn) (f (working conn)).2.
Proof.
  unfold execute. destruct (faults s); [done|].
  destruct (f (working conn)). by intros [= <- <-].
Qed.

Lemma at_step_returns {A : Type} s (m : Tx A) conn a conn' :
  at_step s m conn = (Returns a, conn') -> m conn = (Returns a, conn').
Proof. unfold at_step. by destruct (m conn) as [[x|[s' msg]] conn1]. Qed.

(** An assembly with the imported helper module changes the persona, pain
    point and script tables only. *)
Lemma mock_assemble ai faults request v conn r conn' :
  assemble auto_campaign_service ai faults request v conn = (Returns r, conn') ->
  r_campaign_id r = 1 /\ Forall (eq 1) (r_content_ids r)
  /\ campaign_tables (working conn') = campaign_tables (working conn).
Proof.
  unfold assemble, insert_persona, insert_pain_point, insert_script.
  intros (u1 & c1 & [_ Hc1]%execute_returns & Hrun)%bind_returns.
  apply bind_returns in Hrun as (persona_id & c2 & [_ Hc2]%execute_returns & Hrun).
  apply bind_returns in Hrun as (pain_point_id & c3 & [_ Hc3]%execute_returns & Hrun).
  apply bind_returns in Hrun as (script_id & c4 & [_ Hc4]%execute_returns & Hrun).
  apply bind_returns in Hrun as (campaign_id & c5 & Hc5%at_step_returns & Hrun).
  apply bind_returns in Hrun as (u6 & c6 & Hc6%at_step_returns & Hrun).
  apply bind_returns in Hrun as (u7 & c7 & Hattach & Hrun).
  rewrite mock_attach_platforms in Hattach.
  apply bind_returns in Hrun as (tweet_ids & c8 & Htweets & Hrun).
  apply bind_returns in Hrun as (shorts_ids & c9 & Hshorts & Hrun).
  cbn in Hc5, Hc6. unfold ret in Hc5, Hc6, Hrun.
  injection Hc5 as <- <-. injection Hc6 as _ <-. injection Hattach as _ <-.
  injection Hrun as <- <-. cbn [r_campaign_id r_content_ids].
  assert (Htw : Forall (eq 1) tweet_ids /\ c8 = c4).
  { destruct (mem "twitter" _).
    - destruct (mock_twitter_content ai request v 1 c4) as (ids & Hids & Hone).
      rewrite Hids in Htweets. by injection Htweets as <- <-.
    - by injection Htweets as <- <-. }
  destruct Htw as [Hone ->].
  assert (Hsh : Forall (eq 1) shorts_ids /\ c9 = c4).
  { destruct (mem "shorts" _).
    - destruct (mock_shorts_content ai request v 1 c4) as (ids & Hids & Hone').
      rewrite Hids in Hshorts. by injection Hshorts as <- <-.
    - by injection Hshorts as <- <-. }
  destruct Hsh as [Hone' ->].
  split; [done|]. split; [by apply Forall_app|]. by subst c4 c3 c2 c1.
Qed.

(** X17. [main.py] imports [auto_campaign_service], whose helpers return the
    id 1 and write nothing.  A campaign request that succeeds is therefore
    answered with the campaign id 1 and content ids that are all 1, and it
    leaves no campaign row, no platform row and no content row behind. *)
Theorem imported_helpers_write_no_campaign
    (ai : AIService) (faults : Faults) (request : AutoCampaignRequest)
    (v : Resolved) (db db' : Database) (r : AutoCampaignResponse) :
  run_transaction faults (transaction auto_campaign_service ai faults request v) db
  = (Returns r, db') ->
  r_campaign_id r = 1
  /\ Forall (eq 1) (r_content_ids r)
  /\ campaign_tables db' = campaign_tables db.
Proof.
  unfold run_transaction, transaction, bind.
  destruct (assemble auto_campaign_service ai faults request v (connect db))
    as [[r1|e] conn1] eqn:Hasm; [|by destruct (faults SRollback)].
  apply mock_assemble in Hasm as (Hid & Hids & Htables).
  unfold do_commit, execute, ret.
  destruct (faults SCommit); [by destruct (faults SRollback)|].
  destruct (faults SCursorClose); [by destruct (faults SRollback)|].
  cbn. intros [= <- <-]. by rewrite Htables.
Qed.

Lemma imported_helpers_write_no_campaign_witness :
  r_campaign_id (mkAutoCampaignResponse 1 7 1 1 1 [1; 1; 1]) = 1
  /\ Forall (eq 1) (r_content_ids (mkAutoCampaignResponse 1 7 1 1 1 [1; 1; 1]))
  /\ campaign_tables
       (run_transaction no_faults
          (transaction auto_campaign_service echo_ai no_faults
             twitter_shorts_video resolved_offer) one_offer).2
     = campaign_tables one_offer.
Proof.
  exact (imported_helpers_write_no_campaign echo_ai no_faults twitter_shorts_video
           resolved_offer one_offer _ _ eq_refl).
Defined.

End CampaignFacts.

(** ** The text helpers ([ai_service.py]) *)
Module AI.

Import PyStr.

(** [s[:n]]. *)
Abbreviation prefix := Campaign.prefix.

Definition newline : string := Campaign.newline.

(** [generate_tweet_text(seed_text, cta_link=None)]. *)
Definition generate_tweet_text (seed_text : string) (cta_link : option string)
    : string :=
  let base := strip seed_text in
  let text :=
    match Campaign.or_none cta_link with
    | Some link => strip (prefix 240 base +:+ " " +:+ link)
    | None => prefix 280 base
    end in
  prefix 280 text.

(** [generate_shorts_caption(script_text, cta_link=None)]. *)
Definition generate_shorts_caption (script_text : string)
    (cta_link : option string) : string :=
  let base := strip script_text in
  let caption := strip (prefix 160 base) in
  let caption :=
    match Campaign.or_none cta_link with
    | Some link => strip (caption +:+ newline +:+ link)
    | None => caption
    end in
  prefix 220 caption.

Section Bedrock.

(** [_call_bedrock(prompt)]: the prompts are fixed, so a call is its answer,
    or the exception it raises. *)
Variable _call_bedrock : outcome string string.

(** [json.loads]. *)
Variable loads : string -> outcome string Webhook.json.

(** [generate_video_caption(script_text, cta_link)]. *)
Definition generate_video_caption (script_text cta_link : string) : string :=
  let fallback := "Watch how to solve this in 60s. Learn more: " +:+ cta_link in
  match _call_bedrock with
  | Raises _ => fallback
  | Returns answer =>
    let text := strip answer in
    let text :=
      if negb (Webhook.is_infix cta_link text)
      then
        let room := Z.max 0 (160 - 1 - Z.of_nat (String.length cta_link)) in
        let base := rstrip (prefix (Z.to_nat room) text) in
        strip (base +:+ (if truthy base then " " else "") +:+ cta_link)
      else text in
    if truthy text then text else fallback
  end.

(** [generate_pain_point_from_offer(title, description)].  The [try] block
    returns only when the answer parses to an object whose [pain_point] is a
    string that is not blank; a missing member reads as [''], and anything
    else raises inside the block ([.get] or [.strip] on a value that has
    none), which the [except] swallows. *)
Definition generate_pain_point_from_offer (title description : string)
    : string :=
  let fallback :=
    let base := if truthy (strip title) then strip title
                else "your current marketing" in
    "Struggling to get results from " +:+ base in
  match _call_bedrock with
  | Raises _ => fallback
  | Returns ai_text =>
    match loads ai_text with
    | Raises _ => fallback
    | Returns data =>
      match (if Webhook.json_truthy data then data else Webhook.JObj []) with
      | Webhook.JObj members =>
        match default (Webhook.JStr "") (Webhook.lookup "pain_point" members) with
        | Webhook.JStr s =>
          let pain := strip s in
          if truthy pain then pain else fallback
        | _ => fallback
        end
      | _ => fallback
      end
    end
  end.

End Bedrock.

Example tweet_with_link :
  generate_tweet_text "  Buy now.  " (Some "https://x.example/o")
  = "Buy now. https://x.example/o".
Proof. reflexivity. Qed.

Example caption_added_link :
  generate_video_caption (Returns " See this ") "s" "https://x.example/o"
  = "See this https://x.example/o".
Proof. reflexivity. Qed.

Example pain_point_fallback :
  generate_pain_point_from_offer (Returns "") (fun _ => Raises "Expecting value")
    " Growth kit " "d"
  = "Struggling to get results from Growth kit".
Proof. reflexivity. Qed.

(** *** Slices and strips *)

Lemma prefix_length (n : nat) (s : string) : (String.length (prefix n s) <= n)%nat.
Proof.
  unfold Campaign.prefix. revert s.
  induction n as [|n IH]; intros [|c s]; cbn; try lia.
  specialize (IH s). lia.
Qed.

Lemma prefix_all (n : nat) (s : string) :
  (String.length s <= n)%nat -> prefix n s = s.
Proof.
  unfold Campaign.prefix. revert s.
  induction n as [|n IH]; intros [|c s]; cbn; try done; try lia.
  intros Hlen. by rewrite IH by lia.
Qed.

Lemma append_length (a b : string) :
  String.length (a +:+ b) = (String.length a + String.length b)%nat.
Proof.
  induction a as [|x a IH]; [done|].
  rewrite Reddit.append_cons. cbn [String.length]. by rewrite IH.
Qed.

Lemma lstrip_length (s : string) :
  (String.length (lstrip s) <= String.length s)%nat.
Proof.
  induction s as [|c s IH]; [done|]. cbn [lstrip].
  destruct (is_space c); cbn; lia.
Qed.

Lemma rstrip_length (s : string) :
  (String.length (rstrip s) <= String.length s)%nat.
Proof.
  induction s as [|c s IH]; [done|]. cbn [rstrip].
  destruct (rstrip s); [destruct (is_space c)|]; cbn in *; lia.
Qed.

Lemma strip_length (s : string) :
  (String.length (strip s) <= String.length s)%nat.
Proof.
  unfold strip. pose proof (rstrip_length (lstrip s)).
  pose proof (lstrip_length s). lia.
Qed.

Lemma lstrip_same_length (s : string) :
  String.length (lstrip s) = String.length s -> lstrip s = s.
Proof.
  destruct s as [|c s]; [done|]. cbn [lstrip].
  destruct (is_space c); [|done].
  pose proof (lstrip_length s). cbn. lia.
Qed.

Lemma rstrip_same_length (s : string) :
  String.length (rstrip s) = String.length s -> rstrip s = s.
Proof.
  induction s as [|c s IH]; [done|]. cbn [rstrip].
  pose proof (rstrip_length s) as Hlen.
  destruct (rstrip s) as [|d r] eqn:Hr.
  - destruct (is_space c); cbn; [lia|].
    intros Heq. destruct s; [done|]. cbn in Heq. lia.
  - cbn. intros Heq. rewrite IH; [done|]. cbn in *. lia.
Qed.

(** A stripped string is left alone by both halves of [strip]. *)
Lemma strip_fixed (s : string) :
  strip s = s -> lstrip s = s /\ rstrip s = s.
Proof.
  unfold strip. intros Hs.
  pose proof (rstrip_length (lstrip s)) as Hr.
  pose proof (lstrip_length s) as Hl.
  assert (Hls : lstrip s = s).
  { apply lstrip_same_length. rewrite Hs in Hr. lia. }
  split; [done|]. by rewrite Hls in Hs.
Qed.

Lemma append_empty (s : string) : s +:+ "" = s.
Proof.
  induction s as [|c s IH]; [done|]. by rewrite Reddit.append_cons, IH.
Qed.

Lemma append_truthy (a b : string) : truthy b = true -> truthy (a +:+ b) = true.
Proof. intros Hb. destruct a; [|done]. by rewrite Reddit.append_nil. Qed.

(** [strip] leaves a stripped, non-empty end of a string where it is. *)
Lemma rstrip_app (a l : string) :
  truthy l = true -> rstrip l = l -> rstrip (a +:+ l) = a +:+ l.
Proof.
  intros Hl Hr. induction a as [|x a IH]; [by rewrite Reddit.append_nil|].
  rewrite Reddit.append_cons. cbn [rstrip]. rewrite IH.
  pose proof (append_truthy a l Hl). by destruct (a +:+ l).
Qed.

Lemma lstrip_app (a l : string) :
  lstrip l = l -> exists y, lstrip (a +:+ l) = y +:+ l.
Proof.
  intros Hl. induction a as [|x a [y IH]].
  - exists "". by rewrite !Reddit.append_nil.
  - rewrite Reddit.append_cons. cbn [lstrip].
    destruct (is_space x); [by exists y|]. by exists (String x a).
Qed.

Lemma strip_app (a l : string) :
  truthy l = true -> strip l = l -> exists y, strip (a +:+ l) = y +:+ l.
Proof.
  intros Hl [Hls Hrs]%strip_fixed.
  destruct (lstrip_app a l Hls) as [y Hy]. exists y.
  unfold strip. rewrite Hy. by apply rstrip_app.
Qed.

Lemma rstrip_idem (s : string) : rstrip (rstrip s) = rstrip s.
Proof.
  induction s as [|c s IH]; [done|]. cbn [rstrip].
  destruct (rstrip s) as [|d r] eqn:Hr.
  - destruct (is_space c) eqn:Hc; [done|]. cbn. by rewrite Hc.
  - cbn [rstrip] in *. rewrite IH. by destruct r.
Qed.

(** What [rstrip] returns starts the way its argument does. *)
Lemma rstrip_lstrip (s : string) : lstrip s = s -> lstrip (rstrip s) = rstrip s.
Proof.
  destruct s as [|c s]; [done|]. cbn [lstrip rstrip].
  destruct (is_space c) eqn:Hc.
  - intros Heq. pose proof (lstrip_length s) as Hlen.
    rewrite Heq in Hlen. cbn in Hlen. lia.
  - intros _. destruct (rstrip s); cbn [lstrip]; by rewrite Hc.
Qed.

Lemma lstrip_idem (s : string) : lstrip (lstrip s) = lstrip s.
Proof.
  induction s as [|c s IH]; [done|]. cbn [lstrip].
  destruct (is_space c) eqn:Hc; [done|]. cbn [lstrip]. by rewrite Hc.
Qed.

Lemma strip_idem (s : string) : strip (strip s) = strip s.
Proof.
  unfold strip. rewrite (rstrip_lstrip (lstrip s)) by apply lstrip_idem.
  apply rstrip_idem.
Qed.

(** *** What the helpers return *)

(** The tweet text has at most 280 characters and the Shorts caption at
    most 220, whatever the seed text and the link are. *)
Theorem generated_texts_fit (seed_text : string) (cta_link : option string) :
  (String.length (generate_tweet_text seed_text cta_link) <= 280)%nat
  /\ (String.length (generate_shorts_caption seed_text cta_link) <= 220)%nat.
Proof. split; apply prefix_length. Qed.

(** X18. A link of at most 39 characters without surrounding blanks is kept
    whole: the tweet text ends with it.  (A longer link can be cut by the
    final slice.) *)
Theorem tweet_text_keeps_short_link (seed_text link : string) :
  truthy link = true -> strip link = link ->
  (String.length link <= 39)%nat ->
  exists before, generate_tweet_text seed_text (Some link) = before +:+ link.
Proof.
  intros Hlink Hstripped Hshort. unfold generate_tweet_text.
  cbn [Campaign.or_none]. rewrite Hlink.
  pose proof (strip_length (prefix 240 (strip seed_text) +:+ " " +:+ link)) as Hlen.
  rewrite <- Reddit.append_assoc in *.
  destruct (strip_app (prefix 240 (strip seed_text) +:+ " ") link Hlink Hstripped)
    as [before Hbefore].
  exists before. rewrite <- Hbefore. apply prefix_all.
  rewrite !append_length in Hlen.
  pose proof (prefix_length 240 (strip seed_text)). cbn in Hlen. lia.
Qed.

(** A long link is cut. *)
Example tweet_text_cuts_long_link :
  let link := "https://x.example/a-very-long-landing-page-address" in
  generate_tweet_text
    (String.concat "" (List.repeat "0123456789" 24)) (Some link)
  = String.concat "" (List.repeat "0123456789" 24)
    +:+ " https://x.example/a-very-long-landing-p".
Proof. vm_compute. reflexivity. Qed.

(** X19. The video caption contains the link, if the link has no surrounding
    blanks: in the answer of the model, appended to it, or in the fallback
    sentence. *)
Theorem video_caption_contains_link
    (_call_bedrock : outcome string string) (script_text cta_link : string) :
  strip cta_link = cta_link ->
  Webhook.is_infix cta_link
    (generate_video_caption _call_bedrock script_text cta_link) = true.
Proof.
  intros Hstripped.
  assert (Hself : Webhook.is_infix cta_link cta_link = true).
  { apply Reddit.is_infix_prefix.
    pose proof (Reddit.prefix_app cta_link "") as Hp.
    by rewrite append_empty in Hp. }
  assert (Hend : forall before, Webhook.is_infix cta_link (before +:+ cta_link) = true)
    by (intros before; by apply Reddit.is_infix_app_l).
  unfold generate_video_caption. destruct _call_bedrock as [answer|e]; [|apply Hend].
  destruct (Webhook.is_infix cta_link (strip answer)) eqn:Hin; cbn [negb].
  - destruct (truthy (strip answer)); [done|apply Hend].
  - assert (Hlink : truthy cta_link = true).
    { destruct cta_link; [|done]. by destruct (strip answer). }
    match goal with
    | |- context [strip (?base +:+ ?sep +:+ cta_link)] =>
      rewrite <- (Reddit.append_assoc base sep cta_link);
      destruct (strip_app (base +:+ sep) cta_link Hlink Hstripped) as [y ->]
    end.
    rewrite (append_truthy y cta_link Hlink). apply Hend.
Qed.

(** A link with a trailing blank is not in the caption. *)
Example video_caption_loses_padded_link :
  Webhook.is_infix "https://x.example/o "
    (generate_video_caption (Returns "See this") "s" "https://x.example/o ")
  = false.
Proof. vm_compute. reflexivity. Qed.

(** X20. The pain point is never empty and has no surrounding blanks, whatever
    the model answers and whether or not its answer parses. *)
Theorem pain_point_is_never_empty
    (_call_bedrock : outcome string string)
    (loads : string -> outcome string Webhook.json)
    (title description : string) :
  let pain := generate_pain_point_from_offer _call_bedrock loads title description in
  truthy pain = true /\ strip pain = pain.
Proof.
  assert (Hfallback :
            let base := if truthy (strip title) then strip title
                        else "your current marketing" in
            truthy ("Struggling to get results from " +:+ base) = true
            /\ strip ("Struggling to get results from " +:+ base)
               = "Struggling to get results from " +:+ base).
  { intros base. split; [done|].
    assert (Hbase : truthy base = true /\ rstrip base = base).
    { subst base. destruct (truthy (strip title)) eqn:Ht; [|done].
      split; [done|]. apply (strip_fixed (strip title)), strip_idem. }
    destruct Hbase as [Ht Hr]. unfold strip.
    change (lstrip ("Struggling to get results from " +:+ base))
      with ("Struggling to get results from " +:+ base).
    by apply rstrip_app. }
  cbv zeta in Hfallback. intros pain. subst pain.
  unfold generate_pain_point_from_offer.
  destruct _call_bedrock as [ai_text|]; [|exact Hfallback].
  destruct (loads ai_text) as [data|]; [|exact Hfallback].
  destruct (if Webhook.json_truthy data then data else Webhook.JObj []);
    try exact Hfallback.
  destruct (default (Webhook.JStr "") (Webhook.lookup "pain_point" members));
    try exact Hfallback.
  destruct (truthy (strip s)) eqn:Hs; [|exact Hfallback].
  split; [done|apply strip_idem].
Qed.

Lemma tweet_text_keeps_short_link_witness :
  exists before,
    generate_tweet_text "  Buy now.  " (Some "https://x.example/o")
    = before +:+ "https://x.example/o".
Proof.
  apply (tweet_text_keeps_short_link "  Buy now.  " "https://x.example/o");
    [reflexivity|reflexivity|cbn; lia].
Defined.

Lemma video_caption_contains_link_witness :
  Webhook.is_infix "https://x.example/o"
    (generate_video_caption (Returns " See this ") "s" "https://x.example/o")
  = true.
Proof.
  exact (video_caption_contains_link (Returns " See this ") "s"
           "https://x.example/o" eq_refl).
Defined.

(** *** The pain point of a campaign *)

(** X21. [create_auto_campaign] takes [request.pain_point or
    ai_service.generate_pain_point_from_offer(...)]: with this module as the
    text collaborator, the pain point text that goes into the transaction is
    never empty. *)
Theorem campaign_pain_point_is_not_empty
    (ai : Campaign.AIService) (request : Campaign.AutoCampaignRequest)
    (db db' : Campaign.Database) (v : Campaign.Resolved) :
  (forall title description, exists _call_bedrock loads,
      Campaign.generate_pain_point_from_offer ai title description
      = Returns (generate_pain_point_from_offer _call_bedrock loads
                   title description)) ->
  Campaign.resolve ai request db = (Returns v, db') ->
  truthy (Campaign.v_pain_point_text v) = true.
Proof.
  intros Hai.
  assert (Hpain : forall title description t,
             match Campaign.or_none (Campaign.pain_point request) with
             | Some t => Returns t
             | None => Campaign.generate_pain_point_from_offer ai title description
             end = Returns t (E := string) ->
             truthy t = true).
  { intros title description t.
    destruct (Campaign.pain_point request) as [given|]; cbn [Campaign.or_none].
    - destruct (truthy given) eqn:Hgiven; [by intros [= <-]|].
      destruct (Hai title description) as (bedrock & loads & ->).
      intros [= <-]. apply pain_point_is_never_empty.
    - destruct (Hai title description) as (bedrock & loads & ->).
      intros [= <-]. apply pain_point_is_never_empty. }
  assert (Hfinish : forall row (cta : option string) (db1 : Campaign.Database),
             match
               match Campaign.or_none (Campaign.pain_point request) with
               | Some t => Returns t
               | None =>
                 Campaign.generate_pain_point_from_offer ai (Campaign.o_title row)
                   (Campaign.or_empty (Campaign.o_description row))
               end
             with
             | Raises e => (Raises (mkHTTPException 500 e), db1)
             | Returns pain_point_text =>
               (Returns
                  (Campaign.mkResolved (Campaign.o_offer_id row)
                     (Campaign.o_title row)
                     (Campaign.or_empty (Campaign.o_description row)) cta
                     (Campaign.or_else (Campaign.persona request) "general")
                     pain_point_text
                     match Campaign.or_none (Campaign.override_script_text request) with
                     | Some t => t
                     | None =>
                       match
                         Campaign.generate_script_from_pain_point ai pain_point_text
                           (Campaign.or_else (Campaign.persona request) "general")
                       with
                       | Returns t => t
                       | Raises _ =>
                         Campaign.fallback_script (Campaign.o_title row)
                           (Campaign.or_empty (Campaign.o_description row)) cta
                       end
                     end), db1)
             end = (Returns v, db') ->
             truthy (Campaign.v_pain_point_text v) = true).
  { intros row cta db1.
    match goal with
    | |- context [match ?x with Returns _ => _ | Raises _ => _ end = _] =>
      destruct x as [t|] eqn:Ht; [|discriminate]
    end.
    apply Hpain in Ht. by intros [= <- _]. }
  unfold Campaign.resolve.
  destruct (match Campaign.offer_id request with
            | Some id => if id =? 0 then None else Some id
            | None => None
            end) as [id|].
  - destruct (Campaign.select_offer id db) as [row|]; [|done]. apply Hfinish.
  - destruct (Campaign.or_none (Campaign.offer_title request)),
      (Campaign.or_none (Campaign.offer_description request)); try done;
      match goal with
      | |- context [let (_, _) := ?x in _] => destruct x
      end; apply Hfinish.
Qed.

(** The collaborator made of this module's helpers, with a model that
    answers [answer] and a script generator that is out of order. *)
Definition ai_service (answer : outcome string string)
    (loads : string -> outcome string Webhook.json) : Campaign.AIService :=
  Campaign.mkAIService
    (fun title description =>
       Returns (generate_pain_point_from_offer answer loads title description))
    (fun _ _ => Raises "model unavailable")
    (fun seed_text cta_link => Returns (generate_tweet_text seed_text cta_link))
    (fun script_text cta_link =>
       Returns (generate_shorts_caption script_text cta_link)).

Lemma campaign_pain_point_is_not_empty_witness :
  truthy (Campaign.v_pain_point_text
            (Campaign.mkResolved 7 "Offer" "An offer" (Some "https://example.com")
               "general" "Struggling to get results from Offer"
               ("An offer" +:+ newline +:+ newline
                +:+ "Learn more: https://example.com")))
  = true.
Proof.
  refine (campaign_pain_point_is_not_empty
            (ai_service (Returns "") (fun _ => Raises "Expecting value"))
            Campaign.twitter_shorts_video Campaign.one_offer Campaign.one_offer
            _ _ eq_refl).
  intros title description.
  by exists (Returns ""), (fun _ => Raises "Expecting value").
Defined.

End AI.

(** ** Issuing the authorization URL ([twitter_integration.py],
    [twitter_oauth1_integration.py], [main.py]) *)
Module TwitterAuth.

Import Byte PyStr OAuth.

(** [PlatformConfig], as far as the routes read it. *)
Record PlatformConfig : Type := mkPlatformConfig {
  client_id : option string;
  client_secret : option string;
  webhook_url : option string
}.

(** [TwitterAuthURLResponse]. *)
Record TwitterAuthURLResponse : Type := mkTwitterAuthURLResponse {
  authorization_url : string;
  resp_state : string
}.

(** What one call draws from outside: [secrets.token_bytes(32)],
    [secrets.token_bytes(16)] and the clock. *)
Record Drawn : Type := mkDrawn {
  verifier_bytes : list byte;
  state_bytes : list byte;
  now : Z
}.

Section Issue.

(** [hashlib.sha256(m).digest()]. *)
Variable sha256 : list byte -> list byte.

(** oauthlib's [prepare_request_uri] followed by the re-encoding of the
    query: the URL for a redirect address, scopes, state and challenge. *)
Variable prepare_request_uri : string -> list string -> string -> string -> string.

(** [demo_flags.DEMO_MODE]. *)
Variable DEMO_MODE : bool.

(** [str(e)] for an [HTTPException]. *)
Variable str_of_exception : HTTPException -> string.

(** [TwitterPlatform.build_authorization_url]; [Raises] carries the message
    of the [ValidationError]. *)
Definition build_authorization_url (config : PlatformConfig)
    (scopes : option (list string))
    (redirect_uri state code_challenge : option string) (drawn : Drawn)
    : outcome string (string * TwitterAuthState) :=
  let scopes := match scopes with
                | Some (s :: rest) => s :: rest
                | _ => ["tweet.read"; "users.read"]
                end in
  let redirect :=
    Campaign.or_else redirect_uri (Campaign.or_empty (webhook_url config)) in
  if negb (truthy redirect)
  then Raises "redirect_uri is required (use config.webhook_url or pass explicitly)"
  else
    let (code_verifier, computed_challenge) :=
      PKCE.generate_pkce_pair sha256 (verifier_bytes drawn) in
    let challenge := Campaign.or_else code_challenge computed_challenge in
    let session_state :=
      Campaign.or_else state
        (PKCE.rstrip "=" (PKCE.urlsafe_b64encode (state_bytes drawn))) in
    Returns (prepare_request_uri redirect scopes session_state challenge,
             mkTwitterAuthState code_verifier challenge session_state (now drawn)).

(** [get_twitter_authorization_url()]; [cfg] is what
    [load_platform_config_from_env] gave. *)
Definition get_twitter_authorization_url (cfg : outcome string PlatformConfig)
    (drawn : Drawn) (w : World)
    : outcome HTTPException TwitterAuthURLResponse * World :=
  match cfg with
  | Raises e => (Raises (internal_error e), w)
  | Returns cfg =>
    match build_authorization_url cfg (Some ["tweet.read"; "users.read"])
            (webhook_url cfg) None None drawn with
    | Raises e => (Raises (internal_error e), w)
    | Returns (url, auth_state) =>
      (Returns (mkTwitterAuthURLResponse url (state auth_state)),
       store_session auth_state w)
    end
  end.

(** [TwitterOAuth1Platform.get_request_token]. *)
Definition get_request_token : outcome string (string * TwitterOAuth1State) :=
  if DEMO_MODE then Raises "External auth disabled in demo."
  else Raises "OAuth 1.0a not fully implemented".

(** [get_twitter_oauth1_authorization_url()].  Its one handler,
    [except Exception], also takes the [HTTPException] raised for missing
    keys. *)
Definition get_twitter_oauth1_authorization_url
    (cfg : outcome string PlatformConfig) (w : World)
    : outcome HTTPException TwitterAuthURLResponse * World :=
  match cfg with
  | Raises e => (Raises (internal_error e), w)
  | Returns cfg =>
    if negb (truthy (Campaign.or_empty (client_id cfg)))
       || negb (truthy (Campaign.or_empty (client_secret cfg)))
    then
      (Raises (internal_error
                 (str_of_exception
                    (mkHTTPException 500
                       "Twitter API Key and Secret are required for OAuth 1.0a. Set TWITTER_CLIENT_ID and TWITTER_CLIENT_SECRET."))),
       w)
    else
      match get_request_token with
      | Raises e => (Raises (internal_error e), w)
      | Returns (url, auth_state) =>
        (Returns (mkTwitterAuthURLResponse url (oauth_token auth_state)),
         store_session1 auth_state w)
      end
  end.

(** A request to one of the two legacy endpoints. *)
Inductive LegacyRequest : Type :=
| GetUrl (cfg : outcome string PlatformConfig)
| Callback (ext : Collaborators) (token verifier : string).

(** The status code of the answer: 200, or that of the exception. *)
Definition answer_code {A : Type} (r : outcome HTTPException A) : Z :=
  match r with
  | Returns _ => 200
  | Raises e => status_code e
  end.

Definition legacy_step (request : LegacyRequest) (w : World) : Z * World :=
  match request with
  | GetUrl cfg =>
    let r := get_twitter_oauth1_authorization_url cfg w in (answer_code r.1, r.2)
  | Callback ext token verifier =>
    let r := twitter_oauth1_callback ext token verifier w in (answer_code r.1, r.2)
  end.

(** The requests in the order they arrive; the answers in the same order. *)
Fixpoint legacy_run (requests : list LegacyRequest) (w : World)
    : list Z * World :=
  match requests with
  | [] => ([], w)
  | request :: rest =>
    let (code, w1) := legacy_step request w in
    let (codes, w2) := legacy_run rest w1 in
    (code :: codes, w2)
  end.

(** *** The PKCE flow *)

(** X22. A URL request that is answered has stored a session under the state it
    returns.  The state has 22 characters, the session holds the verifier
    made from the 32 drawn bytes and the S256 challenge of that verifier, and
    a callback that presents the state sends this verifier in its token
    exchange and removes the session. *)
Theorem issued_session_round_trip
    (config : PlatformConfig) (drawn : Drawn) (w w' : World)
    (response : TwitterAuthURLResponse) (ext : Collaborators) (code : string) :
  List.length (state_bytes drawn) = 16%nat ->
  get_twitter_authorization_url (Returns config) drawn w = (Returns response, w') ->
  load_platform_config_from_env ext = Returns () ->
  let verifier := PKCE.rstrip "=" (PKCE.urlsafe_b64encode (verifier_bytes drawn)) in
  let after := (twitter_oauth_callback ext code (resp_state response) w').2 in
  String.length (resp_state response) = 22%nat
  /\ (exists auth_state,
         _twitter_oauth_sessions w' !! resp_state response = Some auth_state
         /\ code_verifier auth_state = verifier
         /\ code_challenge auth_state
            = PKCE.rstrip "="
                (PKCE.urlsafe_b64encode (sha256 (PKCE.encode_utf8 verifier))))
  /\ In (ExchangeCodeForToken code verifier) (calls after)
  /\ _twitter_oauth_sessions after !! resp_state response = None.
Proof.
  intros Hbytes Hissue Hcfg verifier after.
  unfold get_twitter_authorization_url, build_authorization_url in Hissue.
  destruct (negb _); [done|].
  unfold PKCE.generate_pkce_pair in Hissue. cbn in Hissue.
  injection Hissue as <- <-. cbn [resp_state state] in *.
  set (st := PKCE.rstrip "=" (PKCE.urlsafe_b64encode (state_bytes drawn))) in *.
  set (auth_state := mkTwitterAuthState _ _ st _) in *.
  assert (Hstored : _twitter_oauth_sessions (store_session auth_state w) !! st
                    = Some auth_state) by apply lookup_insert_eq.
  split.
  { subst st. destruct (PKCE.stripped_encoding (state_bytes drawn)) as [_ ->].
    by rewrite Hbytes. }
  split; [by exists auth_state|]. split.
  - subst after. unfold twitter_oauth_callback. rewrite Hstored, Hcfg.
    cbn [code_verifier auth_state].
    destruct (exchange_code_for_token ext code _); [|by left].
    destruct (users_me ext) as [[sc text]|]; [|by right; left].
    destruct (negb (sc =? 200)); [by right; left|].
    destruct (read_user_info ext text); [|by right; left].
    destruct (persist_account ext); by right; right; left.
  - subst after. erewrite callback_pops by exact Hstored. apply lookup_delete_eq.
Qed.

(** X23. A callback touches no session but the one it was given: every other
    PKCE session and the whole legacy store are as before. *)
Theorem callback_keeps_other_sessions
    (ext : Collaborators) (code st other : string) (w : World) :
  other <> st ->
  let after := (twitter_oauth_callback ext code st w).2 in
  _twitter_oauth_sessions after !! other = _twitter_oauth_sessions w !! other
  /\ _twitter_oauth1_sessions after = _twitter_oauth1_sessions w.
Proof.
  intros Hother after. subst after.
  destruct (_twitter_oauth_sessions w !! st) as [auth_state|] eqn:Hst.
  - split.
    + erewrite callback_pops by exact Hst. by apply lookup_delete_ne.
    + unfold twitter_oauth_callback. rewrite Hst.
      destruct (load_platform_config_from_env ext); [|done].
      destruct (exchange_code_for_token ext code _); [|done].
      destruct (users_me ext) as [[sc text]|]; [|done].
      destruct (negb (sc =? 200)); [done|].
      destruct (read_user_info ext text); [|done].
      by destruct (persist_account ext).
  - by rewrite callback_absent.
Qed.

(** *** The legacy flow *)

Lemma legacy_url_raises (cfg : outcome string PlatformConfig) (w : World) :
  exists e, get_twitter_oauth1_authorization_url cfg w = (Raises e, w)
            /\ status_code e = 500.
Proof.
  unfold get_twitter_oauth1_authorization_url, get_request_token.
  destruct cfg as [cfg|]; [|by eexists].
  destruct (_ || _); [by eexists|]. destruct DEMO_MODE; by eexists.
Qed.

(** X24. The legacy store is never filled: the URL request, the only place that
    stores a legacy session, always fails.  Starting from an empty store,
    every URL request is answered 500 and every callback 400, whatever the
    requests are and in whatever order they come, and the store stays
    empty: no token exchange is attempted and no account is stored. *)
Theorem legacy_flow_never_connects (requests : list LegacyRequest) (w : World) :
  _twitter_oauth1_sessions w = ∅ ->
  let (codes, w') := legacy_run requests w in
  w' = w
  /\ codes = map (fun request => match request with
                                 | GetUrl _ => 500
                                 | Callback _ _ _ => 400
                                 end) requests.
Proof.
  intros Hempty. induction requests as [|request rest IH]; [done|].
  cbn [legacy_run map].
  assert (Hstep : legacy_step request w
                  = (match request with
                     | GetUrl _ => 500
                     | Callback _ _ _ => 400
                     end, w)).
  { destruct request as [cfg|ext token verifier]; cbn [legacy_step].
    - destruct (legacy_url_raises cfg w) as (e & -> & He). cbn. by rewrite He.
    - rewrite callback1_absent; [done|]. by rewrite Hempty. }
  rewrite Hstep. destruct (legacy_run rest w) as [codes w'].
  destruct IH as [-> ->]. done.
Qed.

End Issue.

(** *** Runs *)

Definition configured : PlatformConfig :=
  mkPlatformConfig (Some "client") (Some "secret")
    (Some "https://app.example.com/auth/x/callback").

Definition drawn_bytes : Drawn := mkDrawn (repeat xff 32) (repeat x00 16) 1000.

Definition plain_url (redirect : string) (scopes : list string)
    (state challenge : string) : string :=
  "https://auth.example.com/i/oauth2/authorize?state=" +:+ state.

Lemma issued_session_round_trip_witness :
  String.length
    (resp_state
       (mkTwitterAuthURLResponse
          "https://auth.example.com/i/oauth2/authorize?state=AAAAAAAAAAAAAAAAAAAAAA"
          "AAAAAAAAAAAAAAAAAAAAAA")) = 22%nat.
Proof.
  exact (proj1 (issued_session_round_trip PKCE.zero_digest plain_url configured
                  drawn_bytes (mkWorld ∅ ∅ []) _ _ rejecting "code-1"
                  eq_refl eq_refl eq_refl)).
Defined.

Lemma callback_keeps_other_sessions_witness :
  _twitter_oauth1_sessions
    (twitter_oauth_callback rejecting "code-1" "state-1" world0).2
  = _twitter_oauth1_sessions world0.
Proof.
  refine (proj2 (callback_keeps_other_sessions rejecting "code-1" "state-1"
                   "state-2" world0 _)).
  discriminate.
Defined.

Lemma legacy_flow_never_connects_witness :
  legacy_run false (fun e => detail e)
    [GetUrl (Returns configured); Callback rejecting "token-1" "v-1";
     GetUrl (Raises "no environment")]
    (mkWorld ∅ ∅ [])
  = ([500; 400; 500], mkWorld ∅ ∅ []).
Proof.
  pose proof (legacy_flow_never_connects false (fun e => detail e)
                [GetUrl (Returns configured); Callback rejecting "token-1" "v-1";
                 GetUrl (Raises "no environment")]
                (mkWorld ∅ ∅ []) eq_refl) as Hrun.
  destruct (legacy_run _ _ _ _) as [codes w'].
  destruct Hrun as [-> ->]. reflexivity.
Defined.

End TwitterAuth.

(** ** The platform registry ([social_media_service.py]) *)
Module SocialMedia.

Import PyStr.

(** The [SocialMediaError] hierarchy, as far as the service raises it, and
    whatever a platform raises. *)
Inductive Error : Type :=
| ValidationError (msg : string)
| PlatformError (msg : string).

(** A [datetime]: its date and time fields, as the microseconds since
    [datetime.min], and whether it is aware, that is carries a time zone.
    [TwitterPlatform] stores [datetime.now(timezone.utc) + ...], which
    does. *)
Record Datetime : Type := mkDatetime {
  microseconds : Z;
  aware : bool
}.

(** [timedelta(seconds=60)]. *)
Definition sixty_seconds : Z := 60000000.

(** [PlatformConfig], as far as the service reads it. *)
Record PlatformConfig : Type := mkPlatformConfig {
  platform_name : string;
  token_expires_at : option Datetime
}.

(** [PostResult]. *)
Record PostResult : Type := mkPostResult {
  platform : string;
  post_id : string;
  url : option string;
  demo : bool
}.

(** A subclass of [SocialMediaPlatform]: what its [authenticate] and
    [post_content] answer for a configuration.  [authenticate] changes the
    tokens of the configuration; of these the service reads the expiry, so
    an [authenticate] that returns gives the new [token_expires_at]. *)
Record PlatformClass : Type := mkPlatformClass {
  authenticate : PlatformConfig -> outcome string (option Datetime);
  post_content : PlatformConfig -> string -> outcome string PostResult
}.

(** An instance: [platform_cls(config)].  The constructors keep the
    configuration and do not raise. *)
Record Instance : Type := mkInstance {
  cls : PlatformClass;
  config : PlatformConfig
}.

(** Calls made on instances, most recent first. *)
Inductive Call : Type :=
| Authenticate (key : string)
| PostContent (key : string) (content_text : string).

(** [SocialMediaService]: [_registry], [_instances], and the calls made. *)
Record Service : Type := mkService {
  _registry : gmap string PlatformClass;
  _instances : gmap string Instance;
  calls : list Call
}.

(** [SocialMediaService()]. *)
Definition new_service : Service := mkService ∅ ∅ [].

(** [SocialMediaPlatform.validate_config]. *)
Definition validate_config (i : Instance) : outcome Error unit :=
  if negb (truthy (platform_name (config i)))
  then Raises (ValidationError "platform_name is required")
  else Returns ().

(** [SocialMediaPlatform.is_token_expired]; [now] is [datetime.utcnow()]
    in microseconds since [datetime.min].  [expires - timedelta(seconds=60)]
    raises [OverflowError] when it would fall before [datetime.min], and
    [utcnow()] carries no time zone: comparing it with an expiry that
    carries one raises [TypeError]. *)
Definition is_token_expired (i : Instance) (now : Z) : outcome string bool :=
  match token_expires_at (config i) with
  | None => Returns false
  | Some expires =>
    if microseconds expires <? sixty_seconds
    then Raises "date value out of range"
    else if aware expires
    then Raises "can't compare offset-naive and offset-aware datetimes"
    else Returns (microseconds expires - sixty_seconds <=? now)
  end.

Definition register_platform (name : string) (platform_cls : PlatformClass)
    (s : Service) : Service :=
  mkService (<[lower name := platform_cls]> (_registry s)) (_instances s) (calls s).

Definition is_registered (name : string) (s : Service) : bool :=
  bool_decide (is_Some (_registry s !! lower name)).

Definition add_account (cfg : PlatformConfig) (s : Service)
    : outcome Error unit * Service :=
  let key := lower (platform_name cfg) in
  match _registry s !! key with
  | None =>
    (Raises (ValidationError ("Platform not registered: " +:+ platform_name cfg)), s)
  | Some platform_cls =>
    let instance := mkInstance platform_cls cfg in
    match validate_config instance with
    | Raises e => (Raises e, s)
    | Returns _ =>
      (Returns (), mkService (_registry s) (<[key := instance]> (_instances s))
                     (calls s))
    end
  end.

Definition get_platform (name : string) (s : Service) : outcome Error Instance :=
  match _instances s !! lower name with
  | Some instance => Returns instance
  | None => Raises (ValidationError ("No configured account for platform: " +:+ name))
  end.

Definition called (c : Call) (s : Service) : Service :=
  mkService (_registry s) (_instances s) (c :: calls s).

(** The instance after an [authenticate()] that set the expiry. *)
Definition refreshed (instance : Instance) (expires : option Datetime)
    : Instance :=
  mkInstance (cls instance)
    (mkPlatformConfig (platform_name (config instance)) expires).

(** [SocialMediaService.post].  The instance is a shared object: what
    [authenticate()] did to it is there for [post_content] and stays in
    [_instances]. *)
Definition post (DEMO_MODE : bool) (now : Z) (name content_text : string)
    (s : Service) : outcome Error PostResult * Service :=
  if DEMO_MODE
  then (Returns (mkPostResult name ("demo_post_" +:+ name +:+ "_123")
                   (Some ("https://redacted.example.com/" +:+ name +:+ "/demo_post_123"))
                   true), s)
  else
    match get_platform name s with
    | Raises e => (Raises e, s)
    | Returns instance =>
      let key := lower name in
      let authenticated : outcome Error Instance * Service :=
        match is_token_expired instance now with
        | Raises e => (Raises (PlatformError e), s)
        | Returns true =>
          let s1 := called (Authenticate key) s in
          match authenticate (cls instance) (config instance) with
          | Returns expires =>
            (Returns (refreshed instance expires),
             mkService (_registry s1)
               (<[key := refreshed instance expires]> (_instances s1)) (calls s1))
          | Raises e => (Raises (PlatformError e), s1)
          end
        | Returns false => (Returns instance, s)
        end in
      match authenticated with
      | (Raises e, s1) => (Raises e, s1)
      | (Returns instance, s1) =>
        (match post_content (cls instance) (config instance) content_text with
         | Returns r => Returns r
         | Raises e => Raises (PlatformError e)
         end, called (PostContent key content_text) s1)
      end
    end.

(** The operations that change the service. *)
Inductive Operation : Type :=
| Register (name : string) (platform_cls : PlatformClass)
| AddAccount (cfg : PlatformConfig)
| Post (DEMO_MODE : bool) (now : Z) (name content_text : string).

Definition step (op : Operation) (s : Service) : Service :=
  match op with
  | Register name platform_cls => register_platform name platform_cls s
  | AddAccount cfg => (add_account cfg s).2
  | Post DEMO_MODE now name content_text =>
    (post DEMO_MODE now name content_text s).2
  end.

Definition run (ops : list Operation) (s : Service) : Service :=
  fold_left (fun s op => step op s) ops s.

(** *** Lower-casing *)

Lemma lower_char_idem (c : ascii) : lower_char (lower_char c) = lower_char c.
Proof. destruct c as [[] [] [] [] [] [] [] []]; reflexivity. Qed.

Lemma lower_idem (s : string) : lower (lower s) = lower s.
Proof.
  induction s as [|c s IH]; [done|]. cbn [lower]. by rewrite lower_char_idem, IH.
Qed.

Lemma lower_truthy (s : string) : truthy (lower s) = truthy s.
Proof. by destruct s. Qed.

(** *** Accounts and the registry *)

(** What holds of a service however it was operated: every account is
    stored under the lower-cased name of its own configuration, that name is
    not empty, and the account's platform is registered. *)
Definition well_formed (s : Service) : Prop :=
  forall key instance,
    _instances s !! key = Some instance ->
    key = lower (platform_name (config instance))
    /\ truthy key = true
    /\ is_Some (_registry s !! key).

Lemma step_well_formed (op : Operation) (s : Service) :
  well_formed s -> well_formed (step op s).
Proof.
  intros Hs. destruct op as [name platform_cls|cfg|DEMO_MODE now name content_text];
    cbn [step].
  - intros key instance Hkey. cbn in Hkey.
    destruct (Hs key instance Hkey) as (Hname & Htruthy & Hreg).
    split; [done|]. split; [done|]. cbn [register_platform _registry].
    destruct (decide (lower name = key)) as [->|Hne].
    + by rewrite lookup_insert_eq.
    + by rewrite lookup_insert_ne.
  - unfold add_account.
    destruct (_registry s !! lower (platform_name cfg)) as [platform_cls|] eqn:Hreg;
      [|done].
    unfold validate_config. cbn [config].
    destruct (truthy (platform_name cfg)) eqn:Hname; cbn [negb snd]; [|done].
    intros key instance. cbn [_instances _registry].
    destruct (decide (lower (platform_name cfg) = key)) as [<-|Hne].
    + rewrite lookup_insert_eq. intros [= <-]. cbn [config].
      by rewrite lower_truthy, Hname, Hreg.
    + rewrite lookup_insert_ne by done. apply Hs.
  - unfold post, get_platform. destruct DEMO_MODE; [done|].
    destruct (_instances s !! lower name) as [instance|] eqn:Hinstance; [|done].
    destruct (is_token_expired instance now) as [[|]|]; [|done|done].
    destruct (authenticate (cls instance) (config instance)) as [expires|];
      [|done].
    intros key instance'. cbn [snd called _instances _registry].
    destruct (decide (lower name = key)) as [<-|Hne].
    + rewrite lookup_insert_eq. intros [= <-]. cbn [refreshed config platform_name].
      exact (Hs _ _ Hinstance).
    + rewrite lookup_insert_ne by done. apply Hs.
Qed.

(** X25. An account is only ever stored for a registered platform: after any
    sequence of registrations, account additions and posts on a fresh
    service, every stored account sits under the lower-cased, non-empty
    name of its configuration, and that name is registered. *)
Theorem accounts_are_registered (ops : list Operation) :
  well_formed (run ops new_service).
Proof.
  unfold run. rewrite <- fold_left_rev_right.
  induction (rev ops) as [|op rest IH]; [done|].
  cbn [fold_right]. by apply step_well_formed.
Qed.

(** X26. Names are matched without regard to case.  Once a platform is
    registered and an account was added for it under some spelling of its
    name, [get_platform] returns that account for every spelling; an account
    added later for the same platform takes its place. *)
Theorem account_lookup_ignores_case
    (cfg : PlatformConfig) (name : string) (s s' : Service) :
  add_account cfg s = (Returns (), s') ->
  lower name = lower (platform_name cfg) ->
  is_registered name s' = true
  /\ exists platform_cls,
       _registry s !! lower name = Some platform_cls
       /\ get_platform name s' = Returns (mkInstance platform_cls cfg).
Proof.
  intros Hadd Hname. unfold add_account in Hadd. rewrite <- Hname in Hadd.
  destruct (_registry s !! lower name) as [platform_cls|] eqn:Hreg; [|done].
  destruct (validate_config _); [|done]. injection Hadd as <-.
  split.
  - unfold is_registered. cbn [_registry]. rewrite Hreg. by apply bool_decide_eq_true.
  - exists platform_cls. split; [done|].
    unfold get_platform. cbn [_instances]. by rewrite lookup_insert_eq.
Qed.

(** Without an account there is no post, unless the service runs in demo
    mode: there [post] answers with a placeholder for any name at all, and
    in neither case is a platform called. *)
Theorem post_without_account (DEMO_MODE : bool) (now : Z)
    (name content_text : string) (s : Service) :
  _instances s !! lower name = None ->
  post DEMO_MODE now name content_text s
  = (if DEMO_MODE
     then Returns (mkPostResult name ("demo_post_" +:+ name +:+ "_123")
                     (Some ("https://redacted.example.com/" +:+ name
                            +:+ "/demo_post_123")) true)
     else Raises (ValidationError
                    ("No configured account for platform: " +:+ name)),
     s).
Proof.
  intros Hnone. unfold post, get_platform. rewrite Hnone. by destruct DEMO_MODE.
Qed.

(** X27. For an expiry without a time zone: a token that has expired, or
    expires within 60 seconds, is refreshed before the post, [authenticate()]
    is called first, and when it raises the content is not posted; a token
    that is still good, or that has no expiry, is used as it is.  For an
    expiry with a time zone, as [TwitterPlatform] stores it after a token
    exchange or a refresh, the comparison with [datetime.utcnow()] raises:
    [post] fails with that [TypeError] and calls neither [authenticate()]
    nor [post_content()].  The same holds, with [OverflowError], for an
    expiry in the first minute after [datetime.min], from which 60 seconds
    cannot be taken. *)
Theorem expired_token_is_refreshed_first
    (now : Z) (name content_text : string) (s : Service) (instance : Instance) :
  _instances s !! lower name = Some instance ->
  let r := post false now name content_text s in
  match token_expires_at (config instance) with
  | None => calls r.2 = PostContent (lower name) content_text :: calls s
  | Some expires =>
    if microseconds expires <? sixty_seconds
    then r = (Raises (PlatformError "date value out of range"), s)
    else if aware expires
    then r = (Raises (PlatformError
                        "can't compare offset-naive and offset-aware datetimes"),
              s)
    else
      calls r.2
      = if bool_decide (microseconds expires - sixty_seconds <= now)
        then match authenticate (cls instance) (config instance) with
             | Returns _ =>
               PostContent (lower name) content_text
               :: Authenticate (lower name) :: calls s
             | Raises _ => Authenticate (lower name) :: calls s
             end
        else PostContent (lower name) content_text :: calls s
  end.
Proof.
  intros Hinstance r. subst r.
  unfold post, get_platform, is_token_expired. rewrite Hinstance.
  destruct (token_expires_at (config instance)) as [expires|]; [|done].
  destruct (microseconds expires <? sixty_seconds); [done|].
  destruct (aware expires); [done|].
  destruct (decide (microseconds expires - sixty_seconds <= now)) as [Hle|Hgt].
  - rewrite (bool_decide_eq_true_2 _ Hle).
    apply Z.leb_le in Hle. rewrite Hle.
    by destruct (authenticate (cls instance) (config instance)).
  - rewrite (bool_decide_eq_false_2 _ Hgt).
    apply Z.leb_nle in Hgt. by rewrite Hgt.
Qed.

(** *** Runs *)

Definition failing_refresh : PlatformClass :=
  mkPlatformClass (fun _ => Raises "No refresh_token available")
    (fun cfg text => Returns (mkPostResult (platform_name cfg) "1" None false)).

(** Noon of 2024-01-01, in microseconds since [datetime.min]. *)
Definition noon : Z := 63839707200000000.

(** An account whose token expires at noon. *)
Definition twitter_account : PlatformConfig :=
  mkPlatformConfig "Twitter" (Some (mkDatetime noon false)).

(** The account as it is after a token exchange: the expiry carries a time
    zone. *)
Definition exchanged_account : PlatformConfig :=
  mkPlatformConfig "Twitter" (Some (mkDatetime noon true)).

Definition with_exchanged_account : Service :=
  (add_account exchanged_account (register_platform "TWITTER" failing_refresh
                                    new_service)).2.

Definition with_account : Service :=
  (add_account twitter_account (register_platform "TWITTER" failing_refresh
                                  new_service)).2.

Lemma account_lookup_ignores_case_witness :
  is_registered "tWiTTeR" with_account = true
  /\ exists platform_cls,
       _registry (register_platform "TWITTER" failing_refresh new_service)
       !! lower "tWiTTeR" = Some platform_cls
       /\ get_platform "tWiTTeR" with_account
          = Returns (mkInstance platform_cls twitter_account).
Proof.
  exact (account_lookup_ignores_case twitter_account "tWiTTeR"
           (register_platform "TWITTER" failing_refresh new_service)
           with_account eq_refl eq_refl).
Defined.

Lemma post_without_account_witness :
  post true 0 "mastodon" "hello" new_service
  = (Returns (mkPostResult "mastodon" "demo_post_mastodon_123"
                (Some "https://redacted.example.com/mastodon/demo_post_123") true),
     new_service).
Proof. exact (post_without_account true 0 "mastodon" "hello" new_service eq_refl). Defined.

Lemma expired_token_is_refreshed_first_witness :
  calls (post false (noon - 50000000) "twitter" "hello" with_account).2
  = [Authenticate "twitter"]
  /\ calls (post false (noon - 70000000) "twitter" "hello" with_account).2
     = [PostContent "twitter" "hello"]
  /\ post false (noon - 50000000) "twitter" "hello" with_exchanged_account
     = (Raises (PlatformError
                  "can't compare offset-naive and offset-aware datetimes"),
        with_exchanged_account).
Proof.
  split; [|split].
  - exact (expired_token_is_refreshed_first (noon - 50000000) "twitter" "hello"
             with_account (mkInstance failing_refresh twitter_account) eq_refl).
  - exact (expired_token_is_refreshed_first (noon - 70000000) "twitter" "hello"
             with_account (mkInstance failing_refresh twitter_account) eq_refl).
  - exact (expired_token_is_refreshed_first (noon - 50000000) "twitter" "hello"
             with_exchanged_account
             (mkInstance failing_refresh exchanged_account) eq_refl).
Defined.

End SocialMedia.

(** ** Asking HeyGen for a video ([heygen_service.py]) *)
Module HeyGen.

Import PyStr Webhook.

(** [d.get(key, default)]: the default stands in for an absent key only. *)
Definition get_or (key : string) (fallback : json) (d : list (string * json))
    : json :=
  default fallback (lookup key d).

(** [v.startswith(prefix)], which only a string has. *)
Definition startswith (prefix : string) (v : json) : outcome string bool :=
  match v with
  | JStr s => Returns (String.prefix prefix s)
  | _ => Raises ("'" +:+ type_name v +:+ "' object has no attribute 'startswith'")
  end.

(** The payload of [generate_video], with its members in the order in which
    the code sets them. *)
Definition payload_of (data : list (string * json)) : outcome string json :=
  let is_free_tier := get_or "free_tier" (JBool true) data in
  let avatar_id := get "avatar_id" data in
  let is_talking_photo : outcome string bool :=
    if json_truthy (get_or "is_talking_photo" (JBool false) data)
    then Returns true
    else if json_truthy avatar_id then startswith "talking_photo_" avatar_id
    else Returns false in
  match is_talking_photo with
  | Raises e => Raises e
  | Returns talking =>
    let character :=
      if talking
      then ("character", JObj [("type", JStr "talking_photo");
                               ("talking_photo_id", avatar_id)])
      else ("avatar", JObj [("avatar_id", avatar_id);
                            ("avatar_style",
                             get_or "avatar_style" (JStr "normal") data)]) in
    let voice :=
      ("voice", JObj [("type", JStr "text");
                      ("voice_id", get "voice_id" data);
                      ("input_text", get_or "input_text" (JStr "") data)]) in
    let bg := get "background" data in
    let background : outcome string json :=
      if json_truthy bg
      then match startswith "http" bg with
           | Raises e => Raises e
           | Returns true =>
             Returns (JObj [("type", JStr "image");
                            ("source", JObj [("type", JStr "url"); ("url", bg)])])
           | Returns false =>
             Returns (JObj [("type", JStr "color"); ("value", bg)])
           end
      else Returns (JObj [("type", JStr "color"); ("value", JStr "#FFFFFF")]) in
    match background with
    | Raises e => Raises e
    | Returns background =>
      Returns
        (JObj
           ([("video_inputs",
              JArr [JObj [character; voice; ("background", background)]]);
             ("test", get_or "test" is_free_tier data);
             ("caption", get_or "caption" (JBool false) data)]
            ++ (if json_truthy is_free_tier
                then [("dimension", JObj [("width", JNum 640); ("height", JNum 360)])]
                else [])
            ++ (if json_truthy (get "webhook_url" data)
                then [("webhook_url", get "webhook_url" data)]
                else []))%list)
    end
  end.

(** What one [requests.post] of the payload comes to inside the [try]. *)
Inductive Attempt : Type :=
| Started (result : json)
    (* a 2xx answer whose body parses *)
| Unreadable (msg : string)
    (* a 2xx answer whose body does not parse: [response.json()] raises *)
| HTTPError (status : option Z) (msg : string)
    (* [raise_for_status()]; the status of [e.response], if there is one *)
| NetworkError (msg : string).

(** Requests sent and the seconds slept, most recent first. *)
Record Effects : Type := mkEffects {
  requests_sent : list json;
  slept : list Z
}.

Definition max_retries : nat := 3.

(** [status and status >= 500 and attempt < max_retries - 1], and
    [attempt < max_retries - 1] for the other exceptions. *)
Definition retried (a : Attempt) (attempt : nat) : bool :=
  match a with
  | Started _ => false
  | HTTPError status _ =>
    match status with
    | Some status => negb (status =? 0) && (500 <=? status)
    | None => false
    end && (attempt <? max_retries - 1)%nat
  | Unreadable _ | NetworkError _ => (attempt <? max_retries - 1)%nat
  end.

Section Loop.

(** The answer to the [attempt]-th post, counted from 0. *)
Variable post : nat -> Attempt.
Variable payload : json.

(** [for attempt in range(max_retries)], from [attempt] on, with
    [remaining] rounds to go.  Leaving the loop returns [None]. *)
Fixpoint rounds (attempt remaining : nat) (e : Effects)
    : outcome string (option json) * Effects :=
  match remaining with
  | O => (Returns None, e)
  | S remaining =>
    let e := mkEffects (payload :: requests_sent e) (slept e) in
    if retried (post attempt) attempt
    then rounds (S attempt) remaining
           (mkEffects (requests_sent e) (2 ^ Z.of_nat attempt :: slept e))
    else
      match post attempt with
      | Started result => (Returns (Some result), e)
      | Unreadable msg | HTTPError _ msg | NetworkError msg => (Raises msg, e)
      end
  end.

End Loop.

(** [HeyGenService.generate_video(data)]. *)
Definition generate_video (DEMO_MODE : bool) (post : nat -> Attempt)
    (data : list (string * json)) : outcome string (option json) * Effects :=
  if DEMO_MODE
  then (Raises "HeyGen write operations disabled in demo.", mkEffects [] [])
  else
    match payload_of data with
    | Raises e => (Raises e, mkEffects [] [])
    | Returns payload => rounds post payload 0 max_retries (mkEffects [] [])
    end.

(** *** Runs *)

Definition talking_photo : list (string * json) :=
  [("avatar_id", JStr "talking_photo_42"); ("voice_id", JStr "v7");
   ("input_text", JStr "Hello")].

Definition paid_tier : list (string * json) :=
  [("avatar_id", JStr "anna"); ("free_tier", JBool false);
   ("background", JStr "https://img.example/bg.png")].

Example talking_photo_payload :
  payload_of talking_photo
  = Returns
      (JObj [("video_inputs",
              JArr [JObj [("character", JObj [("type", JStr "talking_photo");
                                             ("talking_photo_id",
                                              JStr "talking_photo_42")]);
                          ("voice", JObj [("type", JStr "text");
                                          ("voice_id", JStr "v7");
                                          ("input_text", JStr "Hello")]);
                          ("background", JObj [("type", JStr "color");
                                               ("value", JStr "#FFFFFF")])]]);
             ("test", JBool true); ("caption", JBool false);
             ("dimension", JObj [("width", JNum 640); ("height", JNum 360)])]).
Proof. reflexivity. Qed.

Example numeric_avatar_raises :
  generate_video false (fun _ => Started JNull) [("avatar_id", JNum 7)]
  = (Raises "'int' object has no attribute 'startswith'", mkEffects [] []).
Proof. reflexivity. Qed.

(** The provider answers 2xx with a body that does not parse, every time. *)
Definition always_unreadable (attempt : nat) : Attempt :=
  Unreadable "Expecting value: line 1 column 1 (char 0)".

Definition busy_then_started (attempt : nat) : Attempt :=
  match attempt with
  | O => HTTPError (Some 503) "503 Server Error"
  | _ => Started (JObj [("video_id", JStr "v1")])
  end.

(** *** The payload *)

(** X28. Every payload has the three members [video_inputs], [test] and
    [caption] first, and one video input with a character or an avatar, a
    voice and a background, in that order.  Unless [free_tier] is given and
    false, the payload also asks for 640 by 360, and [test] is what
    [free_tier] is unless [test] is given. *)
Theorem payload_shape (data : list (string * json)) (payload : json) :
  payload_of data = Returns payload ->
  exists character voice background more,
    payload = JObj (("video_inputs",
                     JArr [JObj [character; voice; ("background", background)]])
                    :: ("test", get_or "test" (get_or "free_tier" (JBool true) data)
                                  data)
                    :: ("caption", get_or "caption" (JBool false) data)
                    :: more)
    /\ (character.1 = "character" \/ character.1 = "avatar")
    /\ voice.1 = "voice"
    /\ lookup "dimension" more
       = if json_truthy (get_or "free_tier" (JBool true) data)
         then Some (JObj [("width", JNum 640); ("height", JNum 360)])
         else None.
Proof.
  unfold payload_of.
  match goal with
  | |- match ?t with _ => _ end = _ -> _ => destruct t as [talking|]; [|done]
  end.
  match goal with
  | |- match ?b with _ => _ end = _ -> _ => destruct b as [background|]; [|done]
  end.
  intros [= <-]. do 4 eexists. split; [reflexivity|].
  split; [destruct talking; auto|]. split; [done|].
  destruct (json_truthy (get_or "free_tier" (JBool true) data)); [done|].
  cbn [app]. by destruct (json_truthy (get "webhook_url" data)).
Qed.

Lemma payload_shape_witness :
  exists character voice background more,
    JObj [("video_inputs",
           JArr [JObj [("avatar", JObj [("avatar_id", JStr "anna");
                                        ("avatar_style", JStr "normal")]);
                       ("voice", JObj [("type", JStr "text"); ("voice_id", JNull);
                                       ("input_text", JStr "")]);
                       ("background",
                        JObj [("type", JStr "image");
                              ("source",
                               JObj [("type", JStr "url");
                                     ("url", JStr "https://img.example/bg.png")])])]]);
          ("test", JBool false); ("caption", JBool false)]
    = JObj (("video_inputs",
             JArr [JObj [character; voice; ("background", background)]])
            :: ("test", get_or "test" (get_or "free_tier" (JBool true) paid_tier)
                          paid_tier)
            :: ("caption", get_or "caption" (JBool false) paid_tier)
            :: more)
    /\ (character.1 = "character" \/ character.1 = "avatar")
    /\ voice.1 = "voice"
    /\ lookup "dimension" more
       = if json_truthy (get_or "free_tier" (JBool true) paid_tier)
         then Some (JObj [("width", JNum 640); ("height", JNum 360)])
         else None.
Proof. exact (payload_shape paid_tier _ eq_refl). Defined.

(** *** The retries *)

Section LoopFacts.

Variable post : nat -> Attempt.
Variable payload : json.

Local Abbreviation rounds := (rounds post payload).

(** In the last round nothing is retried. *)
Lemma last_round_is_final (a : Attempt) (attempt : nat) :
  (max_retries - 1 <= attempt)%nat -> retried a attempt = false.
Proof.
  intros Hlast. unfold retried.
  assert (Hround : (attempt <? max_retries - 1)%nat = false)
    by by apply Nat.ltb_ge.
  rewrite Hround. destruct a as [| |[status|]|]; try done. apply andb_false_r.
Qed.

(** The loop never runs out: it ends in the round of the first answer that
    is not retried. *)
Lemma rounds_end (remaining : nat) :
  forall attempt e,
    (attempt + remaining = max_retries)%nat -> (0 < remaining)%nat ->
    exists k,
      (attempt <= k < max_retries)%nat
      /\ retried (post k) k = false
      /\ (forall i, (attempt <= i < k)%nat -> retried (post i) i = true)
      /\ rounds attempt remaining e
         = (match post k with
            | Started result => Returns (Some result)
            | Unreadable msg | HTTPError _ msg | NetworkError msg => Raises msg
            end,
            mkEffects
              (repeat payload (S (k - attempt)) ++ requests_sent e)
              (rev (map (fun i => 2 ^ Z.of_nat i) (seq attempt (k - attempt)))
               ++ slept e))%list.
Proof.
  induction remaining as [|remaining IH]; intros attempt e Hsum Hpos; [lia|].
  cbn [rounds requests_sent slept].
  destruct (retried (post attempt) attempt) eqn:Hretried.
  - destruct remaining as [|remaining].
    { rewrite last_round_is_final in Hretried by lia. done. }
    destruct (IH (S attempt)
                (mkEffects (payload :: requests_sent e)
                   (2 ^ Z.of_nat attempt :: slept e)))
      as (k & Hk & Hfinal & Hbefore & ->); [lia|lia|].
    exists k. split; [lia|]. split; [done|]. split.
    + intros i Hi. destruct (decide (i = attempt)) as [->|]; [done|].
      apply Hbefore. lia.
    + f_equal. cbn [requests_sent slept].
      replace (k - attempt)%nat with (S (k - S attempt)) by lia.
      f_equal.
      * change (payload :: requests_sent e)
          with (repeat payload 1 ++ requests_sent e)%list.
        rewrite app_assoc, <- repeat_app. f_equal. f_equal. lia.
      * cbn [seq map rev]. by rewrite <- app_assoc.
  - exists attempt. split; [unfold max_retries in *; lia|]. split; [done|].
    split; [intros i Hi; lia|].
    rewrite Nat.sub_diag. cbn. by destruct (post attempt).
Qed.

End LoopFacts.

(** X29. A call that gets as far as the loop sends the same payload one to three
    times and ends with the first answer that is not retried: the result
    of a readable 2xx answer, or the exception of that round.  Before the
    second request it sleeps one second, before the third two.  It never
    returns without a result. *)
Theorem generate_video_ends_with_an_answer
    (post : nat -> Attempt) (data : list (string * json)) (payload : json) :
  payload_of data = Returns payload ->
  exists k,
    (k < 3)%nat
    /\ retried (post k) k = false
    /\ (forall i, (i < k)%nat -> retried (post i) i = true)
    /\ generate_video false post data
       = (match post k with
          | Started result => Returns (Some result)
          | Unreadable msg | HTTPError _ msg | NetworkError msg => Raises msg
          end,
          mkEffects (repeat payload (S k)) (rev (firstn k [1; 2]))).
Proof.
  intros Hpayload. unfold generate_video. rewrite Hpayload.
  destruct (rounds_end post payload max_retries 0 (mkEffects [] []))
    as (k & Hk & Hfinal & Hbefore & ->); [done|unfold max_retries; lia|].
  exists k. unfold max_retries in Hk.
  split; [lia|]. split; [done|]. split; [intros i Hi; apply Hbefore; lia|].
  f_equal. rewrite Nat.sub_0_r. cbn [requests_sent slept]. rewrite !app_nil_r.
  f_equal.
  by destruct k as [|[|[|k]]]; [..|lia].
Qed.

(** An HTTP error below 500, or one without a response, is raised at once:
    one request, no sleep. *)
Theorem client_error_is_not_retried
    (post : nat -> Attempt) (data : list (string * json)) (payload : json)
    (status : option Z) (msg : string) :
  payload_of data = Returns payload ->
  post O = HTTPError status msg ->
  match status with Some status => status < 500 | None => True end ->
  generate_video false post data = (Raises msg, mkEffects [payload] []).
Proof.
  intros Hpayload Hpost Hstatus. unfold generate_video. rewrite Hpayload.
  cbn [rounds max_retries requests_sent slept]. rewrite Hpost.
  assert (Hfinal : retried (HTTPError status msg) 0 = false).
  { unfold retried. destruct status as [status|]; [|done].
    apply Z.leb_gt in Hstatus. rewrite Hstatus. by rewrite andb_false_r. }
  by rewrite Hfinal.
Qed.

(** X30. A 2xx answer whose body cannot be read is treated like a network
    error: the video is asked for again.  When no answer can be read the
    provider has accepted the same request three times before the call
    raises. *)
Theorem unreadable_answer_is_posted_again
    (post : nat -> Attempt) (data : list (string * json)) (payload : json) :
  payload_of data = Returns payload ->
  (forall attempt, exists msg, post attempt = Unreadable msg) ->
  exists msg,
    post 2%nat = Unreadable msg
    /\ generate_video false post data
       = (Raises msg, mkEffects [payload; payload; payload] [2; 1]).
Proof.
  intros Hpayload Hpost. unfold generate_video. rewrite Hpayload.
  destruct (Hpost 0%nat) as [m0 H0]. destruct (Hpost 1%nat) as [m1 H1].
  destruct (Hpost 2%nat) as [m2 H2]. exists m2. split; [done|].
  cbn [rounds max_retries requests_sent slept]. by rewrite H0, H1, H2.
Qed.

Lemma generate_video_ends_with_an_answer_witness :
  exists k,
    (k < 3)%nat
    /\ retried (busy_then_started k) k = false
    /\ (forall i, (i < k)%nat -> retried (busy_then_started i) i = true)
    /\ generate_video false busy_then_started talking_photo
       = (match busy_then_started k with
          | Started result => Returns (Some result)
          | Unreadable msg | HTTPError _ msg | NetworkError msg => Raises msg
          end,
          mkEffects (repeat (default JNull
                               match payload_of talking_photo with
                               | Returns p => Some p
                               | Raises _ => None
                               end) (S k)) (rev (firstn k [1; 2]))).
Proof.
  exact (generate_video_ends_with_an_answer busy_then_started talking_photo _
           eq_refl).
Defined.

Lemma client_error_is_not_retried_witness :
  (generate_video false (fun _ => HTTPError (Some 402) "402 Payment Required")
     talking_photo).1
  = Raises "402 Payment Required".
Proof.
  refine (f_equal fst
            (client_error_is_not_retried
               (fun _ => HTTPError (Some 402) "402 Payment Required")
               talking_photo _ (Some 402) "402 Payment Required"
               eq_refl eq_refl _)).
  cbn. lia.
Defined.

Lemma unreadable_answer_is_posted_again_witness :
  exists msg,
    always_unreadable 2%nat = Unreadable msg
    /\ generate_video false always_unreadable talking_photo
       = (Raises msg,
          mkEffects (repeat (default JNull
                               match payload_of talking_photo with
                               | Returns p => Some p
                               | Raises _ => None
                               end) 3) [2; 1]).
Proof.
  refine (unreadable_answer_is_posted_again always_unreadable talking_photo _
            eq_refl _).
  intros attempt. by eexists.
Defined.

End HeyGen.
